(** * bridge_claude_codex_apply: the negotiation bridge and its change executor

    A shallow embedding of [bridge_claude_codex_apply.py].

    - Python values that travel through the program are the values
      [json.loads] can build ([json]); exceptions are a data type ([exn]) and
      a call that may raise returns a [result].
    - Python text is a [string] that holds the bytes of its UTF-8 encoding,
      a lone surrogate being held as the three bytes the scheme would give
      it; the methods that work by character ([strip], iteration) read the
      bytes by code point, and encoding and decoding are the checks of the
      strict codec. [lower] is written for the ASCII range, which is all the
      comparison of the answer with [o] can see.
    - The file system is a finite map from absolute POSIX paths to nodes
      (files, directories, symbolic links), threaded through every call that
      touches the disk; every file has one name and there are no permission
      bits, so the I/O failures are those decided by the kind of a node and
      by the encoding of a text. A path is resolved by following its links,
      up to forty of them, and a loop of links is an error: this is what
      [Path.resolve] returns whenever the links of the path lead somewhere
      in forty steps. The calls that read and write are made on resolved
      paths, which go through no link.
    - The two backends are opaque: a run is described by the raw text (or
      the exception) each backend gives on each turn. The prompts sent to
      them, the transcript (written, never read), the pauses and the
      console, which never fails, have no part in what the run does to the
      disk; the lines printed are kept as a trace.
    - [json.loads], [int] on a [str] and the [re] module are libraries:
      the program is parameterised by them, and small reference versions are
      given for the concrete runs. *)

From Stdlib Require Import ZArith Ascii String Bool List Lia.
From Stdlib Require Import Floats.SpecFloat.
From stdpp Require Import base option list gmap strings fin_maps.

Local Open Scope Z_scope.
Set Warnings "-register-all".

(** ** Exceptions and results *)

(** An absolute path is the list of its components below [/]. *)
Abbreviation path := (list string).

(** The subclasses of [Exception] the program can meet. *)
Inductive exn : Type :=
| ValueError (msg : string)
| TypeError (msg : string)
| AttributeError (msg : string)
| OverflowError
| JSONDecodeError
| UnicodeDecodeError
| UnicodeEncodeError
| ReError (msg : string)
| RuntimeError (msg : string)
| FileNotFoundError (p : path)
| FileExistsError (p : path)
| NotADirectoryError (p : path)
| IsADirectoryError (p : path)
| OSError (p : path)
| UnboundLocalError (name : string)
| BackendError (msg : string).

Inductive result (A : Type) : Type :=
| Ret (a : A)
| Raise (e : exn).
Arguments Ret {A} a.
Arguments Raise {A} e.

Global Instance result_ret : MRet result := fun A a => Ret a.
Global Instance result_bind : MBind result := fun A B k r =>
  match r with
  | Ret a => k a
  | Raise e => Raise e
  end.

(** ** Python values *)

Inductive json : Type :=
| JNull
| JBool (b : bool)
| JInt (n : Z)
| JFloat (f : spec_float)
| JString (s : string)
| JArray (l : list json)
| JObject (kvs : list (string * json)).

(** Truth value of a Python object ([if x], [not x], [x or y], [bool(x)]). *)
Definition truthy (v : json) : bool :=
  match v with
  | JNull => false
  | JBool b => b
  | JInt n => negb (n =? 0)
  | JFloat (S754_zero _) => false
  | JFloat _ => true
  | JString s => negb (String.eqb s "")
  | JArray l => match l with [] => false | _ => true end
  | JObject kvs => match kvs with [] => false | _ => true end
  end.

(** [x or y] *)
Definition py_or (x y : json) : json := if truthy x then x else y.

Fixpoint assoc (k : string) (kvs : list (string * json)) : option json :=
  match kvs with
  | [] => None
  | (k', v) :: kvs' => if String.eqb k k' then Some v else assoc k kvs'
  end.

(** [d.get(k, dflt)]; only a dict has the method. *)
Definition dict_get (d : json) (k : string) (dflt : json) : result json :=
  match d with
  | JObject kvs => Ret (default dflt (assoc k kvs))
  | _ => Raise (AttributeError "object has no attribute 'get'")
  end.

(** ** Text *)

Definition byte_in (lo hi : N) (c : ascii) : bool :=
  let n := N_of_ascii c in ((lo <=? n) && (n <=? hi))%N.

(** White space, as [str.strip] and [str.isspace] have it. In ASCII: the
    characters 9 to 13 and 28 to 32. *)
Definition is_space (c : ascii) : bool :=
  let n := nat_of_ascii c in
  ((9 <=? n) && (n <=? 13) || (28 <=? n) && (n <=? 32))%nat.

(** Beyond ASCII, by the bytes of the encoding: U+0085 and U+00A0 take two
    bytes; U+1680, U+2000 to U+200A, U+2028, U+2029, U+202F, U+205F and
    U+3000 take three. *)
Definition space2 (c d : ascii) : bool :=
  Ascii.eqb c "194" && (Ascii.eqb d "133" || Ascii.eqb d "160").

Definition space3 (c d e : ascii) : bool :=
  Ascii.eqb c "225" && Ascii.eqb d "154" && Ascii.eqb e "128"
  || Ascii.eqb c "226" && Ascii.eqb d "128"
     && (byte_in 128 138 e || byte_in 168 169 e || Ascii.eqb e "175")
  || Ascii.eqb c "226" && Ascii.eqb d "129" && Ascii.eqb e "159"
  || Ascii.eqb c "227" && Ascii.eqb d "128" && Ascii.eqb e "128".

(** [s.lstrip()]: the white space at the start is dropped, character by
    character. *)
Fixpoint lstrip (s : string) : string :=
  match s with
  | String c s1 =>
      if is_space c then lstrip s1
      else
        match s1 with
        | String d s2 =>
            if space2 c d then lstrip s2
            else
              match s2 with
              | String e s3 => if space3 c d e then lstrip s3 else s
              | EmptyString => s
              end
        | EmptyString => s
        end
  | EmptyString => EmptyString
  end.

(** Nothing but white space. *)
Definition blank (s : string) : bool := String.eqb (lstrip s) "".

(** [s.rstrip()]: the text is cut where nothing but white space follows. *)
Fixpoint rstrip (s : string) : string :=
  match s with
  | EmptyString => EmptyString
  | String c s' => if blank s then EmptyString else String c (rstrip s')
  end.

(** [s.strip()] *)
Definition strip (s : string) : string := rstrip (lstrip s).

Definition lower_char (c : ascii) : ascii :=
  let n := nat_of_ascii c in
  if ((65 <=? n) && (n <=? 90))%nat then ascii_of_nat (n + 32) else c.

(** [s.lower()] *)
Fixpoint lower (s : string) : string :=
  match s with
  | EmptyString => EmptyString
  | String c s' => String (lower_char c) (lower s')
  end.

(** [s.startswith(p)] *)
Fixpoint startswith (p s : string) : bool :=
  match p, s with
  | EmptyString, _ => true
  | String a p', String b s' => Ascii.eqb a b && startswith p' s'
  | String _ _, EmptyString => false
  end.

(** [s.endswith("}")] and the like, for a one-character suffix. *)
Fixpoint endswith_char (c : ascii) (s : string) : bool :=
  match s with
  | EmptyString => false
  | String a EmptyString => Ascii.eqb a c
  | String _ s' => endswith_char c s'
  end.

(** [find in text] *)
Fixpoint contains (find text : string) : bool :=
  startswith find text ||
  match text with
  | EmptyString => false
  | String _ text' => contains find text'
  end.

Fixpoint drop (n : nat) (s : string) : string :=
  match n, s with
  | O, _ => s
  | S n', String _ s' => drop n' s'
  | S _, EmptyString => EmptyString
  end.

Fixpoint take (n : nat) (s : string) : string :=
  match n, s with
  | O, _ => EmptyString
  | S n', String c s' => String c (take n' s')
  | S _, EmptyString => EmptyString
  end.

(** [text.replace(find, content, 1)]: the leftmost occurrence is replaced,
    the text is returned as it is when there is none. *)
Fixpoint replace_first (find content text : string) : string :=
  if startswith find text then content +:+ drop (String.length find) text
  else match text with
       | EmptyString => EmptyString
       | String c text' => String c (replace_first find content text')
       end.

Definition digit_of (c : ascii) : option Z :=
  let n := nat_of_ascii c in
  if ((48 <=? n) && (n <=? 57))%nat then Some (Z.of_nat n - 48) else None.

(** [int(f)] for a finite [float]: the value truncated towards zero. *)
Definition trunc_float (sign : bool) (m : positive) (e : Z) : Z :=
  let a := if 0 <=? e then Z.shiftl (Zpos m) e else Z.shiftr (Zpos m) (- e) in
  if sign then - a else a.

(** The characters of a text: a byte that continues a character (10xxxxxx)
    goes with the byte before it. *)
Fixpoint code_points (s : string) : list string :=
  match s with
  | EmptyString => []
  | String c s' =>
      match s' with
      | String d _ =>
          if byte_in 128 191 d then
            match code_points s' with
            | t :: rest => String c t :: rest
            | [] => [String c EmptyString]
            end
          else String c EmptyString :: code_points s'
      | EmptyString => [String c EmptyString]
      end
  end.

(** What a [for] loop iterates over: the items of a list, the characters of
    a [str], the keys of a dict; nothing else can be iterated. *)
Definition chars (s : string) : list json := map JString (code_points s).

Definition py_iter (v : json) : result (list json) :=
  match v with
  | JArray l => Ret l
  | JString s => Ret (chars s)
  | JObject kvs => Ret (map (fun kv => JString (fst kv)) kvs)
  | _ => Raise (TypeError "object is not iterable")
  end.

(** ** Encoded text *)

(** The strict UTF-8 codec, byte by byte: the state tells what may follow.
    [U1], [U2] and [U3] wait for that many continuation bytes; after the
    lead bytes [E0], [ED], [F0] and [F4] the next byte is restricted, which
    leaves out the overlong forms, the surrogates and what lies beyond
    U+10FFFF. *)
Inductive utf8_state : Type :=
| U0 | U1 | U2 | U3 | UE0 | UED | UF0 | UF4 | UBad.

Definition utf8_step (st : utf8_state) (c : ascii) : utf8_state :=
  match st with
  | U0 =>
      if byte_in 0 127 c then U0
      else if byte_in 194 223 c then U1
      else if byte_in 224 224 c then UE0
      else if byte_in 237 237 c then UED
      else if byte_in 225 239 c then U2
      else if byte_in 240 240 c then UF0
      else if byte_in 241 243 c then U3
      else if byte_in 244 244 c then UF4
      else UBad
  | U1 => if byte_in 128 191 c then U0 else UBad
  | U2 => if byte_in 128 191 c then U1 else UBad
  | U3 => if byte_in 128 191 c then U2 else UBad
  | UE0 => if byte_in 160 191 c then U1 else UBad
  | UED => if byte_in 128 159 c then U1 else UBad
  | UF0 => if byte_in 144 191 c then U2 else UBad
  | UF4 => if byte_in 128 143 c then U2 else UBad
  | UBad => UBad
  end.

Fixpoint utf8_run (st : utf8_state) (s : string) : utf8_state :=
  match s with
  | EmptyString => st
  | String c s' => utf8_run (utf8_step st c) s'
  end.

(** The bytes are the UTF-8 encoding of some text. For the bytes of a file
    this is [bytes.decode("utf-8")] succeeding; for a [str] of the program,
    which the model holds by its bytes, it is [str.encode("utf-8")]
    succeeding, that is, the text holds no lone surrogate. *)
Definition utf8_valid (s : string) : bool :=
  match utf8_run U0 s with
  | U0 => true
  | _ => false
  end.

(** What a file opened for reading in text mode gives for the decoded
    text: a carriage return followed by a line feed, and a carriage return
    alone, are both read as one line feed. [after_cr] tells that the last
    character was a carriage return. *)
Fixpoint newlines (after_cr : bool) (s : string) : string :=
  match s with
  | EmptyString => EmptyString
  | String c s' =>
      if Ascii.eqb c "013" then String "010" (newlines true s')
      else if Ascii.eqb c "010" then
        if after_cr then newlines false s'
        else String "010" (newlines false s')
      else String c (newlines false s')
  end.

Definition universal_newlines (s : string) : string := newlines false s.

(** ** The file system *)

Inductive node : Type :=
| File (text : string)
| Dir
| Symlink (target : string).

(** The nodes below the root directory [/], which always exists. *)
Abbreviation filesystem := (gmap path node).

Definition kind (fs : filesystem) (p : path) : option node :=
  match p with
  | [] => Some Dir
  | _ => fs !! p
  end.

(** [p.parent] *)
Definition parent (p : path) : path := removelast p.

(** [s.split("/")] *)
Fixpoint split_slash (s : string) : list string :=
  match s with
  | EmptyString => [EmptyString]
  | String c s' =>
      if Ascii.eqb c "/" then EmptyString :: split_slash s'
      else match split_slash s' with
           | w :: ws => String c w :: ws
           | [] => [String c EmptyString]
           end
  end.

Definition is_absolute (s : string) : bool := startswith "/" s.

(** [base / s]: an absolute [s] replaces the base. *)
Definition joinpath (base : path) (s : string) : list string :=
  if is_absolute s then split_slash s else base ++ split_slash s.

(** The number of symbolic links one path resolution may follow. *)
Definition MAXSYMLINKS : nat := 40.

(** Path resolution: [resolved] is the real path reached so far, [rest] the
    components still to walk, [k] the links that may still be followed.
    Empty and [.] components are skipped, [..] leaves the directory reached,
    a link is replaced by its target; a component that does not exist is
    kept as it is. Links that loop, or that are more than [k] on the way, end
    the walk with an error; the paths the walk returns are those
    [Path.resolve] returns. *)
Fixpoint walk (fs : filesystem) (k : nat) : path -> list string -> result path :=
  fix go (resolved : path) (rest : list string) {struct rest} : result path :=
    match rest with
    | [] => Ret resolved
    | c :: rest' =>
        if String.eqb c "" || String.eqb c "." then go resolved rest'
        else if String.eqb c ".." then go (parent resolved) rest'
        else
          match fs !! (resolved ++ [c]) with
          | Some (Symlink target) =>
              match k with
              | O => Raise (RuntimeError "Symlink loop")
              | S k' =>
                  walk fs k' (if is_absolute target then [] else resolved)
                       (split_slash target ++ rest')
              end
          | _ => go (resolved ++ [c]) rest'
          end
    end.

Fixpoint has_nul (s : string) : bool :=
  match s with
  | EmptyString => false
  | String c s' => Ascii.eqb c zero || has_nul s'
  end.

(** [(base / s).resolve()] *)
Definition resolve (fs : filesystem) (base : path) (s : string) : result path :=
  if has_nul s then Raise (ValueError "embedded null byte")
  else walk fs MAXSYMLINKS [] (joinpath base s).

(** [root in p.parents]: [root] is a proper ancestor of [p]. *)
Definition in_parents (root p : path) : bool :=
  bool_decide (root `prefix_of` p) && negb (bool_decide (root = p)).

(** The path as [str(p)] shows it. *)
Definition path_str (p : path) : string :=
  match p with
  | [] => "/"
  | _ => fold_right (fun c acc => "/" +:+ c +:+ acc) "" p
  end.

(** No link on the way: neither the path nor a directory above it is a
    symbolic link. *)
Definition linkfree (fs : filesystem) (p : path) : Prop :=
  forall pre t, pre `prefix_of` p -> pre <> [] -> fs !! pre <> Some (Symlink t).

(** [p.exists()] *)
Definition exists_ (fs : filesystem) (p : path) : bool :=
  match kind fs p with
  | Some (File _) | Some Dir => true
  | _ => false
  end.

Definition is_dir (fs : filesystem) (p : path) : bool :=
  match kind fs p with
  | Some Dir => true
  | _ => false
  end.

(** Calls that use the disk: the file system goes in and comes out, also
    when the call raises. The program makes them on resolved paths, which go
    through no link, so the case of a link, an [OSError] here, is one these
    calls never meet in a run. *)
Definition io (A : Type) : Type := filesystem -> result A * filesystem.

Global Instance io_bind : MBind io := fun A B k m fs =>
  match m fs with
  | (Ret a, fs') => k a fs'
  | (Raise e, fs') => (Raise e, fs')
  end.

Definition lift {A} (r : result A) : io A := fun fs => (r, fs).
Definition raise {A} (e : exn) : io A := fun fs => (Raise e, fs).
Definition get_fs : io filesystem := fun fs => (Ret fs, fs).
Definition pure {A} (a : A) : io A := fun fs => (Ret a, fs).

(** [p.read_text(encoding="utf-8")]: the bytes of the file are decoded,
    which fails when they are not UTF-8, and the line ends of the text are
    read as line feeds. *)
Definition read_text (p : path) : io string := fun fs =>
  match kind fs p with
  | Some (File bytes) =>
      if utf8_valid bytes then (Ret (universal_newlines bytes), fs)
      else (Raise UnicodeDecodeError, fs)
  | Some Dir => (Raise (IsADirectoryError p), fs)
  | Some (Symlink _) => (Raise (OSError p), fs)
  | None => (Raise (FileNotFoundError p), fs)
  end.

(** What [open(p, "w")] followed by [f.write(data)] leaves: the file is
    there and empty as soon as it is opened, and the text is encoded when it
    is written, so a text that cannot be encoded leaves the file empty and
    raises. *)
Definition open_and_write (p : path) (data : string) : io unit := fun fs =>
  if utf8_valid data then (Ret tt, <[p := File data]> fs)
  else (Raise UnicodeEncodeError, <[p := File ""]> fs).

(** [p.write_text(data, encoding="utf-8")] for a [str]: the file is created
    in an existing directory, or its content replaced; on a POSIX system the
    line feeds of the text are written as they are. *)
Definition write_text (p : path) (data : string) : io unit := fun fs =>
  match kind fs p with
  | Some (File _) => open_and_write p data fs
  | Some Dir => (Raise (IsADirectoryError p), fs)
  | Some (Symlink _) => (Raise (OSError p), fs)
  | None =>
      match kind fs (parent p) with
      | Some Dir => open_and_write p data fs
      | Some (File _) => (Raise (NotADirectoryError p), fs)
      | Some (Symlink _) => (Raise (OSError p), fs)
      | None => (Raise (FileNotFoundError p), fs)
      end
  end.

(** [p.mkdir(parents=True, exist_ok=True)], from the top: the directories
    that are missing on the way down to [done ++ todo] are created; a file on
    the way stops it. *)
Fixpoint mkdir_from (done todo : path) : io unit := fun fs =>
  match todo with
  | [] => (Ret tt, fs)
  | c :: todo' =>
      let d := done ++ [c] in
      match fs !! d with
      | None => mkdir_from d todo' (<[d := Dir]> fs)
      | Some Dir => mkdir_from d todo' fs
      | Some (File _) =>
          (Raise (match todo' with
                  | [] => FileExistsError d
                  | _ => NotADirectoryError (d ++ todo')
                  end), fs)
      | Some (Symlink _) => (Raise (OSError d), fs)
      end
  end.

Definition mkdir_parents (p : path) : io unit := mkdir_from [] p.

(** ** The [re] module *)

(** What the program uses of the library: compiling a pattern (with the
    flag [re.S]) gives a pattern or the message of [re.error]; [re_finditer]
    lists the matches of a pattern in a text, leftmost first and without
    overlap; [re_span] is the slice [start, stop) of a match; a replacement
    that holds a backslash is a template, compiled against the pattern into
    the function that expands it on a match. *)
Record re_lib : Type := {
  re_pattern : Type;
  re_match : Type;
  re_compile : string -> re_pattern + string;
  re_finditer : re_pattern -> string -> list re_match;
  re_span : re_match -> nat * nat;
  re_template : re_pattern -> string -> (re_match -> string) + string
}.

Definition has_backslash (s : string) : bool := contains "\" s.

(** [text[pos:]] with the matches replaced: the text between two matches is
    kept, each match gives way to its expansion. *)
Fixpoint splice {M : Type} (span : M -> nat * nat) (expand : M -> string)
    (text : string) (pos : nat) (ms : list M) : string :=
  match ms with
  | [] => drop pos text
  | m :: ms' =>
      take (fst (span m) - pos) (drop pos text) +:+ expand m
        +:+ splice span expand text (snd (span m)) ms'
  end.

(** ** Messages *)

(** An f-string is the list of its pieces: literal text and the values
    formatted into it. *)
Inductive piece : Type :=
| Lit (s : string)
| Val (v : json)
| Num (n : nat)
| Exc (e : exn).

Abbreviation fstring := (list piece).

Definition as_str (v : json) (msg : string) : result string :=
  match v with
  | JString s => Ret s
  | _ => Raise (TypeError msg)
  end.

(** [v == s] for a [str] constant [s] *)
Definition is_str (v : json) (s : string) : bool :=
  match v with
  | JString s' => String.eqb s' s
  | _ => false
  end.

(** The candidates of [re.findall(r"(\{.*\})", text, flags=re.S)]: [.*] is
    greedy and crosses lines, so the one match runs from the first opening
    brace to the last closing brace after it, and nothing is left to match
    behind it. *)
Fixpoint from_open (s : string) : option string :=
  match s with
  | EmptyString => None
  | String c s' => if Ascii.eqb c "{" then Some s' else from_open s'
  end.

Fixpoint upto_close (s : string) : option string :=
  match s with
  | EmptyString => None
  | String c s' =>
      match upto_close s' with
      | Some t => Some (String c t)
      | None => if Ascii.eqb c "}" then Some (String c EmptyString) else None
      end
  end.

Definition findall_braces (text : string) : list string :=
  match from_open text with
  | Some rest =>
      match upto_close rest with
      | Some body => [String "{" body]
      | None => []
      end
  | None => []
  end.

(** ** The run *)

(** What the outside gives to one run: the text of the reply of each backend
    on each turn, or the exception its client raises; the question; the line
    read at the confirmation prompt, [None] at the end of the input. *)
Record world : Type := {
  user_question : string;
  claude_reply : nat -> result string;
  codex_reply : nat -> result string;
  stdin_line : option string
}.

Inductive speaker : Type := Claude | Codex.

(** What [main] prints, one constructor for each [print]. *)
Inductive output : Type :=
| OutNoRoot
| OutEmptyQuestion
| OutStart
| OutMessage (who : speaker) (score : Z) (summary advice : json)
| OutCallError (who : speaker) (e : exn)
| OutDouble5
| OutLogs (logs : list fstring)
| OutApplied5
| OutLimit
| OutPreview (candidate : json)
| OutAppliedManual
| OutNothingApplied
| OutNothingProposed.

Inductive event : Type :=
| Call (who : speaker) (turn : nat)
| Say (o : output)
| Prompt.

(** The disk, what happened so far, and the two local variables of [main]
    that outlive a turn ([None]: not bound yet). *)
Record state : Type := {
  disk : filesystem;
  trace : list event;
  c_changes : option json;
  d_changes : option json
}.

Definition emit (ev : event) (st : state) : state :=
  {| disk := disk st; trace := trace st ++ [ev];
     c_changes := c_changes st; d_changes := d_changes st |}.

Definition set_disk (fs : filesystem) (st : state) : state :=
  {| disk := fs; trace := trace st;
     c_changes := c_changes st; d_changes := d_changes st |}.

Definition set_c_changes (v : json) (st : state) : state :=
  {| disk := disk st; trace := trace st;
     c_changes := Some v; d_changes := d_changes st |}.

Definition set_d_changes (v : json) (st : state) : state :=
  {| disk := disk st; trace := trace st;
     c_changes := c_changes st; d_changes := Some v |}.

(** How the [while] loop is left, and how [main] ends. *)
Inductive loop_exit : Type :=
| Committed
| LoopEnd
| Crashed (e : exn).

Inductive ending : Type :=
| Returned
| SysExit (code : Z)
| Uncaught (e : exn).

Definition TURN_LIMIT : nat := 5.
Definition APPLY_IMMEDIATELY_ON_DOUBLE_5 : bool := true.

(** [last_codex = {}] is never assigned again. *)
Definition last_codex : json := JObject [].

(** A local variable is read: [UnboundLocalError] when it is not bound. *)
Definition read_local (name : string) (v : option json) : result json :=
  match v with
  | Some x => Ret x
  | None => Raise (UnboundLocalError name)
  end.

(** ** Reference libraries for the concrete runs *)

(** A reader for [int] on a [str], for ASCII text: the white space of ASCII
    around, an optional sign, decimal digits with single underscores between
    them, and no more digits than the default limit of the interpreter.
    Text that is not ASCII is refused; the library reads the digits and the
    white space of other scripts as well. *)
Module Int.

Definition is_ws (c : ascii) : bool :=
  let n := nat_of_ascii c in ((9 <=? n) && (n <=? 13) || (n =? 32))%nat.

Fixpoint skip_ws (s : string) : string :=
  match s with
  | String c s' => if is_ws c then skip_ws s' else s
  | EmptyString => EmptyString
  end.

(** The digits of a literal: decimal digits, single underscores allowed
    between two digits, white space allowed after the last digit. [acc] is
    the value so far, [count] the number of digits, [sep] tells that the last
    character was an underscore. *)
Fixpoint digits (acc : Z) (count : nat) (sep : bool) (s : string)
    : option (Z * nat) :=
  match s with
  | EmptyString => if sep then None else Some (acc, count)
  | String c s' =>
      match digit_of c with
      | Some d => digits (10 * acc + d) (S count) false s'
      | None =>
          if Ascii.eqb c "_" && negb sep
          then match s' with
               | EmptyString => None
               | _ => digits acc count true s'
               end
          else if negb sep && String.eqb (skip_ws s) EmptyString
          then Some (acc, count)
          else None
      end
  end.

Definition MAX_STR_DIGITS : nat := 4300.

Definition literal (s : string) : option Z :=
  match s with
  | String c s' =>
      match digit_of c with
      | Some d =>
          '(n, count) ← digits d 1 false s';
          if (count <=? MAX_STR_DIGITS)%nat then Some n else None
      | None => None
      end
  | EmptyString => None
  end.

Fixpoint is_ascii (s : string) : bool :=
  match s with
  | EmptyString => true
  | String c s' => byte_in 0 127 c && is_ascii s'
  end.

Definition of_str (s : string) : option Z :=
  if is_ascii s then
    match skip_ws s with
    | String "-" s' => Z.opp <$> literal s'
    | String "+" s' => literal s'
    | s' => literal s'
    end
  else None.

End Int.

(** A decoder for [json.loads]: one JSON document with white space around
    it; numbers with a fraction or an exponent are floats, rounded to the
    nearest double; a repeated key keeps its place and takes the last value;
    the constants [NaN], [Infinity] and [-Infinity] are read as Python reads
    them. *)
Module Json.

Definition quote : ascii := "034".
Definition backslash : ascii := "092".

Definition is_ws (c : ascii) : bool :=
  Ascii.eqb c " " || Ascii.eqb c "009" || Ascii.eqb c "010" || Ascii.eqb c "013".

Fixpoint skip_ws (s : string) : string :=
  match s with
  | String c s' => if is_ws c then skip_ws s' else s
  | EmptyString => EmptyString
  end.

Definition hex_of (c : ascii) : option N :=
  let n := N_of_ascii c in
  (if (48 <=? n) && (n <=? 57) then Some (n - 48)
   else if (65 <=? n) && (n <=? 70) then Some (n - 55)
   else if (97 <=? n) && (n <=? 102) then Some (n - 87)
   else None)%N.

Definition hex4 (a b c d : ascii) : option N :=
  x ← hex_of a; y ← hex_of b; z ← hex_of c; t ← hex_of d;
  Some (((x * 16 + y) * 16 + z) * 16 + t)%N.

Definition byte (n : N) : ascii := ascii_of_N n.

(** The UTF-8 bytes of a code point. *)
Definition utf8 (cp : N) : string :=
  (if cp <? 128 then String (byte cp) ""
   else if cp <? 2048 then
     String (byte (192 + cp / 64)) (String (byte (128 + cp mod 64)) "")
   else if cp <? 65536 then
     String (byte (224 + cp / 4096))
       (String (byte (128 + (cp / 64) mod 64))
          (String (byte (128 + cp mod 64)) ""))
   else
     String (byte (240 + cp / 262144))
       (String (byte (128 + (cp / 4096) mod 64))
          (String (byte (128 + (cp / 64) mod 64))
             (String (byte (128 + cp mod 64)) ""))))%N.

Definition simple_escape (c : ascii) : option ascii :=
  if Ascii.eqb c quote then Some quote
  else if Ascii.eqb c backslash then Some backslash
  else if Ascii.eqb c "/" then Some "/"%char
  else if Ascii.eqb c "b" then Some "008"%char
  else if Ascii.eqb c "f" then Some "012"%char
  else if Ascii.eqb c "n" then Some "010"%char
  else if Ascii.eqb c "r" then Some "013"%char
  else if Ascii.eqb c "t" then Some "009"%char
  else None.

Definition is_high (cp : N) : bool := ((55296 <=? cp) && (cp <=? 56319))%N.
Definition is_low (cp : N) : bool := ((56320 <=? cp) && (cp <=? 57343))%N.

(** The text of a string after its opening quote, up to the closing one. *)
Fixpoint parse_string (s : string) : option (string * string) :=
  match s with
  | EmptyString => None
  | String c s1 =>
      if Ascii.eqb c quote then Some (EmptyString, s1)
      else if Ascii.eqb c backslash then
        match s1 with
        | String "u" (String h1 (String h2 (String h3 (String h4 s2)))) =>
            cp ← hex4 h1 h2 h3 h4;
            match s2 with
            | String b (String "u" (String l1 (String l2 (String l3 (String l4 s3))))) =>
                match hex4 l1 l2 l3 l4 with
                | Some lo =>
                    if Ascii.eqb b backslash && is_high cp && is_low lo
                    then
                      '(t, rest) ← parse_string s3;
                      Some (utf8 (65536 + (cp - 55296) * 1024 + (lo - 56320))%N +:+ t, rest)
                    else '(t, rest) ← parse_string s2; Some (utf8 cp +:+ t, rest)
                | None => '(t, rest) ← parse_string s2; Some (utf8 cp +:+ t, rest)
                end
            | _ => '(t, rest) ← parse_string s2; Some (utf8 cp +:+ t, rest)
            end
        | String e s2 =>
            ch ← simple_escape e;
            '(t, rest) ← parse_string s2; Some (String ch t, rest)
        | EmptyString => None
        end
      else if (N_of_ascii c <? 32)%N then None
      else '(t, rest) ← parse_string s1; Some (String c t, rest)
  end.

(** The decimal digits at the head of a text: their value, how many they
    are, and what follows. *)
Fixpoint digits (acc : Z) (count : Z) (s : string) : Z * Z * string :=
  match s with
  | String c s' =>
      match digit_of c with
      | Some d => digits (10 * acc + d) (count + 1) s'
      | None => (acc, count, s)
      end
  | EmptyString => (acc, count, s)
  end.

(** The double nearest to [m * 10 ^ e] (ties to even), for [0 <= m]. *)
Definition float_of_decimal (neg : bool) (m e : Z) : spec_float :=
  if m =? 0 then S754_zero neg
  else
    let '(num, ex) :=
      if 0 <=? e then (m * 10 ^ e, 0)
      else
        let d := 10 ^ (- e) in
        let s := Z.max 0 (Z.log2 d - Z.log2 m + 64) in
        let n := m * 2 ^ s in
        (2 * (n / d) + (if n mod d =? 0 then 0 else 1), - s - 1) in
    binary_normalize 53 1024 (if neg then - num else num) ex neg.

(** A number: an optional minus sign, then [0] or digits that do not start
    with [0], then an optional fraction (a dot and digits) and an optional
    exponent ([e] or [E], a sign, digits). *)
Definition parse_number (s : string) : option (json * string) :=
  let '(neg, s0) :=
    match s with
    | String "-" s' => (true, s')
    | _ => (false, s)
    end in
  let int_part :=
    match s0 with
    | String "0" s' => Some (0, s')
    | String c _ =>
        match digit_of c with
        | Some _ => let '(n, _, rest) := digits 0 0 s0 in Some (n, rest)
        | None => None
        end
    | EmptyString => None
    end in
  '(n, s1) ← int_part;
  let '(frac, s2) :=
    match s1 with
    | String "." s' =>
        let '(f, k, rest) := digits 0 0 s' in
        if 0 <? k then (Some (f, k), rest) else (None, s1)
    | _ => (None, s1)
    end in
  let '(exp, s3) :=
    match s2 with
    | String c s' =>
        if Ascii.eqb c "e" || Ascii.eqb c "E" then
          let '(eneg, s'') :=
            match s' with
            | String "-" t => (true, t)
            | String "+" t => (false, t)
            | _ => (false, s')
            end in
          let '(x, k, rest) := digits 0 0 s'' in
          if 0 <? k then (Some (if eneg then - x else x), rest) else (None, s2)
        else (None, s2)
    | EmptyString => (None, s2)
    end in
  match frac, exp with
  | None, None => Some (JInt (if neg then - n else n), s3)
  | _, _ =>
      let '(f, k) := default (0, 0) frac in
      Some (JFloat (float_of_decimal neg (n * 10 ^ k + f) (default 0 exp - k)), s3)
  end.

(** [d[k] = v] *)
Fixpoint dict_set (k : string) (v : json) (kvs : list (string * json))
    : list (string * json) :=
  match kvs with
  | [] => [(k, v)]
  | (k', v') :: kvs' =>
      if String.eqb k k' then (k, v) :: kvs' else (k', v') :: dict_set k v kvs'
  end.

Definition list_to_dict (kvs : list (string * json)) : list (string * json) :=
  fold_left (fun d kv => dict_set (fst kv) (snd kv) d) kvs [].

(** One value at the head of the text, and what follows it. [parse_elems]
    reads the items of an array from the first one, [parse_members] the
    members of an object from the quote of the first key. *)
Fixpoint parse_value (fuel : nat) (s : string) : option (json * string) :=
  match fuel with
  | O => None
  | S fuel' =>
      match s with
      | EmptyString => None
      | String c s' =>
          if Ascii.eqb c quote then
            '(t, rest) ← parse_string s'; Some (JString t, rest)
          else if Ascii.eqb c "{" then
            match skip_ws s' with
            | String "}" rest => Some (JObject [], rest)
            | s'' => '(kvs, rest) ← parse_members fuel' s'';
                     Some (JObject (list_to_dict kvs), rest)
            end
          else if Ascii.eqb c "[" then
            match skip_ws s' with
            | String "]" rest => Some (JArray [], rest)
            | s'' => '(l, rest) ← parse_elems fuel' s''; Some (JArray l, rest)
            end
          else if startswith "null" s then Some (JNull, drop 4 s)
          else if startswith "true" s then Some (JBool true, drop 4 s)
          else if startswith "false" s then Some (JBool false, drop 5 s)
          else if startswith "NaN" s then Some (JFloat S754_nan, drop 3 s)
          else if startswith "Infinity" s
          then Some (JFloat (S754_infinity false), drop 8 s)
          else if startswith "-Infinity" s
          then Some (JFloat (S754_infinity true), drop 9 s)
          else parse_number s
      end
  end
with parse_elems (fuel : nat) (s : string) : option (list json * string) :=
  match fuel with
  | O => None
  | S fuel' =>
      '(v, s1) ← parse_value fuel' s;
      match skip_ws s1 with
      | String "," s2 =>
          '(l, rest) ← parse_elems fuel' (skip_ws s2); Some (v :: l, rest)
      | String "]" rest => Some ([v], rest)
      | _ => None
      end
  end
with parse_members (fuel : nat) (s : string)
    : option (list (string * json) * string) :=
  match fuel with
  | O => None
  | S fuel' =>
      match s with
      | String c s0 =>
          if Ascii.eqb c quote then
            '(k, s1) ← parse_string s0;
            match skip_ws s1 with
            | String ":" s2 =>
                '(v, s3) ← parse_value fuel' (skip_ws s2);
                match skip_ws s3 with
                | String "," s4 =>
                    '(kvs, rest) ← parse_members fuel' (skip_ws s4);
                    Some ((k, v) :: kvs, rest)
                | String "}" rest => Some ([(k, v)], rest)
                | _ => None
                end
            | _ => None
            end
          else None
      | EmptyString => None
      end
  end.

(** [json.loads(s)]; the fuel exceeds the number of values of the text. *)
Definition loads (s : string) : option json :=
  '(v, rest) ← parse_value (2 * String.length s + 2) (skip_ws s);
  match skip_ws rest with
  | EmptyString => Some v
  | _ => None
  end.

(** A text written with apostrophes where JSON has double quotes. *)
Fixpoint text (s : string) : string :=
  match s with
  | EmptyString => EmptyString
  | String c s' => String (if Ascii.eqb c "'" then quote else c) (text s')
  end.

End Json.

(** The [re] module on the patterns without a special character: such a
    pattern matches its own text and nothing else. Every other pattern is
    outside this fragment and is reported as an error here; so are the
    group references and octal escapes of a template. The results about the
    program hold for every [re_lib]; this one serves the concrete runs. *)
Module LiteralRe.

Definition is_special (c : ascii) : bool :=
  contains (String c EmptyString) ".^$*+?{}[]\|()".

Fixpoint ordinary (s : string) : bool :=
  match s with
  | EmptyString => true
  | String c s' => negb (is_special c) && ordinary s'
  end.

Definition compile (pat : string) : string + string :=
  if ordinary pat then inl pat else inr "pattern outside the literal fragment".

(** The occurrences of [pat] from [pos] on, leftmost first, without
    overlap; [skip] characters still belong to the last match. *)
Fixpoint occurrences (pat text : string) (pos skip : nat) : list (nat * nat) :=
  match skip, text with
  | S k, String _ text' => occurrences pat text' (S pos) k
  | S _, EmptyString => []
  | O, _ =>
      if startswith pat text then
        (pos, pos + String.length pat)%nat ::
        match text with
        | String _ text' => occurrences pat text' (S pos) (String.length pat - 1)
        | EmptyString => []
        end
      else
        match text with
        | String _ text' => occurrences pat text' (S pos) 0
        | EmptyString => []
        end
  end.

Definition finditer (pat text : string) : list (nat * nat) :=
  occurrences pat text 0 0.

Definition is_letter (c : ascii) : bool :=
  let n := nat_of_ascii c in
  ((65 <=? n) && (n <=? 90) || (97 <=? n) && (n <=? 122))%nat.

Definition escape (c : ascii) : option ascii :=
  if Ascii.eqb c "a" then Some "007"%char
  else if Ascii.eqb c "b" then Some "008"%char
  else if Ascii.eqb c "f" then Some "012"%char
  else if Ascii.eqb c "n" then Some "010"%char
  else if Ascii.eqb c "r" then Some "013"%char
  else if Ascii.eqb c "t" then Some "009"%char
  else if Ascii.eqb c "v" then Some "011"%char
  else if Ascii.eqb c "\" then Some "\"%char
  else None.

(** The text a template stands for: [\n] and the like give one character,
    a backslash before another letter is an error, a backslash before
    anything else is kept with it. *)
Fixpoint expansion (repl : string) : string + string :=
  match repl with
  | EmptyString => inl EmptyString
  | String c rest =>
      if Ascii.eqb c "\" then
        match rest with
        | EmptyString => inr "bad escape (end of pattern)"
        | String e rest' =>
            match escape e with
            | Some ch =>
                match expansion rest' with
                | inl t => inl (String ch t)
                | inr msg => inr msg
                end
            | None =>
                if is_letter e then inr "bad escape"
                else if bool_decide (is_Some (digit_of e)) then inr "invalid group reference"
                else
                  match expansion rest' with
                  | inl t => inl (String c (String e t))
                  | inr msg => inr msg
                  end
            end
        end
      else
        match expansion rest with
        | inl t => inl (String c t)
        | inr msg => inr msg
        end
  end.

Definition template (pat repl : string) : ((nat * nat) -> string) + string :=
  match expansion repl with
  | inl t => inl (fun _ => t)
  | inr msg => inr msg
  end.

Definition lib : re_lib :=
  {| re_pattern := string;
     re_match := nat * nat;
     re_compile := compile;
     re_finditer := finditer;
     re_span := fun m => m;
     re_template := template |}.

End LiteralRe.

(** ** Data of the concrete runs *)

Module Demo.

Definition root : path := ["work"].

(** The workspace [/work] with one file and a link that leaves it. *)
Definition fs : filesystem :=
  {[ ["work"] := Dir;
     ["work"; "f.txt"] := File "x y x";
     ["work"; "out"] := Symlink "/etc" ]}.

Definition op (action pth content : string) : json :=
  JObject [("action", JString action); ("path", JString pth);
           ("content", JString content)].

Definition patch (pth find content : string) (regex : bool) : json :=
  JObject [("action", JString "patch_block"); ("path", JString pth);
           ("find", JString find); ("regex", JBool regex);
           ("content", JString content)].

Definition say3 : string :=
  Json.text "{'score': 3, 'summary': 'not sure', 'advice': '', 'changes': []}".

Definition say5 : string :=
  Json.text "{'score': 5, 'summary': 'ok', 'advice': '', 'changes': []}".

Definition hello3 : string :=
  Json.text "{'score': 3, 'summary': 'a note', 'advice': 'keep it', 'changes': [{'action': 'replace', 'path': 'notes.txt', 'content': 'hello'}]}".

Definition hello5 : string :=
  Json.text "Voici ma relecture. {'score': 5, 'summary': 'ok', 'advice': '', 'changes': [{'action': 'replace', 'path': 'notes.txt', 'content': 'hello'}]}".

(** Both backends are sure at once. *)
Definition agree : world :=
  {| user_question := "Add a note";
     claude_reply := fun _ => Ret say5;
     codex_reply := fun _ => Ret hello5;
     stdin_line := None |}.

(** Nobody is ever sure; the user answers [answer]. *)
Definition never (answer : option string) : world :=
  {| user_question := "Add a note";
     claude_reply := fun _ => Ret say3;
     codex_reply := fun _ => Ret hello3;
     stdin_line := answer |}.

(** The first backend answers with prose only. *)
Definition mute : world :=
  {| user_question := "Add a note";
     claude_reply := fun _ => Ret "I would rather not answer.";
     codex_reply := fun _ => Ret hello5;
     stdin_line := Some "o" |}.

(** A first turn without changes, then a proposal and a backend that
    fails; the user answers yes. *)
Definition broken : world :=
  {| user_question := "Add a note";
     claude_reply := fun turn => Ret (match turn with O => say3 | _ => hello3 end);
     codex_reply := fun turn =>
       match turn with
       | O => Ret say3
       | _ => Raise (BackendError "rate limit")
       end;
     stdin_line := Some "o" |}.

End Demo.

(** Further worlds for the concrete runs. *)
Module Scenes.

(** The second backend proposes a change on the first turn and fails on
    the second, after the first backend has answered without changes; the
    user answers [answer]. *)
Definition stale (answer : option string) : world :=
  {| user_question := "Add a note";
     claude_reply := fun _ => Ret Demo.say3;
     codex_reply := fun turn =>
       match turn with
       | O => Ret Demo.hello3
       | _ => Raise (BackendError "rate limit")
       end;
     stdin_line := answer |}.

(** The workspace with its file and no link. *)
Definition plain : filesystem :=
  {[ ["work"] := Dir;
     ["work"; "f.txt"] := File "x y x" ]}.

Definition cr : string := String "013" "".
Definition lf : string := String "010" "".

(** The workspace with a file whose lines end with a carriage return and
    a line feed, and a file that holds Latin-1. *)
Definition dos : filesystem :=
  {[ ["work"] := Dir;
     ["work"; "dos.txt"] := File ("x y" +:+ cr +:+ lf +:+ "x" +:+ cr +:+ lf);
     ["work"; "latin.txt"] := File ("caf" +:+ String "233" " x") ]}.

(** A lone surrogate, U+D800, as the model holds it. *)
Definition surrogate : string := String "237" (String "160" (String "128" "")).

End Scenes.

(** ** The program *)

Section Bridge.

(** [json.loads]: the decoded value, or [None] when the text is not one
    JSON document. *)
Variable json_loads : string -> option json.

(** [int(s)] for a [str]: the value, or [None] when the text is not the
    literal of an integer and [int] raises [ValueError]. *)
Variable int_of_str : string -> option Z.

Variable RE : re_lib.
Variable WORKSPACE_ROOT : path.

Fixpoint first_decodable (candidates : list string) : option json :=
  match candidates with
  | [] => None
  | cand :: candidates' =>
      match json_loads cand with
      | Some v => Some v
      | None => first_decodable candidates'
      end
  end.

Definition parse_first_json_block (text : string) : result json :=
  match first_decodable (findall_braces text) with
  | Some v => Ret v
  | None =>
      let text_stripped := strip text in
      if startswith "{" text_stripped && endswith_char "}" text_stripped
      then match json_loads text_stripped with
           | Some v => Ret v
           | None => Raise JSONDecodeError
           end
      else Raise (ValueError "Réponse sans JSON valide.")
  end.

Definition ask_claude (w : world) (turn : nat) : result json :=
  text ← claude_reply w turn; parse_first_json_block text.

Definition ask_codex (w : world) (turn : nat) : result json :=
  text ← codex_reply w turn; parse_first_json_block text.

Definition safe_relpath (path_str' : json) : io path := fun fs =>
  match path_str' with
  | JString s =>
      match resolve fs WORKSPACE_ROOT s with
      | Ret p =>
          if negb (in_parents WORKSPACE_ROOT p)
             && negb (bool_decide (p = WORKSPACE_ROOT))
          then (Raise (ValueError ("Chemin hors workspace_root: " +:+ path_str p)), fs)
          else (Ret p, fs)
      | Raise e => (Raise e, fs)
      end
  | _ => (Raise (TypeError "unsupported operand type(s) for /"), fs)
  end.

(** [re.subn(find, content, text, flags=re.S)] *)
Definition re_subn (find content : json) (text : string) : result (string * nat) :=
  pat ← as_str find "first argument must be string or compiled pattern";
  match re_compile RE pat with
  | inr msg => Raise (ReError msg)
  | inl p =>
      repl ← as_str content "expected str instance";
      match (if has_backslash repl then re_template RE p repl
             else inl (fun _ => repl)) with
      | inr msg => Raise (ReError msg)
      | inl expand =>
          let ms := re_finditer RE p text in
          Ret (splice (re_span RE) expand text 0 ms, length ms)
      end
  end.

(** [target.read_text(encoding="utf-8") if target.exists() else ""] *)
Definition read_or_empty (target : path) : io string :=
  fs ← get_fs; if exists_ fs target then read_text target else pure "".

Definition apply_change (change : json) : io (bool * fstring) :=
  action ← lift (dict_get change "action" JNull);
  path ← lift (dict_get change "path" JNull);
  content ← lift (dict_get change "content" (JString ""));
  if negb (truthy action) || negb (truthy path)
  then pure (false, [Lit "change incomplet (action/path manquant)."])
  else
    target ← safe_relpath path;
    mkdir_parents (parent target);;
    if is_str action "replace" then
      data ← lift (as_str content "data must be str");
      write_text target data;;
      pure (true, [Lit "[replace] "; Val path])
    else if is_str action "append" then
      prev ← read_or_empty target;
      data ← lift (as_str content "can only concatenate str to str");
      write_text target (prev +:+ data);;
      pure (true, [Lit "[append] "; Val path])
    else if is_str action "patch_block" then
      find ← lift (dict_get change "find" JNull);
      regex ← lift (dict_get change "regex" (JBool false));
      if negb (truthy find)
      then pure (false, [Lit "patch_block sans 'find'."])
      else
        text ← read_or_empty target;
        if truthy regex then
          match re_subn find content text with
          | Raise (ReError msg) =>
              pure (false, [Lit "regex invalide: "; Exc (ReError msg)])
          | Raise e => raise e
          | Ret (new_text, n) =>
              if (n =? 0)%nat
              then pure (false, [Lit "rien trouvé pour regex dans "; Val path])
              else
                write_text target new_text;;
                pure (true, [Lit "[patch_block/regex x"; Num n; Lit "] "; Val path])
          end
        else
          pat ← lift (as_str find "'in <string>' requires string as left operand");
          if negb (contains pat text)
          then pure (false, [Lit "bloc 'find' introuvable dans "; Val path])
          else
            data ← lift (as_str content "replace() argument 2 must be str");
            write_text target (replace_first pat data text);;
            pure (true, [Lit "[patch_block] "; Val path])
    else pure (false, [Lit "action inconnue: "; Val action]).

(** One round of the loop of [apply_changes]: the change is applied, an
    exception becomes a failure, and the line of the log is built. *)
Definition attempt (ch : json) : io fstring := fun fs =>
  let '(ok, msg, fs') :=
    match apply_change ch fs with
    | (Ret (ok, msg), fs') => (ok, msg, fs')
    | (Raise e, fs') => (false, [Lit "ERREUR: "; Exc e], fs')
    end in
  let prefix := if ok : bool then "✅" else "⚠️" in
  (Ret (Lit prefix :: Lit " " :: msg), fs').

Fixpoint attempts (chs : list json) : io (list fstring) :=
  match chs with
  | [] => pure []
  | ch :: chs' => line ← attempt ch; logs ← attempts chs'; pure (line :: logs)
  end.

Definition apply_changes (changes : json) : io (list fstring) :=
  chs ← lift (py_iter (py_or changes (JArray [])));
  attempts chs.

(** [int(v)] *)
Definition py_int (v : json) : result Z :=
  match v with
  | JBool b => Ret (if b then 1 else 0)
  | JInt n => Ret n
  | JFloat (S754_finite sign m e) => Ret (trunc_float sign m e)
  | JFloat (S754_zero _) => Ret 0
  | JFloat (S754_infinity _) => Raise OverflowError
  | JFloat S754_nan => Raise (ValueError "cannot convert float NaN to integer")
  | JString s =>
      match int_of_str s with
      | Some n => Ret n
      | None => Raise (ValueError "invalid literal for int() with base 10")
      end
  | JNull | JArray _ | JObject _ =>
      Raise (TypeError "int() argument must be a string or a real number")
  end.

(** The four fields [main] reads from a message, in the order it reads
    them: [int(m.get("score", 1))], then the summary, the advice and the
    changes. *)
Definition fields (m : json) : result (Z * json * json * json) :=
  score ← (dict_get m "score" (JInt 1) ≫= py_int);
  summary ← dict_get m "summary" (JString "");
  advice ← dict_get m "advice" (JString "");
  changes ← dict_get m "changes" (JArray []);
  mret (score, summary, advice, changes).

(** The [while turn < TURN_LIMIT] loop, with [n] turns left. *)
Fixpoint loop (w : world) (n turn : nat) (st : state) : loop_exit * state :=
  match n with
  | O => (LoopEnd, st)
  | S n' =>
      let st := emit (Call Claude turn) st in
      match ask_claude w turn with
      | Raise e => (LoopEnd, emit (Say (OutCallError Claude e)) st)
      | Ret claude_json =>
          match fields claude_json with
          | Raise e => (Crashed e, st)
          | Ret (c_score, c_summary, c_advice, c_chg) =>
              let st := set_c_changes c_chg st in
              let st := emit (Say (OutMessage Claude c_score c_summary c_advice)) st in
              let st := emit (Call Codex turn) st in
              match ask_codex w turn with
              | Raise e => (LoopEnd, emit (Say (OutCallError Codex e)) st)
              | Ret codex_json =>
                  match fields codex_json with
                  | Raise e => (Crashed e, st)
                  | Ret (d_score, d_summary, d_advice, d_chg) =>
                      let st := set_d_changes d_chg st in
                      let st := emit (Say (OutMessage Codex d_score d_summary d_advice)) st in
                      if APPLY_IMMEDIATELY_ON_DOUBLE_5 && (c_score =? 5) && (d_score =? 5)
                      then
                        let st := emit (Say OutDouble5) st in
                        match apply_changes (py_or d_chg c_chg) (disk st) with
                        | (Ret logs, fs') =>
                            (Committed,
                             emit (Say OutApplied5)
                               (emit (Say (OutLogs logs)) (set_disk fs' st)))
                        | (Raise e, fs') => (Crashed e, set_disk fs' st)
                        end
                      else loop w n' (S turn) st
                  end
              end
          end
      end
  end.

(** [input(...).strip().lower()], and ["n"] at the end of the input. *)
Definition read_answer (w : world) : string :=
  match stdin_line w with
  | Some line => lower (strip line)
  | None => "n"
  end.

(** What follows the loop when it is left without a double 5. *)
Definition finish (w : world) (st : state) : ending * state :=
  let st := emit (Say OutLimit) st in
  match (if truthy last_codex then dict_get last_codex "changes" JNull
         else read_local "d_changes" (d_changes st)) with
  | Raise e => (Uncaught e, st)
  | Ret candidate =>
      match (if negb (truthy candidate) then read_local "c_changes" (c_changes st)
             else Ret candidate) with
      | Raise e => (Uncaught e, st)
      | Ret candidate =>
          if truthy candidate then
            let st := emit Prompt (emit (Say (OutPreview candidate)) st) in
            if String.eqb (read_answer w) "o" then
              match apply_changes candidate (disk st) with
              | (Ret logs, fs') =>
                  (Returned,
                   emit (Say OutAppliedManual)
                     (emit (Say (OutLogs logs)) (set_disk fs' st)))
              | (Raise e, fs') => (Uncaught e, set_disk fs' st)
              end
            else (Returned, emit (Say OutNothingApplied) st)
          else (Returned, emit (Say OutNothingProposed) st)
      end
  end.

Definition initial (fs : filesystem) : state :=
  {| disk := fs; trace := []; c_changes := None; d_changes := None |}.

Definition main (w : world) (fs : filesystem) : ending * state :=
  let st := initial fs in
  if negb (exists_ fs WORKSPACE_ROOT)
  then (SysExit 1, emit (Say OutNoRoot) st)
  else if negb (truthy (JString (user_question w)))
  then (SysExit 1, emit (Say OutEmptyQuestion) st)
  else
    match loop w TURN_LIMIT 0 (emit (Say OutStart) st) with
    | (Committed, st') => (Returned, st')
    | (Crashed e, st') => (Uncaught e, st')
    | (LoopEnd, st') => finish w st'
    end.

(** *** Vocabulary of the statements *)

(** What is stored at the target of a change: the content of a file,
    nothing for a file that is missing. *)
Definition file_text (fs : filesystem) (target : path) : option string :=
  match kind fs target with
  | Some (File text) => Some text
  | None => Some ""
  | _ => None
  end.

(** The text a change reads at its target: the decoded content of a file
    that holds UTF-8, with its line ends read as line feeds; nothing for a
    file that is missing. *)
Definition text_read (fs : filesystem) (target : path) : option string :=
  match kind fs target with
  | Some (File bytes) =>
      if utf8_valid bytes then Some (universal_newlines bytes) else None
  | None => Some ""
  | _ => None
  end.

(** The two messages of a turn in which both calls and both readings of
    the fields succeed. *)
Definition exchange (w : world) (turn : nat)
    : option ((Z * json * json * json) * (Z * json * json * json)) :=
  match ask_claude w turn with
  | Ret claude_json =>
      match fields claude_json with
      | Ret c =>
          match ask_codex w turn with
          | Ret codex_json =>
              match fields codex_json with
              | Ret d => Some (c, d)
              | Raise _ => None
              end
          | Raise _ => None
          end
      | Raise _ => None
      end
  | Raise _ => None
  end.

Definition score_of (m : Z * json * json * json) : Z := m.1.1.1.
Definition summary_of (m : Z * json * json * json) : json := m.1.1.2.
Definition advice_of (m : Z * json * json * json) : json := m.1.2.
Definition changes_of (m : Z * json * json * json) : json := m.2.

Definition double5 (x : (Z * json * json * json) * (Z * json * json * json)) : bool :=
  (score_of x.1 =? 5) && (score_of x.2 =? 5).

(** A turn that is completed and does not end the loop. *)
Definition quiet (w : world) (turn : nat) : Prop :=
  exists x, exchange w turn = Some x /\ double5 x = false.

(** What a completed turn leaves in the state before the scores are
    compared. *)
Definition record_turn (turn : nat)
    (x : (Z * json * json * json) * (Z * json * json * json)) (st : state) : state :=
  let st := emit (Call Claude turn) st in
  let st := set_c_changes (changes_of x.1) st in
  let st := emit (Say (OutMessage Claude (score_of x.1) (summary_of x.1) (advice_of x.1))) st in
  let st := emit (Call Codex turn) st in
  let st := set_d_changes (changes_of x.2) st in
  emit (Say (OutMessage Codex (score_of x.2) (summary_of x.2) (advice_of x.2))) st.

Definition is_call (who : speaker) (ev : event) : bool :=
  match ev, who with
  | Call Claude _, Claude | Call Codex _, Codex => true
  | _, _ => false
  end.

(** The number of calls made to a backend. *)
Definition calls (who : speaker) (tr : list event) : nat :=
  length (filter (fun ev => is_call who ev = true) tr).

Definition is_list (v : json) : Prop := exists l, v = JArray l.

(** The line of the log for an exception caught by [apply_changes]. *)
Definition failure_line (e : exn) : fstring :=
  [Lit "⚠️"; Lit " "; Lit "ERREUR: "; Exc e].

(** The line of the log for what [apply_change] returned or raised. *)
Definition outcome_line (r : result (bool * fstring)) : fstring :=
  match r with
  | Ret (true, msg) => Lit "✅" :: Lit " " :: msg
  | Ret (false, msg) => Lit "⚠️" :: Lit " " :: msg
  | Raise e => failure_line e
  end.

(** A change that has reached the dispatch on its action: it names an
    action and a path, the guard has accepted the path, and the directories
    above the target exist or have been created. *)
Definition prepared (change : json) (fs : filesystem) (action pth : json)
    (target : path) (fs1 : filesystem) : Prop :=
  dict_get change "action" JNull = Ret action /\ truthy action = true /\
  dict_get change "path" JNull = Ret pth /\ truthy pth = true /\
  safe_relpath pth fs = (Ret target, fs) /\
  mkdir_parents (parent target) fs = (Ret tt, fs1).

(** The state after [k] completed turns, from turn [t] on. *)
Fixpoint replay (w : world) (k t : nat) (st : state) : state :=
  match k with
  | O => st
  | S k' =>
      match exchange w t with
      | Some x => replay w k' (S t) (record_turn t x st)
      | None => st
      end
  end.

(** The call made to a backend on a turn fails with [e]; for the second
    backend, the first one has answered and its fields have been read. *)
Definition fails (w : world) (turn : nat) (who : speaker) (e : exn) : Prop :=
  match who with
  | Claude => ask_claude w turn = Raise e
  | Codex =>
      exists m c,
        ask_claude w turn = Ret m /\ fields m = Ret c /\
        ask_codex w turn = Raise e
  end.

(** The workspace root and the directories above it are directories of the
    disk. *)
Definition rooted (fs : filesystem) : Prop :=
  forall q : path, q `prefix_of` WORKSPACE_ROOT -> q <> [] -> fs !! q = Some Dir.

(** What differs between two disks lies strictly below the workspace
    root: every other path holds the same in both. *)
Definition confined (fs fs' : filesystem) : Prop :=
  forall q : path,
    ~ (WORKSPACE_ROOT `prefix_of` q /\ q <> WORKSPACE_ROOT) ->
    fs' !! q = fs !! q.

(** The second disk is the first one with new directories, and nothing
    else. *)
Definition only_new_dirs (fs fs' : filesystem) : Prop :=
  forall q : path, fs' !! q = fs !! q \/ (fs !! q = None /\ fs' !! q = Some Dir).

(** A component that names an entry: not empty, not [.], not [..]. *)
Definition plain (c : string) : Prop := c <> "" /\ c <> "." /\ c <> "..".

(** Two disks have the same symbolic links. *)
Definition same_links (fs fs' : filesystem) : Prop :=
  forall (p : path) t, fs !! p = Some (Symlink t) <-> fs' !! p = Some (Symlink t).

(** No symbolic link at the workspace root or below it. *)
Definition no_links_under (fs : filesystem) : Prop :=
  forall (p : path) t, WORKSPACE_ROOT `prefix_of` p -> fs !! p <> Some (Symlink t).

(** The character occurs in the text. *)
Fixpoint occurs (c : ascii) (s : string) : bool :=
  match s with
  | EmptyString => false
  | String c' s' => Ascii.eqb c' c || occurs c s'
  end.

(** A text without a brace. *)
Definition brace_free (s : string) : Prop :=
  occurs "{" s = false /\ occurs "}" s = false.

(** ** Properties *)

(** *** Sequencing *)

Lemma bind_ret {A B} (m : io A) (k : A -> io B) fs a fs' :
  m fs = (Ret a, fs') -> (m ≫= k) fs = k a fs'.
Proof. intros H. unfold mbind, io_bind. rewrite H. reflexivity. Qed.

Lemma bind_raise {A B} (m : io A) (k : A -> io B) fs e fs' :
  m fs = (Raise e, fs') -> (m ≫= k) fs = (Raise e, fs').
Proof. intros H. unfold mbind, io_bind. rewrite H. reflexivity. Qed.

(** A call that returns, seen from its result alone. *)
Lemma io_run {A} (m : io A) fs a : (m fs).1 = Ret a -> m fs = (Ret a, (m fs).2).
Proof. destruct (m fs) as [r fs']. simpl. now intros ->. Qed.

Lemma bind_lift {A B} (r : result A) (k : A -> io B) fs a :
  r = Ret a -> (lift r ≫= k) fs = k a fs.
Proof. intros ->. reflexivity. Qed.

(** *** Text *)

Lemma append_assoc (a b c : string) : (a +:+ b) +:+ c = a +:+ b +:+ c.
Proof.
  induction a as [|x a IH]; [reflexivity|].
  change (String x ((a +:+ b) +:+ c) = String x (a +:+ b +:+ c)). now f_equal.
Qed.

Lemma append_length (a b : string) :
  String.length (a +:+ b) = (String.length a + String.length b)%nat.
Proof.
  induction a as [|x a IH]; [reflexivity|].
  change (S (String.length (a +:+ b)) = S (String.length a + String.length b)).
  now f_equal.
Qed.






(** *** Encoded text *)

Lemma utf8_run_app (a b : string) :
  forall st : utf8_state, utf8_run st (a +:+ b) = utf8_run (utf8_run st a) b.
Proof. induction a as [|c a IH]; intros st; [reflexivity|apply IH]. Qed.


Lemma utf8_valid_run (s : string) : utf8_valid s = true <-> utf8_run U0 s = U0.
Proof.
  unfold utf8_valid. split; [|now intros ->].
  now destruct (utf8_run U0 s).
Qed.

Lemma utf8_valid_app (a b : string) :
  utf8_valid a = true -> utf8_valid b = true -> utf8_valid (a +:+ b) = true.
Proof.
  rewrite !utf8_valid_run, utf8_run_app. now intros ->.
Qed.



Lemma utf8_step_ascii (st : utf8_state) (c : ascii) :
  byte_in 0 127 c = true ->
  utf8_step st c = match st with U0 => U0 | _ => UBad end.
Proof.
  intros H. destruct st; cbn [utf8_step]; try (now rewrite H); try reflexivity;
    destruct c as [[] [] [] [] [] [] [] []]; try reflexivity; discriminate H.
Qed.

(** Reading the line ends as line feeds leaves a text a text. *)
Lemma newlines_run (s : string) :
  forall (after_cr : bool) (st : utf8_state),
  (after_cr = true -> st = U0 \/ st = UBad) ->
  utf8_run st (newlines after_cr s) = utf8_run st s.
Proof.
  induction s as [|c s IH]; intros f st Hf; [reflexivity|].
  cbn [newlines]. destruct (Ascii.eqb_spec c "013") as [->|Hcr].
  - cbn [utf8_run]. rewrite !utf8_step_ascii by reflexivity.
    apply IH. intros _. destruct st; auto.
  - destruct (Ascii.eqb_spec c "010") as [->|Hlf].
    + destruct f.
      * cbn [utf8_run]. rewrite utf8_step_ascii by reflexivity.
        destruct (Hf eq_refl) as [-> | ->]; now apply IH.
      * cbn [utf8_run]. now apply IH.
    + cbn [utf8_run]. now apply IH.
Qed.

Lemma universal_newlines_valid (s : string) :
  utf8_valid s = true -> utf8_valid (universal_newlines s) = true.
Proof.
  rewrite !utf8_valid_run. unfold universal_newlines.
  now rewrite newlines_run.
Qed.

(** *** The file system calls *)

Lemma mkdir_from_keeps todo : forall done (fs fs1 : filesystem) r q x,
  mkdir_from done todo fs = (r, fs1) ->
  fs !! q = Some x -> fs1 !! q = Some x.
Proof.
  induction todo as [|c todo IH]; intros done fs fs1 r q x; simpl.
  - intros [= _ <-]. trivial.
  - destruct (fs !! (done ++ [c])) as [[t| |t]|] eqn:E.
    + intros [= _ <-]. trivial.
    + apply IH.
    + intros [= _ <-]. trivial.
    + intros H Hq. eapply IH; [exact H|].
      rewrite lookup_insert_ne; [exact Hq|]. intros Heq. rewrite <- Heq in Hq. congruence.
Qed.

(** Whatever [mkdir] changes is a new directory on the way to its target. *)
Lemma mkdir_from_new todo : forall done (fs fs1 : filesystem) r q,
  mkdir_from done todo fs = (r, fs1) ->
  fs1 !! q = fs !! q \/
  (fs !! q = None /\ fs1 !! q = Some Dir /\
   (length done < length q)%nat /\ q `prefix_of` done ++ todo).
Proof.
  induction todo as [|c todo IH]; intros done fs fs1 r q; simpl.
  - intros [= _ <-]. now left.
  - assert (Hstep : forall fs', fs' !! q = fs !! q ->
              mkdir_from (done ++ [c]) todo fs' = (r, fs1) ->
              fs1 !! q = fs !! q \/
              (fs !! q = None /\ fs1 !! q = Some Dir /\
               (length done < length q)%nat /\ q `prefix_of` done ++ c :: todo)).
    { intros fs' Hsame H. destruct (IH _ _ _ _ q H) as [Heq|(Hn & Hd & Hlen & Hpre)].
      - left. congruence.
      - right. rewrite <- Hsame. repeat split; trivial.
        + rewrite length_app in Hlen. simpl in Hlen. lia.
        + now rewrite <- app_assoc in Hpre. }
    destruct (fs !! (done ++ [c])) as [[t| |t]|] eqn:E.
    + intros [= _ <-]. now left.
    + apply Hstep. reflexivity.
    + intros [= _ <-]. now left.
    + intros H. destruct (decide (q = done ++ [c])) as [->|Hne].
      * right. repeat split; trivial.
        -- eapply mkdir_from_keeps; [exact H|]. apply lookup_insert_eq.
        -- rewrite length_app. simpl. lia.
        -- exists todo. now rewrite <- app_assoc.
      * apply (Hstep _ (lookup_insert_ne fs _ _ Dir (not_eq_sym Hne)) H).
Qed.

Lemma mkdir_from_dirs todo : forall done (fs fs1 : filesystem) pre,
  mkdir_from done todo fs = (Ret tt, fs1) ->
  pre `prefix_of` todo -> pre <> [] ->
  fs1 !! (done ++ pre) = Some Dir.
Proof.
  induction todo as [|c todo IH]; intros done fs fs1 pre; simpl.
  - intros _ Hpre Hne. apply prefix_nil_inv in Hpre. contradiction.
  - intros H Hpre Hne. destruct pre as [|c' pre]; [contradiction|].
    pose proof (prefix_cons_inv_1 _ _ _ _ Hpre) as ->.
    apply prefix_cons_inv_2 in Hpre.
    assert (Hhere : forall fs', fs' !! (done ++ [c]) = Some Dir ->
              mkdir_from (done ++ [c]) todo fs' = (Ret tt, fs1) ->
              fs1 !! (done ++ c :: pre) = Some Dir).
    { intros fs' Hd H'. destruct pre as [|c'' pre].
      - eapply mkdir_from_keeps; [exact H'|exact Hd].
      - replace (done ++ c :: c'' :: pre) with ((done ++ [c]) ++ c'' :: pre)
          by now rewrite <- app_assoc.
        eapply IH; [exact H'|exact Hpre|discriminate]. }
    destruct (fs !! (done ++ [c])) as [[t| |t]|] eqn:E; try discriminate.
    + exact (Hhere fs E H).
    + exact (Hhere _ (lookup_insert_eq fs _ Dir) H).
Qed.

Lemma mkdir_parents_is_dir (p : path) (fs fs1 : filesystem) :
  mkdir_parents p fs = (Ret tt, fs1) -> is_dir fs1 p = true.
Proof.
  intros H. unfold is_dir, kind. destruct p as [|c p]; [reflexivity|].
  unfold mkdir_parents in H.
  pose proof (mkdir_from_dirs _ [] fs fs1 (c :: p) H) as Hd. simpl in Hd.
  rewrite Hd; trivial. discriminate.
Qed.

Lemma length_parent (p : path) : length (parent p) = pred (length p).
Proof.
  unfold parent. induction p as [|a p IH]; [reflexivity|].
  destruct p as [|b p]; [reflexivity|].
  change (removelast (a :: b :: p)) with (a :: removelast (b :: p)).
  cbn [length]. cbn [length] in IH. rewrite IH. reflexivity.
Qed.

(** [mkdir] on the parent leaves the node of the target as it is. *)
Lemma mkdir_parent_frame (p : path) (fs fs1 : filesystem) r :
  mkdir_parents (parent p) fs = (r, fs1) -> kind fs1 p = kind fs p.
Proof.
  intros H. destruct p as [|c p]; [reflexivity|].
  unfold kind.
  destruct (mkdir_from_new _ _ _ _ _ (c :: p) H) as [Heq|(_ & _ & _ & Hpre)].
  - exact Heq.
  - rewrite app_nil_l in Hpre. apply prefix_length in Hpre.
    rewrite length_parent in Hpre. simpl in Hpre. lia.
Qed.

(** *** Resolved paths *)

Lemma prefix_snoc_cases (pre l : path) c :
  pre `prefix_of` l ++ [c] -> pre = l ++ [c] \/ pre `prefix_of` l.
Proof.
  intros [k Hk]. destruct k as [|x k _] using rev_ind.
  - left. now rewrite app_nil_r in Hk.
  - right. rewrite app_assoc in Hk. apply app_inj_tail in Hk as [-> _].
    now exists k.
Qed.

Lemma parent_prefix (p : path) : parent p `prefix_of` p.
Proof.
  unfold parent. destruct p as [|x p _] using rev_ind; [reflexivity|].
  rewrite removelast_last. now exists [x].
Qed.

Lemma linkfree_nil fs : linkfree fs [].
Proof. intros pre t Hpre Hne. apply prefix_nil_inv in Hpre. contradiction. Qed.

Lemma linkfree_prefix fs (p q : path) :
  q `prefix_of` p -> linkfree fs p -> linkfree fs q.
Proof. intros Hq Hp pre t Hpre. apply Hp. now transitivity q. Qed.

Lemma linkfree_snoc (fs : filesystem) (p : path) c :
  linkfree fs p -> (forall t, fs !! (p ++ [c]) <> Some (Symlink t)) ->
  linkfree fs (p ++ [c]).
Proof.
  intros Hp Hc pre t Hpre Hne.
  destruct (prefix_snoc_cases _ _ _ Hpre) as [->|Hpre']; [apply Hc|].
  now apply Hp.
Qed.

Lemma walk_cons fs k (resolved : path) c rest :
  walk fs k resolved (c :: rest) =
  if String.eqb c "" || String.eqb c "." then walk fs k resolved rest
  else if String.eqb c ".." then walk fs k (parent resolved) rest
  else
    match fs !! (resolved ++ [c]) with
    | Some (Symlink target) =>
        match k with
        | O => Raise (RuntimeError "Symlink loop")
        | S k' =>
            walk fs k' (if is_absolute target then [] else resolved)
                 (split_slash target ++ rest)
        end
    | _ => walk fs k (resolved ++ [c]) rest
    end.
Proof. destruct k; reflexivity. Qed.

Lemma walk_nil fs k (resolved : path) : walk fs k resolved [] = Ret resolved.
Proof. destruct k; reflexivity. Qed.

(** The path a resolution returns goes through no link. *)
Lemma walk_linkfree (fs : filesystem) k : forall rest (resolved q : path),
  linkfree fs resolved -> walk fs k resolved rest = Ret q -> linkfree fs q.
Proof.
  induction k as [|k IHk];
    (induction rest as [|c rest IH]; intros resolved q Hl;
     [rewrite walk_nil; now intros [= <-]|]);
    rewrite walk_cons;
    (destruct (_ || _); [now apply IH|]);
    (destruct (String.eqb c "..");
     [apply IH; exact (linkfree_prefix _ _ _ (parent_prefix _) Hl)|]);
    destruct (fs !! (resolved ++ [c])) as [[t| |t]|] eqn:E;
    try (apply IH; apply linkfree_snoc; [exact Hl|intros t'; congruence]).
  - discriminate.
  - apply IHk. destruct (is_absolute t); [apply linkfree_nil|exact Hl].
Qed.

Lemma resolve_linkfree (fs : filesystem) (base : path) s (q : path) :
  resolve fs base s = Ret q -> linkfree fs q.
Proof.
  unfold resolve. destruct (has_nul s); [discriminate|].
  apply walk_linkfree, linkfree_nil.
Qed.

(** *** One change *)

Lemma dict_get_dict d k dflt v :
  dict_get d k dflt = Ret v -> exists kvs, d = JObject kvs.
Proof. destruct d; try discriminate. eauto. Qed.

Lemma dict_get_total kvs k dflt :
  exists v, dict_get (JObject kvs) k dflt = Ret v.
Proof. simpl. eauto. Qed.

Lemma safe_relpath_pure p fs r fs' : safe_relpath p fs = (r, fs') -> fs' = fs.
Proof.
  unfold safe_relpath. destruct p; try (intros [= _ <-]; reflexivity).
  destruct (resolve fs WORKSPACE_ROOT s); [|intros [= _ <-]; reflexivity].
  destruct (_ && _); intros [= _ <-]; reflexivity.
Qed.

Lemma safe_relpath_run p fs target :
  (safe_relpath p fs).1 = Ret target -> safe_relpath p fs = (Ret target, fs).
Proof.
  intros H. destruct (safe_relpath p fs) as [r fs'] eqn:E.
  apply safe_relpath_pure in E as ->. simpl in H. now subst.
Qed.

(** The target the guard returns is not a link, so that the calls on it
    never meet one. *)
Lemma safe_relpath_no_link (p : json) (fs : filesystem) (target : path) t :
  safe_relpath p fs = (Ret target, fs) -> kind fs target <> Some (Symlink t).
Proof.
  unfold safe_relpath. destruct p; try discriminate.
  destruct (resolve fs WORKSPACE_ROOT s) as [q|] eqn:E; [|discriminate].
  destruct (_ && _); [discriminate|]. intros [= ->].
  unfold kind. destruct target as [|c target]; [discriminate|].
  apply (resolve_linkfree _ _ _ _ E); [reflexivity|discriminate].
Qed.

Ltac run_bind :=
  match goal with
  | H : ?r = Ret ?a |- context [ (lift ?r ≫= ?k) ?fs ] =>
      rewrite (bind_lift r k fs a H)
  | H : ?m ?fs = (Ret ?a, ?fs') |- context [ (?m ≫= ?k) ?fs ] =>
      rewrite (bind_ret m k fs a fs' H)
  end.

(** Up to the creation of the parent directories, every complete change whose
    path is accepted runs the same way. *)
Lemma apply_change_prelude (change action pth content : json) (target : path)
    (fs fs1 : filesystem) :
  dict_get change "action" JNull = Ret action -> truthy action = true ->
  dict_get change "path" JNull = Ret pth -> truthy pth = true ->
  dict_get change "content" (JString "") = Ret content ->
  safe_relpath pth fs = (Ret target, fs) ->
  mkdir_parents (parent target) fs = (Ret tt, fs1) ->
  apply_change change fs =
  (if is_str action "replace" then
      data ← lift (as_str content "data must be str");
      write_text target data;;
      pure (true, [Lit "[replace] "; Val pth])
    else if is_str action "append" then
      prev ← read_or_empty target;
      data ← lift (as_str content "can only concatenate str to str");
      write_text target (prev +:+ data);;
      pure (true, [Lit "[append] "; Val pth])
    else if is_str action "patch_block" then
      find ← lift (dict_get change "find" JNull);
      regex ← lift (dict_get change "regex" (JBool false));
      if negb (truthy find)
      then pure (false, [Lit "patch_block sans 'find'."])
      else
        text ← read_or_empty target;
        if truthy regex then
          match re_subn find content text with
          | Raise (ReError msg) =>
              pure (false, [Lit "regex invalide: "; Exc (ReError msg)])
          | Raise e => raise e
          | Ret (new_text, n) =>
              if (n =? 0)%nat
              then pure (false, [Lit "rien trouvé pour regex dans "; Val pth])
              else
                write_text target new_text;;
                pure (true, [Lit "[patch_block/regex x"; Num n; Lit "] "; Val pth])
          end
        else
          pat ← lift (as_str find "'in <string>' requires string as left operand");
          if negb (contains pat text)
          then pure (false, [Lit "bloc 'find' introuvable dans "; Val pth])
          else
            data ← lift (as_str content "replace() argument 2 must be str");
            write_text target (replace_first pat data text);;
            pure (true, [Lit "[patch_block] "; Val pth])
    else pure (false, [Lit "action inconnue: "; Val action])) fs1.
Proof.
  intros Ha Hta Hp Htp Hc Hs Hm. unfold apply_change.
  do 3 run_bind. rewrite Hta, Htp. cbn [negb orb].
  run_bind. run_bind. reflexivity.
Qed.

(** C10. A change whose path the guard accepts has the parent directories of
    its target created before anything else of it is looked at: with an
    unknown action, or with the action patch_block and no find, the call
    returns a failure and the directories are on the disk all the same. *)
Theorem apply_change_mkdir_before_validation
    (change action pth : json) (target : path) (fs fs1 : filesystem) :
  dict_get change "action" JNull = Ret action -> truthy action = true ->
  dict_get change "path" JNull = Ret pth -> truthy pth = true ->
  safe_relpath pth fs = (Ret target, fs) ->
  mkdir_parents (parent target) fs = (Ret tt, fs1) ->
  is_dir fs1 (parent target) = true /\
  (is_str action "replace" = false -> is_str action "append" = false ->
   is_str action "patch_block" = false ->
   apply_change change fs =
     (Ret (false, [Lit "action inconnue: "; Val action]), fs1)) /\
  (is_str action "patch_block" = true ->
   forall find, dict_get change "find" JNull = Ret find -> truthy find = false ->
   apply_change change fs = (Ret (false, [Lit "patch_block sans 'find'."]), fs1)).
Proof.
  intros Ha Hta Hp Htp Hs Hm.
  destruct (dict_get_dict _ _ _ _ Ha) as [kvs ->].
  destruct (dict_get_total kvs "content" (JString "")) as [content Hc].
  pose proof (apply_change_prelude _ _ _ _ _ _ _ Ha Hta Hp Htp Hc Hs Hm) as E.
  split; [exact (mkdir_parents_is_dir _ _ _ Hm)|]. split.
  - intros H1 H2 H3. rewrite E, H1, H2, H3. reflexivity.
  - intros H3 find Hf Htf. rewrite E.
    assert (H1 : is_str action "replace" = false).
    { destruct action; try reflexivity. simpl in *.
      apply String.eqb_eq in H3. subst. reflexivity. }
    assert (H2 : is_str action "append" = false).
    { destruct action; try reflexivity. simpl in *.
      apply String.eqb_eq in H3. subst. reflexivity. }
    rewrite H1, H2, H3. run_bind.
    destruct (dict_get_total kvs "regex" (JBool false)) as [regex Hr].
    run_bind. rewrite Htf. reflexivity.
Qed.

(** *** The path guard *)

(** C2. When the resolved path is neither the workspace root nor below it,
    a change that names an action fails with the error of the guard, raised
    by [apply_change] and logged as a failure by [apply_changes], and the
    disk is left as it was. *)
Theorem path_escape_rejected
    (change action : json) (s : string) (p : path) (fs : filesystem) :
  dict_get change "action" JNull = Ret action -> truthy action = true ->
  dict_get change "path" JNull = Ret (JString s) -> s <> "" ->
  resolve fs WORKSPACE_ROOT s = Ret p ->
  p <> WORKSPACE_ROOT -> ~ WORKSPACE_ROOT `prefix_of` p ->
  let err := ValueError ("Chemin hors workspace_root: " +:+ path_str p) in
  apply_change change fs = (Raise err, fs) /\
  apply_changes (JArray [change]) fs = (Ret [failure_line err], fs).
Proof.
  intros Ha Hta Hp Hs Hr Hne Hpre err.
  assert (Hguard : safe_relpath (JString s) fs = (Raise err, fs)).
  { unfold safe_relpath. rewrite Hr. unfold in_parents.
    rewrite (bool_decide_eq_false_2 _ Hpre), (bool_decide_eq_false_2 _ Hne).
    reflexivity. }
  assert (Hone : apply_change change fs = (Raise err, fs)).
  { destruct (dict_get_dict _ _ _ _ Ha) as [kvs ->].
    destruct (dict_get_total kvs "content" (JString "")) as [content Hc].
    unfold apply_change. do 3 run_bind. rewrite Hta.
    assert (Hts : truthy (JString s) = true).
    { simpl. destruct (String.eqb_spec s ""); [contradiction|reflexivity]. }
    rewrite Hts. cbn [negb orb].
    now rewrite (bind_raise _ _ _ _ _ Hguard). }
  split; [exact Hone|].
  unfold apply_changes, py_or. cbn [truthy py_iter].
  rewrite (bind_lift _ _ _ _ eq_refl). cbn [attempts].
  unfold attempt at 1.
  unfold mbind at 1, io_bind at 1. rewrite Hone. reflexivity.
Qed.

(** *** The batch *)

Lemma attempt_total ch fs : exists line fs', attempt ch fs = (Ret line, fs').
Proof.
  unfold attempt. destruct (apply_change ch fs) as [[[ok msg]|e] fs']; eauto.
Qed.

Lemma attempts_total chs : forall fs,
  exists logs fs', attempts chs fs = (Ret logs, fs') /\ length logs = length chs.
Proof.
  induction chs as [|ch chs IH]; intros fs.
  - exists [], fs. split; reflexivity.
  - destruct (attempt_total ch fs) as (line & fs1 & H1).
    destruct (IH fs1) as (logs & fs2 & H2 & Hlen).
    exists (line :: logs), fs2. split; [|simpl; now rewrite Hlen].
    cbn [attempts]. rewrite (bind_ret _ _ _ _ _ H1), (bind_ret _ _ _ _ _ H2).
    reflexivity.
Qed.

Lemma apply_changes_list chs fs : apply_changes (JArray chs) fs = attempts chs fs.
Proof.
  unfold apply_changes, py_or. destruct chs; reflexivity.
Qed.

(** A change without an action or without a path is refused before the
    disk is touched. *)
Lemma apply_change_incomplete kvs fs :
  truthy (default JNull (assoc "action" kvs)) = false \/
  truthy (default JNull (assoc "path" kvs)) = false ->
  apply_change (JObject kvs) fs =
    (Ret (false, [Lit "change incomplet (action/path manquant)."]), fs).
Proof.
  intros H. unfold apply_change. cbn [dict_get].
  do 3 rewrite (bind_lift _ _ _ _ eq_refl).
  destruct H as [-> | ->]; [reflexivity|].
  cbn [negb]. now rewrite orb_true_r.
Qed.

(** *** Patching a block *)

Lemma read_or_empty_text (target : path) (fs : filesystem) text :
  text_read fs target = Some text -> read_or_empty target fs = (Ret text, fs).
Proof.
  unfold text_read, read_or_empty, get_fs, exists_, read_text, mbind, io_bind, pure.
  destruct (kind fs target) as [[t| |t]|] eqn:E; try discriminate.
  - rewrite E. destruct (utf8_valid t); [|discriminate]. now intros [= <-].
  - now intros [= <-].
Qed.

Lemma text_read_valid (fs : filesystem) (target : path) (text : string) :
  text_read fs target = Some text -> utf8_valid text = true.
Proof.
  unfold text_read. destruct (kind fs target) as [[t| |t]|]; try discriminate.
  - destruct (utf8_valid t) eqn:E; [|discriminate]. intros [= <-].
    now apply universal_newlines_valid.
  - now intros [= <-].
Qed.

Lemma text_read_file_text (fs : filesystem) (target : path) (text : string) :
  text_read fs target = Some text -> exists old, file_text fs target = Some old.
Proof.
  unfold text_read, file_text.
  destruct (kind fs target) as [[t| |t]|]; try discriminate; eauto.
Qed.

Lemma text_read_after_mkdir (target : path) (fs fs1 : filesystem) r :
  mkdir_parents (parent target) fs = (r, fs1) ->
  text_read fs1 target = text_read fs target.
Proof.
  intros H. unfold text_read. now rewrite (mkdir_parent_frame _ _ _ _ H).
Qed.

Lemma file_text_after_mkdir (target : path) (fs fs1 : filesystem) r :
  mkdir_parents (parent target) fs = (r, fs1) ->
  file_text fs1 target = file_text fs target.
Proof.
  intros H. unfold file_text. now rewrite (mkdir_parent_frame _ _ _ _ H).
Qed.

Lemma write_text_file (target : path) (fs : filesystem) old data :
  kind fs target = Some (File old) -> utf8_valid data = true ->
  write_text target data fs = (Ret tt, <[target := File data]> fs).
Proof. unfold write_text, open_and_write. now intros -> ->. Qed.

Lemma write_text_after_mkdir (target : path) (fs fs1 : filesystem) data old :
  mkdir_parents (parent target) fs = (Ret tt, fs1) ->
  file_text fs target = Some old ->
  utf8_valid data = true ->
  write_text target data fs1 = (Ret tt, <[target := File data]> fs1).
Proof.
  intros Hm Ht Hv. unfold write_text, open_and_write. rewrite Hv.
  rewrite (mkdir_parent_frame _ _ _ _ Hm).
  pose proof (mkdir_parents_is_dir _ _ _ Hm) as Hd. unfold is_dir in Hd.
  unfold file_text in Ht.
  destruct (kind fs target) as [[t| |t]|]; try discriminate; [reflexivity|].
  destruct (kind fs1 (parent target)) as [[t| |t]|]; try discriminate.
  reflexivity.
Qed.

(** The same write with a text that cannot be encoded: the file is opened,
    which empties or creates it, and the write raises. *)
Lemma write_text_unencodable (target : path) (fs fs1 : filesystem) data old :
  mkdir_parents (parent target) fs = (Ret tt, fs1) ->
  file_text fs target = Some old ->
  utf8_valid data = false ->
  write_text target data fs1
  = (Raise UnicodeEncodeError, <[target := File ""]> fs1).
Proof.
  intros Hm Ht Hv. unfold write_text, open_and_write. rewrite Hv.
  rewrite (mkdir_parent_frame _ _ _ _ Hm).
  pose proof (mkdir_parents_is_dir _ _ _ Hm) as Hd. unfold is_dir in Hd.
  unfold file_text in Ht.
  destruct (kind fs target) as [[t| |t]|]; try discriminate; [reflexivity|].
  destruct (kind fs1 (parent target)) as [[t| |t]|]; try discriminate.
  reflexivity.
Qed.


(** *** The trace of a run *)

Lemma calls_app who (tr1 tr2 : list event) :
  calls who (tr1 ++ tr2) = (calls who tr1 + calls who tr2)%nat.
Proof. unfold calls. now rewrite filter_app, length_app. Qed.

Lemma calls_emit who ev st :
  calls who (trace (emit ev st)) =
  (calls who (trace st) + if is_call who ev then 1 else 0)%nat.
Proof.
  cbn [emit trace]. rewrite calls_app. f_equal.
  unfold calls. rewrite filter_cons, filter_nil.
  destruct (is_call who ev); reflexivity.
Qed.

Lemma elem_of_emit ev ev' st :
  ev ∈ trace (emit ev' st) <-> ev ∈ trace st \/ ev = ev'.
Proof. cbn [emit trace]. rewrite elem_of_app, list_elem_of_singleton. tauto. Qed.

Lemma calls_record_turn who t x st :
  calls who (trace (record_turn t x st)) = S (calls who (trace st)).
Proof.
  unfold record_turn. rewrite !calls_emit.
  change (trace (set_d_changes ?v ?s)) with (trace s).
  rewrite !calls_emit.
  change (trace (set_c_changes ?v ?s)) with (trace s).
  rewrite !calls_emit. destruct who; simpl; lia.
Qed.

Lemma disk_record_turn t x st : disk (record_turn t x st) = disk st.
Proof. reflexivity. Qed.

Lemma elem_of_record_turn ev t x st :
  ev ∈ trace st -> ev ∈ trace (record_turn t x st).
Proof.
  intros H. unfold record_turn. cbn [emit trace set_c_changes set_d_changes].
  rewrite !elem_of_app. tauto.
Qed.

(** *** The loop *)

(** One completed turn: the commit when both scores are 5, the next turn
    otherwise. *)
Lemma loop_turn w n t st x :
  exchange w t = Some x ->
  loop w (S n) t st =
  if double5 x then
    let st' := emit (Say OutDouble5) (record_turn t x st) in
    match apply_changes (py_or (changes_of x.2) (changes_of x.1)) (disk st') with
    | (Ret logs, fs') =>
        (Committed,
         emit (Say OutApplied5) (emit (Say (OutLogs logs)) (set_disk fs' st')))
    | (Raise e, fs') => (Crashed e, set_disk fs' st')
    end
  else loop w n (S t) (record_turn t x st).
Proof.
  unfold exchange. intros H. cbn [loop].
  destruct (ask_claude w t) as [cj|]; [|discriminate].
  destruct (fields cj) as [[[[cs csum] cadv] cchg]|]; [|discriminate].
  destruct (ask_codex w t) as [dj|]; [|discriminate].
  destruct (fields dj) as [[[[ds dsum] dadv] dchg]|]; [|discriminate].
  injection H as <-. reflexivity.
Qed.

Lemma loop_quiet w k : forall n t st,
  (forall i, (i < k)%nat -> quiet w (t + i)) ->
  loop w (k + n) t st = loop w n (t + k) (replay w k t st).
Proof.
  induction k as [|k IH]; intros n t st Hq.
  - simpl. now rewrite Nat.add_0_r.
  - destruct (Hq 0%nat ltac:(lia)) as (x & Hx & Hd). rewrite Nat.add_0_r in Hx.
    change (S k + n)%nat with (S (k + n)).
    rewrite (loop_turn _ _ _ _ _ Hx), Hd. cbn [replay]. rewrite Hx.
    rewrite IH; [f_equal; lia|].
    intros i Hi. replace (S t + i)%nat with (t + S i)%nat by lia.
    apply Hq. lia.
Qed.

Lemma replay_disk w k : forall t st, disk (replay w k t st) = disk st.
Proof.
  induction k as [|k IH]; intros t st; [reflexivity|].
  cbn [replay]. destruct (exchange w t); [|reflexivity].
  now rewrite IH.
Qed.

Lemma replay_calls w who k : forall t st,
  (forall i, (i < k)%nat -> quiet w (t + i)) ->
  calls who (trace (replay w k t st)) = (calls who (trace st) + k)%nat.
Proof.
  induction k as [|k IH]; intros t st Hq; [simpl; lia|].
  destruct (Hq 0%nat ltac:(lia)) as (x & Hx & _). rewrite Nat.add_0_r in Hx.
  cbn [replay]. rewrite Hx, IH, calls_record_turn; [lia|].
  intros i Hi. replace (S t + i)%nat with (t + S i)%nat by lia.
  apply Hq. lia.
Qed.

Lemma replay_elem_of w k ev : forall t st,
  ev ∈ trace st -> ev ∈ trace (replay w k t st).
Proof.
  induction k as [|k IH]; intros t st H; [exact H|].
  cbn [replay]. destruct (exchange w t); [|exact H].
  apply IH, elem_of_record_turn, H.
Qed.

(** After at least one completed turn the two variables hold the changes
    of the last one. *)
Lemma replay_last w k : forall t st x,
  (forall i, (i < S k)%nat -> quiet w (t + i)) ->
  exchange w (t + k) = Some x ->
  c_changes (replay w (S k) t st) = Some (changes_of x.1) /\
  d_changes (replay w (S k) t st) = Some (changes_of x.2).
Proof.
  induction k as [|k IH]; intros t st x Hq Hx.
  - rewrite Nat.add_0_r in Hx. cbn [replay]. rewrite Hx. split; reflexivity.
  - destruct (Hq 0%nat ltac:(lia)) as (x0 & Hx0 & _). rewrite Nat.add_0_r in Hx0.
    change (replay w (S (S k)) t st) with
      (match exchange w t with
       | Some x => replay w (S k) (S t) (record_turn t x st)
       | None => st
       end).
    rewrite Hx0. apply IH.
    + intros i Hi. replace (S t + i)%nat with (t + S i)%nat by lia.
      apply Hq. lia.
    + now replace (S t + k)%nat with (t + S k)%nat by lia.
Qed.

(** *** After the loop *)

Ltac trace_fact :=
  first
    [ reflexivity
    | discriminate
    | contradiction
    | congruence
    | intros who; rewrite ?calls_emit; cbn [set_disk trace];
      rewrite ?calls_emit; simpl; lia
    | intros; cbn [emit set_disk trace];
      rewrite ?elem_of_app, ?list_elem_of_singleton; tauto
    | intros; contradiction
    | intros; congruence ].

(** What [finish] does, whatever the state it starts from: it makes no
    call, writes nothing without the answer [o], and offers the changes of
    the second backend, or else of the first. *)
Lemma finish_spec w st :
  exists ending st',
    finish w st = (ending, st') /\
    (forall who, calls who (trace st') = calls who (trace st)) /\
    (forall ev, ev ∈ trace st -> ev ∈ trace st') /\
    Say OutLimit ∈ trace st' /\
    (read_answer w <> "o" -> disk st' = disk st) /\
    (d_changes st = None -> disk st' = disk st) /\
    (forall c d, c_changes st = Some c -> d_changes st = Some d ->
       let candidate := py_or d c in
       (truthy candidate = true ->
          Say (OutPreview candidate) ∈ trace st' /\ Prompt ∈ trace st') /\
       (truthy candidate = false -> ending = Returned /\ disk st' = disk st) /\
       (read_answer w <> "o" -> ending = Returned) /\
       (truthy candidate = true -> read_answer w = "o" ->
          disk st' = (apply_changes candidate (disk st)).2)).
Proof.
  unfold finish. change (truthy last_codex) with false. cbv iota zeta.
  change (d_changes (emit (Say OutLimit) st)) with (d_changes st).
  change (c_changes (emit (Say OutLimit) st)) with (c_changes st).
  destruct (d_changes st) as [d|] eqn:Ed; cbn [read_local].
  2:{ eexists _, _. split; [reflexivity|]. repeat apply conj; trace_fact. }
  destruct (c_changes st) as [c|] eqn:Ec; cbn [read_local].
  2:{ destruct (truthy d) eqn:Td; cbn [negb].
      2:{ eexists _, _. split; [reflexivity|]. repeat apply conj; trace_fact. }
      rewrite Td.
      destruct (String.eqb_spec (read_answer w) "o") as [Ho|Ho].
      - destruct (apply_changes d _) as [[logs|e] fs'] eqn:Ea;
          (eexists _, _; split; [reflexivity|]; repeat apply conj; trace_fact).
      - eexists _, _. split; [reflexivity|]. repeat apply conj; trace_fact. }
  assert (Hcand : (if negb (truthy d) then Ret c else Ret d) = Ret (py_or d c)).
  { unfold py_or. destruct (truthy d); reflexivity. }
  rewrite Hcand. set (candidate := py_or d c).
  destruct (truthy candidate) eqn:Tc.
  - destruct (String.eqb_spec (read_answer w) "o") as [Ho|Ho].
    + destruct (apply_changes candidate _) as [[logs|e] fs'] eqn:Ea;
        cbn [emit disk] in Ea;
        (eexists _, _; split; [reflexivity|]; repeat apply conj; try trace_fact;
         intros c0 d0 [= <-] [= <-]; fold candidate; repeat apply conj;
         try trace_fact; intros _ _; cbn [emit set_disk disk]; now rewrite Ea).
    + eexists _, _. split; [reflexivity|]. repeat apply conj; try trace_fact.
      intros c0 d0 [= <-] [= <-]. fold candidate. repeat apply conj; trace_fact.
  - eexists _, _. split; [reflexivity|]. repeat apply conj; try trace_fact.
    intros c0 d0 [= <-] [= <-]. fold candidate. repeat apply conj; trace_fact.
Qed.

(** *** Writing a file *)

(** A replace leaves the target with the content, whatever it held. *)
Lemma replace_writes
    (change pth : json) (content old : string) (target : path)
    (fs fs1 : filesystem) :
  dict_get change "action" JNull = Ret (JString "replace") ->
  dict_get change "path" JNull = Ret pth -> truthy pth = true ->
  dict_get change "content" (JString "") = Ret (JString content) ->
  safe_relpath pth fs = (Ret target, fs) ->
  mkdir_parents (parent target) fs = (Ret tt, fs1) ->
  file_text fs target = Some old ->
  utf8_valid content = true ->
  apply_change change fs =
    (Ret (true, [Lit "[replace] "; Val pth]), <[target := File content]> fs1).
Proof.
  intros Ha Hp Htp Hc Hs Hm Ht Hv.
  rewrite (apply_change_prelude _ _ _ _ _ _ _ Ha eq_refl Hp Htp Hc Hs Hm).
  change (is_str (JString "replace") "replace") with true. cbv iota.
  cbn [as_str]. rewrite (bind_lift _ _ _ _ eq_refl).
  rewrite (bind_ret _ _ _ _ _ (write_text_after_mkdir _ _ _ content _ Hm Ht Hv)).
  reflexivity.
Qed.

(** A replace with a content that cannot be encoded empties the target
    and raises. *)
Lemma replace_unencodable
    (change pth : json) (content old : string) (target : path)
    (fs fs1 : filesystem) :
  dict_get change "action" JNull = Ret (JString "replace") ->
  dict_get change "path" JNull = Ret pth -> truthy pth = true ->
  dict_get change "content" (JString "") = Ret (JString content) ->
  safe_relpath pth fs = (Ret target, fs) ->
  mkdir_parents (parent target) fs = (Ret tt, fs1) ->
  file_text fs target = Some old ->
  utf8_valid content = false ->
  apply_change change fs =
    (Raise UnicodeEncodeError, <[target := File ""]> fs1).
Proof.
  intros Ha Hp Htp Hc Hs Hm Ht Hv.
  rewrite (apply_change_prelude _ _ _ _ _ _ _ Ha eq_refl Hp Htp Hc Hs Hm).
  change (is_str (JString "replace") "replace") with true. cbv iota.
  cbn [as_str]. rewrite (bind_lift _ _ _ _ eq_refl).
  now rewrite (bind_raise _ _ _ _ _ (write_text_unencodable _ _ _ content _ Hm Ht Hv)).
Qed.

(** *** The whole run *)

Lemma main_enters w fs :
  exists_ fs WORKSPACE_ROOT = true -> user_question w <> "" ->
  main w fs =
  match loop w TURN_LIMIT 0 (emit (Say OutStart) (initial fs)) with
  | (Committed, st') => (Returned, st')
  | (Crashed e, st') => (Uncaught e, st')
  | (LoopEnd, st') => finish w st'
  end.
Proof.
  intros Hr Hq. unfold main. rewrite Hr. cbn [negb truthy].
  destruct (String.eqb_spec (user_question w) ""); [contradiction|reflexivity].
Qed.

(** C3. When both scores are 5 on a turn that is reached, the run ends on
    that turn with the commit: the changes of the second backend are
    applied when their list is not empty, those of the first otherwise, and
    each backend has been called once for each turn up to that one. When the
    changes applied are one replace of notes.txt by hello, the file holds
    hello afterwards. *)
Theorem double5_commits (w : world) (fs : filesystem) (k : nat)
    (x : (Z * json * json * json) * (Z * json * json * json)) :
  exists_ fs WORKSPACE_ROOT = true -> user_question w <> "" ->
  (k < TURN_LIMIT)%nat ->
  (forall i, (i < k)%nat -> quiet w i) ->
  exchange w k = Some x ->
  score_of x.1 = 5 -> score_of x.2 = 5 ->
  is_list (changes_of x.1) -> is_list (changes_of x.2) ->
  let chosen :=
    if truthy (changes_of x.2) then changes_of x.2 else changes_of x.1 in
  exists logs st,
    main w fs = (Returned, st) /\
    apply_changes chosen fs = (Ret logs, disk st) /\
    calls Claude (trace st) = S k /\ calls Codex (trace st) = S k /\
    (exists tr,
       trace st = tr ++ [Say OutDouble5; Say (OutLogs logs); Say OutApplied5]) /\
    (forall (target : path) (fs1 : filesystem) old,
       chosen = JArray [Demo.op "replace" "notes.txt" "hello"] ->
       safe_relpath (JString "notes.txt") fs = (Ret target, fs) ->
       mkdir_parents (parent target) fs = (Ret tt, fs1) ->
       file_text fs target = Some old ->
       disk st !! target = Some (File "hello")).
Proof.
  intros Hr Hq Hk Hquiet Hx Hc Hd Lc Ld chosen.
  assert (Hl : is_list chosen).
  { unfold chosen. destruct (truthy (changes_of x.2)); assumption. }
  destruct Hl as [chs Hchs].
  destruct (attempts_total chs fs) as (logs & fs' & Ha & _).
  rewrite <- apply_changes_list, <- Hchs in Ha.
  rewrite (main_enters _ _ Hr Hq).
  replace TURN_LIMIT with (k + S (TURN_LIMIT - S k))%nat by lia.
  rewrite loop_quiet by (intros i Hi; now apply Hquiet).
  rewrite (loop_turn _ _ _ _ _ Hx). unfold double5. rewrite Hc, Hd.
  cbn [Z.eqb Pos.eqb andb]. cbv zeta.
  change (disk (emit ?ev ?s)) with (disk s).
  rewrite disk_record_turn, replay_disk.
  change (disk (emit (Say OutStart) (initial fs))) with fs.
  change (py_or (changes_of x.2) (changes_of x.1)) with chosen.
  rewrite Ha. exists logs. eexists. split; [reflexivity|].
  repeat apply conj.
  - reflexivity.
  - rewrite !calls_emit. cbn [set_disk trace]. rewrite calls_emit.
    rewrite calls_record_turn, replay_calls by (intros i Hi; now apply Hquiet).
    simpl. lia.
  - rewrite !calls_emit. cbn [set_disk trace]. rewrite calls_emit.
    rewrite calls_record_turn, replay_calls by (intros i Hi; now apply Hquiet).
    simpl. lia.
  - exists (trace (record_turn k x
                      (replay w k 0 (emit (Say OutStart) (initial fs))))).
    cbn [emit set_disk trace]. rewrite <- !app_assoc. reflexivity.
  - intros target fs1 old Hch Hs Hm Ht.
    cbn [emit set_disk disk].
    rewrite Hch, apply_changes_list in Ha. cbn [attempts] in Ha.
    unfold attempt at 1 in Ha. unfold mbind at 1, io_bind at 1 in Ha.
    rewrite (replace_writes (Demo.op "replace" "notes.txt" "hello")
               (JString "notes.txt") "hello" old target fs fs1
               eq_refl eq_refl eq_refl eq_refl Hs Hm Ht eq_refl) in Ha.
    injection Ha as _ <-. apply lookup_insert_eq.
Qed.

(** C8. When every turn up to the bound is completed without a double 5,
    each backend has been called once for each of the turns, the run goes
    through the end without agreement, the changes offered are those of the
    second backend on the last turn, or those of the first when it gave
    none, and the disk is written only after the answer [o]. *)
Theorem exhausted_needs_confirmation (w : world) (fs : filesystem)
    (x : (Z * json * json * json) * (Z * json * json * json)) :
  exists_ fs WORKSPACE_ROOT = true -> user_question w <> "" ->
  (forall i, (i < TURN_LIMIT)%nat -> quiet w i) ->
  exchange w (TURN_LIMIT - 1) = Some x ->
  let candidate :=
    if truthy (changes_of x.2) then changes_of x.2 else changes_of x.1 in
  exists ending st,
    main w fs = (ending, st) /\
    calls Claude (trace st) = TURN_LIMIT /\
    calls Codex (trace st) = TURN_LIMIT /\
    Say OutLimit ∈ trace st /\
    (truthy candidate = true ->
       Say (OutPreview candidate) ∈ trace st /\ Prompt ∈ trace st) /\
    (read_answer w <> "o" -> ending = Returned /\ disk st = fs) /\
    (truthy candidate = false -> ending = Returned /\ disk st = fs) /\
    (truthy candidate = true -> read_answer w = "o" ->
       disk st = (apply_changes candidate fs).2).
Proof.
  intros Hr Hq Hquiet Hx candidate.
  rewrite (main_enters _ _ Hr Hq).
  set (st0 := emit (Say OutStart) (initial fs)).
  pose proof (loop_quiet w TURN_LIMIT 0 0 st0) as HL.
  rewrite Nat.add_0_r in HL. rewrite HL by (intros i Hi; now apply Hquiet).
  cbn [loop Nat.add].
  destruct (replay_last w (TURN_LIMIT - 1) 0 st0 x) as [Ec Ed].
  { intros i Hi. apply Hquiet. unfold TURN_LIMIT in *. lia. }
  { exact Hx. }
  change (S (TURN_LIMIT - 1)) with TURN_LIMIT in Ec, Ed.
  destruct (finish_spec w (replay w TURN_LIMIT 0 st0))
    as (ending & st & Hf & Hcalls & _ & Hlimit & Hno & _ & Hcand).
  specialize (Hcand _ _ Ec Ed). cbv zeta in Hcand.
  change (py_or (changes_of x.2) (changes_of x.1)) with candidate in Hcand.
  destruct Hcand as (Hshow & Hnone & Hret & Happly).
  rewrite replay_disk in Hno, Hnone, Happly.
  change (disk st0) with fs in Hno, Hnone, Happly.
  exists ending, st. split; [exact Hf|].
  rewrite !Hcalls, !replay_calls by (intros i Hi; now apply Hquiet).
  repeat apply conj; trivial.
  intros Hn. split; [now apply Hret|now apply Hno].
Qed.

(** C4, as the program has it. When a call fails on a turn that is reached,
    the loop is left at once: the error is printed, no other call is made,
    and the disk is not written unless the final prompt is answered [o];
    a failure of the first backend on the first turn comes before any call
    to the second and leaves the disk as it was. *)
Theorem failed_call_stops_loop (w : world) (fs : filesystem) (k : nat)
    (who : speaker) (e : exn) :
  exists_ fs WORKSPACE_ROOT = true -> user_question w <> "" ->
  (k < TURN_LIMIT)%nat ->
  (forall i, (i < k)%nat -> quiet w i) ->
  fails w k who e ->
  exists ending st,
    main w fs = (ending, st) /\
    Say (OutCallError who e) ∈ trace st /\
    calls Claude (trace st) = S k /\
    calls Codex (trace st) = match who with Claude => k | Codex => S k end /\
    (read_answer w <> "o" -> disk st = fs) /\
    (k = 0%nat -> who = Claude -> disk st = fs).
Proof.
  intros Hr Hq Hk Hquiet Hfail.
  rewrite (main_enters _ _ Hr Hq).
  replace TURN_LIMIT with (k + S (TURN_LIMIT - S k))%nat by lia.
  rewrite loop_quiet by (intros i Hi; now apply Hquiet).
  set (st0 := emit (Say OutStart) (initial fs)).
  set (st1 := replay w k 0 st0).
  assert (Hd1 : disk st1 = fs) by (unfold st1; now rewrite replay_disk).
  assert (Hc1 : forall who', calls who' (trace st1) = k).
  { intros who'. unfold st1.
    rewrite replay_calls by (intros i Hi; now apply Hquiet). reflexivity. }
  assert (Hu1 : k = 0%nat -> d_changes st1 = None).
  { intros ->. reflexivity. }
  cbn [loop Nat.add]. destruct who; cbn [fails] in Hfail.
  - rewrite Hfail.
    destruct (finish_spec w (emit (Say (OutCallError Claude e)) (emit (Call Claude k) st1)))
      as (ending & st & Hf & Hcalls & Hin & _ & Hno & Hun & _).
    exists ending, st. split; [exact Hf|].
    rewrite !Hcalls, !calls_emit, !Hc1. repeat apply conj.
    + apply Hin, elem_of_emit. now right.
    + simpl. lia.
    + simpl. lia.
    + intros Hn. now rewrite (Hno Hn).
    + intros H0 _. now rewrite (Hun (Hu1 H0)).
  - destruct Hfail as (m & c & Hm & Hc & He). rewrite Hm, Hc.
    destruct c as [[[cs csum] cadv] cchg]. rewrite He.
    match goal with |- context [finish w ?s] =>
      destruct (finish_spec w s)
        as (ending & st & Hf & Hcalls & Hin & _ & Hno & Hun & _)
    end.
    exists ending, st. split; [exact Hf|].
    rewrite !Hcalls, !calls_emit.
    change (trace (set_c_changes ?v ?s)) with (trace s).
    rewrite !calls_emit, !Hc1. repeat apply conj.
    + apply Hin, elem_of_emit. now right.
    + simpl. lia.
    + simpl. lia.
    + intros Hn. now rewrite (Hno Hn).
    + intros _ [=].
Qed.

(** *** Patching with a pattern *)

(** A patch_block with the regex flag and a content without backslash, on
    a target that reads as text: no match fails with nothing found, otherwise
    every match gives way to the content and the message counts the matches
    (the result is written when it can be encoded). *)
Lemma patch_block_regex_plain
    (change pth regex : json) (find content text : string) (target : path)
    (fs fs1 : filesystem) (p : re_pattern RE) :
  dict_get change "action" JNull = Ret (JString "patch_block") ->
  dict_get change "path" JNull = Ret pth -> truthy pth = true ->
  dict_get change "find" JNull = Ret (JString find) -> find <> "" ->
  dict_get change "regex" (JBool false) = Ret regex -> truthy regex = true ->
  dict_get change "content" (JString "") = Ret (JString content) ->
  has_backslash content = false ->
  re_compile RE find = inl p ->
  safe_relpath pth fs = (Ret target, fs) ->
  mkdir_parents (parent target) fs = (Ret tt, fs1) ->
  text_read fs target = Some text ->
  let ms := re_finditer RE p text in
  utf8_valid (splice (re_span RE) (fun _ => content) text 0 ms) = true ->
  apply_change change fs =
    match ms with
    | [] => (Ret (false, [Lit "rien trouvé pour regex dans "; Val pth]), fs1)
    | _ =>
        (Ret (true, [Lit "[patch_block/regex x"; Num (length ms); Lit "] "; Val pth]),
         <[target := File (splice (re_span RE) (fun _ => content) text 0 ms)]> fs1)
    end.
Proof.
  intros Ha Hp Htp Hf Hne Hr Htr Hc Hb Hcomp Hs Hm Ht ms Hv.
  pose proof (apply_change_prelude _ _ _ _ _ _ _ Ha eq_refl Hp Htp Hc Hs Hm) as E.
  change (is_str (JString "patch_block") "replace") with false in E.
  change (is_str (JString "patch_block") "append") with false in E.
  change (is_str (JString "patch_block") "patch_block") with true in E.
  cbv iota in E.
  assert (Htf : truthy (JString find) = true).
  { simpl. destruct (String.eqb_spec find ""); [contradiction|reflexivity]. }
  assert (Hread : read_or_empty target fs1 = (Ret text, fs1)).
  { apply read_or_empty_text. now rewrite (text_read_after_mkdir _ _ _ _ Hm). }
  rewrite E. do 2 run_bind. rewrite Htf. cbn [negb]. run_bind. rewrite Htr.
  unfold re_subn. cbn [as_str]. cbn [mbind result_bind].
  rewrite Hcomp, Hb. fold ms.
  destruct ms as [|m ms'] eqn:Ems; [reflexivity|].
  cbn [length Nat.eqb].
  destruct (text_read_file_text _ _ _ Ht) as [old Hold].
  rewrite (bind_ret _ _ _ _ _ (write_text_after_mkdir _ _ _ _ _ Hm Hold Hv)).
  reflexivity.
Qed.

(** A pattern the library refuses is reported, not raised. *)
Lemma patch_block_regex_invalid
    (change pth regex content : json) (find text msg : string) (target : path)
    (fs fs1 : filesystem) :
  dict_get change "action" JNull = Ret (JString "patch_block") ->
  dict_get change "path" JNull = Ret pth -> truthy pth = true ->
  dict_get change "find" JNull = Ret (JString find) -> find <> "" ->
  dict_get change "regex" (JBool false) = Ret regex -> truthy regex = true ->
  dict_get change "content" (JString "") = Ret content ->
  re_compile RE find = inr msg ->
  safe_relpath pth fs = (Ret target, fs) ->
  mkdir_parents (parent target) fs = (Ret tt, fs1) ->
  text_read fs target = Some text ->
  apply_change change fs =
    (Ret (false, [Lit "regex invalide: "; Exc (ReError msg)]), fs1).
Proof.
  intros Ha Hp Htp Hf Hne Hr Htr Hc Hcomp Hs Hm Ht.
  pose proof (apply_change_prelude _ _ _ _ _ _ _ Ha eq_refl Hp Htp Hc Hs Hm) as E.
  change (is_str (JString "patch_block") "replace") with false in E.
  change (is_str (JString "patch_block") "append") with false in E.
  change (is_str (JString "patch_block") "patch_block") with true in E.
  cbv iota in E.
  assert (Htf : truthy (JString find) = true).
  { simpl. destruct (String.eqb_spec find ""); [contradiction|reflexivity]. }
  assert (Hread : read_or_empty target fs1 = (Ret text, fs1)).
  { apply read_or_empty_text. now rewrite (text_read_after_mkdir _ _ _ _ Hm). }
  rewrite E. do 2 run_bind. rewrite Htf. cbn [negb]. run_bind. rewrite Htr.
  unfold re_subn. cbn [as_str]. cbn [mbind result_bind].
  rewrite Hcomp. reflexivity.
Qed.

(** *** What a change returns, what it raises, and the batch around it *)

Lemma attempt_line (ch : json) (fs : filesystem) :
  attempt ch fs
  = (Ret (outcome_line (apply_change ch fs).1), (apply_change ch fs).2).
Proof.
  unfold attempt. destruct (apply_change ch fs) as [[[[] msg]|e] fs'];
    reflexivity.
Qed.

Lemma attempts_step (chs : list json) :
  forall (fs fs' : filesystem) (logs : list fstring) (i : nat) (ch : json),
  attempts chs fs = (Ret logs, fs') -> chs !! i = Some ch ->
  let before := (attempts (firstn i chs) fs).2 in
  logs !! i = Some (outcome_line (apply_change ch before).1) /\
  (attempts (firstn (S i) chs) fs).2 = (apply_change ch before).2.
Proof.
  induction chs as [|c chs IH]; intros fs fs' logs i ch H Hi; [discriminate|].
  cbn [attempts] in H. rewrite (bind_ret _ _ _ _ _ (attempt_line c fs)) in H.
  destruct (attempts_total chs (apply_change c fs).2) as (rest & fs2 & E & _).
  rewrite (bind_ret _ _ _ _ _ E) in H. injection H as <- <-.
  destruct i as [|i].
  - injection Hi as <-. cbn [firstn attempts]. split; [reflexivity|].
    now rewrite (bind_ret _ _ _ _ _ (attempt_line c fs)).
  - destruct (IH _ _ _ i ch E Hi) as [Hline Hdisk]. cbn [firstn attempts].
    rewrite !(bind_ret _ _ _ _ _ (attempt_line c fs)).
    destruct (attempts_total (firstn i chs) (apply_change c fs).2)
      as (l1 & d1 & E1 & _).
    destruct (attempts_total (firstn (S i) chs) (apply_change c fs).2)
      as (l2 & d2 & E2 & _).
    cbn [firstn] in E2. rewrite E1 in Hline, Hdisk. rewrite E2 in Hdisk.
    rewrite (bind_ret _ _ _ _ _ E1), (bind_ret _ _ _ _ _ E2).
    split; [exact Hline|exact Hdisk].
Qed.

Lemma is_str_eq (v : json) (s : string) : is_str v s = true -> v = JString s.
Proof.
  destruct v; try discriminate. cbn [is_str].
  now intros ->%String.eqb_eq.
Qed.

Lemma prepared_prelude (change action pth content : json) (target : path)
    (fs fs1 : filesystem) :
  prepared change fs action pth target fs1 ->
  dict_get change "content" (JString "") = Ret content ->
  apply_change change fs =
  (if is_str action "replace" then
      data ← lift (as_str content "data must be str");
      write_text target data;;
      pure (true, [Lit "[replace] "; Val pth])
    else if is_str action "append" then
      prev ← read_or_empty target;
      data ← lift (as_str content "can only concatenate str to str");
      write_text target (prev +:+ data);;
      pure (true, [Lit "[append] "; Val pth])
    else if is_str action "patch_block" then
      find ← lift (dict_get change "find" JNull);
      regex ← lift (dict_get change "regex" (JBool false));
      if negb (truthy find)
      then pure (false, [Lit "patch_block sans 'find'."])
      else
        text ← read_or_empty target;
        if truthy regex then
          match re_subn find content text with
          | Raise (ReError msg) =>
              pure (false, [Lit "regex invalide: "; Exc (ReError msg)])
          | Raise e => raise e
          | Ret (new_text, n) =>
              if (n =? 0)%nat
              then pure (false, [Lit "rien trouvé pour regex dans "; Val pth])
              else
                write_text target new_text;;
                pure (true, [Lit "[patch_block/regex x"; Num n; Lit "] "; Val pth])
          end
        else
          pat ← lift (as_str find "'in <string>' requires string as left operand");
          if negb (contains pat text)
          then pure (false, [Lit "bloc 'find' introuvable dans "; Val pth])
          else
            data ← lift (as_str content "replace() argument 2 must be str");
            write_text target (replace_first pat data text);;
            pure (true, [Lit "[patch_block] "; Val pth])
    else pure (false, [Lit "action inconnue: "; Val action])) fs1.
Proof.
  intros (Ha & Hta & Hp & Htp & Hs & Hm) Hc.
  exact (apply_change_prelude _ _ _ _ _ _ _ Ha Hta Hp Htp Hc Hs Hm).
Qed.

Lemma prepared_content (change action pth : json) (target : path)
    (fs fs1 : filesystem) :
  prepared change fs action pth target fs1 ->
  exists content, dict_get change "content" (JString "") = Ret content.
Proof.
  intros (Ha & _). destruct (dict_get_dict _ _ _ _ Ha) as [kvs ->].
  apply dict_get_total.
Qed.

Lemma prepared_patch (change action pth : json) (target : path)
    (fs fs1 : filesystem) :
  prepared change fs action pth target fs1 ->
  is_str action "patch_block" = true ->
  forall content, dict_get change "content" (JString "") = Ret content ->
  apply_change change fs =
  (find ← lift (dict_get change "find" JNull);
   regex ← lift (dict_get change "regex" (JBool false));
   if negb (truthy find)
   then pure (false, [Lit "patch_block sans 'find'."])
   else
     text ← read_or_empty target;
     if truthy regex then
       match re_subn find content text with
       | Raise (ReError msg) =>
           pure (false, [Lit "regex invalide: "; Exc (ReError msg)])
       | Raise e => raise e
       | Ret (new_text, n) =>
           if (n =? 0)%nat
           then pure (false, [Lit "rien trouvé pour regex dans "; Val pth])
           else
             write_text target new_text;;
             pure (true, [Lit "[patch_block/regex x"; Num n; Lit "] "; Val pth])
       end
     else
       pat ← lift (as_str find "'in <string>' requires string as left operand");
       if negb (contains pat text)
       then pure (false, [Lit "bloc 'find' introuvable dans "; Val pth])
       else
         data ← lift (as_str content "replace() argument 2 must be str");
         write_text target (replace_first pat data text);;
         pure (true, [Lit "[patch_block] "; Val pth])) fs1.
Proof.
  intros Hprep H3 content Hc.
  rewrite (prepared_prelude _ _ _ _ _ _ _ Hprep Hc).
  apply is_str_eq in H3 as ->. reflexivity.
Qed.

Lemma guard_raises (change action : json) (s : string) (p : path)
    (fs : filesystem) :
  dict_get change "action" JNull = Ret action -> truthy action = true ->
  dict_get change "path" JNull = Ret (JString s) -> s <> "" ->
  resolve fs WORKSPACE_ROOT s = Ret p ->
  p <> WORKSPACE_ROOT -> ~ WORKSPACE_ROOT `prefix_of` p ->
  apply_change change fs
  = (Raise (ValueError ("Chemin hors workspace_root: " +:+ path_str p)), fs).
Proof.
  intros Ha Hta Hp Hs Hr Hne Hpre.
  assert (Hguard : safe_relpath (JString s) fs
                   = (Raise (ValueError ("Chemin hors workspace_root: "
                                         +:+ path_str p)), fs)).
  { unfold safe_relpath. rewrite Hr. unfold in_parents.
    rewrite (bool_decide_eq_false_2 _ Hpre), (bool_decide_eq_false_2 _ Hne).
    reflexivity. }
  destruct (dict_get_dict _ _ _ _ Ha) as [kvs ->].
  destruct (dict_get_total kvs "content" (JString "")) as [content Hc].
  unfold apply_change. do 3 run_bind. rewrite Hta.
  assert (Hts : truthy (JString s) = true).
  { simpl. destruct (String.eqb_spec s ""); [contradiction|reflexivity]. }
  rewrite Hts. cbn [negb orb].
  now rewrite (bind_raise _ _ _ _ _ Hguard).
Qed.

Lemma mkdir_failure_raises (change action pth : json) (target : path)
    (fs fs1 : filesystem) (e : exn) :
  dict_get change "action" JNull = Ret action -> truthy action = true ->
  dict_get change "path" JNull = Ret pth -> truthy pth = true ->
  safe_relpath pth fs = (Ret target, fs) ->
  mkdir_parents (parent target) fs = (Raise e, fs1) ->
  apply_change change fs = (Raise e, fs1).
Proof.
  intros Ha Hta Hp Htp Hs Hm.
  destruct (dict_get_dict _ _ _ _ Ha) as [kvs ->].
  destruct (dict_get_total kvs "content" (JString "")) as [content Hc].
  unfold apply_change. do 3 run_bind. rewrite Hta, Htp. cbn [negb orb].
  run_bind. now rewrite (bind_raise _ _ _ _ _ Hm).
Qed.

(** C1, as the program has it. The batch never raises: on a list of
    changes [apply_changes] gives one line for each change, and the line of a
    change tells what [apply_change] returned or raised on the disk the
    changes before it have left, an exception becoming a failure line.
    [apply_change] itself returns some failures and raises others. It returns
    a failure for a change without action or path, before the disk is
    touched, and, once the path is accepted and the directories above the
    target are there, for an unknown action, a patch_block without find, a
    pattern the library refuses, a pattern without match and a find that
    does not occur. It raises for a path that leaves the workspace, and for
    the failures of the disk: directories that cannot be created, a target
    that is a directory, a file that does not hold UTF-8. *)
Theorem apply_changes_never_raises (chs : list json) (fs : filesystem) :
  (exists logs fs',
     apply_changes (JArray chs) fs = (Ret logs, fs') /\
     length logs = length chs /\
     forall (i : nat) (ch : json), chs !! i = Some ch ->
       let before := (apply_changes (JArray (firstn i chs)) fs).2 in
       logs !! i = Some (outcome_line (apply_change ch before).1) /\
       (apply_changes (JArray (firstn (S i) chs)) fs).2
       = (apply_change ch before).2) /\
  (forall kvs : list (string * json),
     truthy (default JNull (assoc "action" kvs)) = false \/
     truthy (default JNull (assoc "path" kvs)) = false ->
     apply_change (JObject kvs) fs
     = (Ret (false, [Lit "change incomplet (action/path manquant)."]), fs)) /\
  (forall (change action : json) (s : string) (p : path),
     dict_get change "action" JNull = Ret action -> truthy action = true ->
     dict_get change "path" JNull = Ret (JString s) -> s <> "" ->
     resolve fs WORKSPACE_ROOT s = Ret p ->
     p <> WORKSPACE_ROOT -> ~ WORKSPACE_ROOT `prefix_of` p ->
     apply_change change fs
     = (Raise (ValueError ("Chemin hors workspace_root: " +:+ path_str p)), fs)) /\
  (forall (change action pth : json) (target : path) (fs1 : filesystem) (e : exn),
     dict_get change "action" JNull = Ret action -> truthy action = true ->
     dict_get change "path" JNull = Ret pth -> truthy pth = true ->
     safe_relpath pth fs = (Ret target, fs) ->
     mkdir_parents (parent target) fs = (Raise e, fs1) ->
     apply_change change fs = (Raise e, fs1)) /\
  (forall (change action pth : json) (target : path) (fs1 : filesystem),
     prepared change fs action pth target fs1 ->
     (is_str action "replace" = false -> is_str action "append" = false ->
      is_str action "patch_block" = false ->
      apply_change change fs
      = (Ret (false, [Lit "action inconnue: "; Val action]), fs1)) /\
     (is_str action "replace" = true ->
      forall content : string,
        dict_get change "content" (JString "") = Ret (JString content) ->
        kind fs1 target = Some Dir ->
        apply_change change fs = (Raise (IsADirectoryError target), fs1)) /\
     (is_str action "append" = true ->
      forall bytes : string,
        kind fs target = Some (File bytes) -> utf8_valid bytes = false ->
        apply_change change fs = (Raise UnicodeDecodeError, fs1)) /\
     (is_str action "patch_block" = true ->
      (forall find : json,
         dict_get change "find" JNull = Ret find -> truthy find = false ->
         apply_change change fs
         = (Ret (false, [Lit "patch_block sans 'find'."]), fs1)) /\
      (forall (find : json) (bytes : string),
         dict_get change "find" JNull = Ret find -> truthy find = true ->
         kind fs target = Some (File bytes) -> utf8_valid bytes = false ->
         apply_change change fs = (Raise UnicodeDecodeError, fs1)) /\
      (forall (find text : string) (regex content : json),
         dict_get change "find" JNull = Ret (JString find) -> find <> "" ->
         dict_get change "regex" (JBool false) = Ret regex ->
         dict_get change "content" (JString "") = Ret content ->
         text_read fs target = Some text ->
         (truthy regex = false -> contains find text = false ->
          apply_change change fs
          = (Ret (false, [Lit "bloc 'find' introuvable dans "; Val pth]), fs1)) /\
         (truthy regex = true ->
          forall msg : string, re_compile RE find = inr msg ->
          apply_change change fs
          = (Ret (false, [Lit "regex invalide: "; Exc (ReError msg)]), fs1)) /\
         (truthy regex = true ->
          forall (p : re_pattern RE) (repl : string)
                 (expand : re_match RE -> string),
          re_compile RE find = inl p -> content = JString repl ->
          (if has_backslash repl then re_template RE p repl
           else inl (fun _ => repl)) = inl expand ->
          re_finditer RE p text = [] ->
          apply_change change fs
          = (Ret (false, [Lit "rien trouvé pour regex dans "; Val pth]), fs1))))).
Proof.
  split; [|split; [|split; [|split]]].
  - destruct (attempts_total chs fs) as (logs & fs' & H & Hlen).
    exists logs, fs'. rewrite apply_changes_list.
    split; [exact H|]. split; [exact Hlen|].
    intros i ch Hi. rewrite !apply_changes_list.
    exact (attempts_step _ _ _ _ _ _ H Hi).
  - intros kvs. apply apply_change_incomplete.
  - intros change action s p. apply guard_raises.
  - intros change action pth target fs1 e. apply mkdir_failure_raises.
  - intros change action pth target fs1 Hprep.
    destruct (prepared_content _ _ _ _ _ _ Hprep) as [content0 Hc0].
    pose proof (prepared_prelude _ _ _ _ _ _ _ Hprep Hc0) as E.
    assert (Hfs1 : kind fs1 target = kind fs target).
    { destruct Hprep as (_ & _ & _ & _ & _ & Hm).
      exact (mkdir_parent_frame _ _ _ _ Hm). }
    assert (Hbad : forall bytes : string,
              kind fs target = Some (File bytes) -> utf8_valid bytes = false ->
              read_or_empty target fs1 = (Raise UnicodeDecodeError, fs1)).
    { intros bytes Hb Hv.
      assert (Hk : kind fs1 target = Some (File bytes)) by now rewrite Hfs1.
      unfold read_or_empty, get_fs, mbind, io_bind. cbv beta iota.
      unfold exists_. rewrite Hk. unfold read_text. now rewrite Hk, Hv. }
    split; [|split; [|split]].
    + intros H1 H2 H3. now rewrite E, H1, H2, H3.
    + intros H1 content Hc Hd. rewrite Hc in Hc0. injection Hc0 as <-.
      rewrite E, H1. cbn [as_str]. rewrite (bind_lift _ _ _ _ eq_refl).
      assert (Hw : write_text target content fs1
                   = (Raise (IsADirectoryError target), fs1)).
      { unfold write_text. now rewrite Hd. }
      now rewrite (bind_raise _ _ _ _ _ Hw).
    + intros H2 bytes Hb Hv. apply is_str_eq in H2 as ->. rewrite E.
      change (is_str (JString "append") "replace") with false.
      change (is_str (JString "append") "append") with true. cbv iota.
      now rewrite (bind_raise _ _ _ _ _ (Hbad _ Hb Hv)).
    + intros H3. pose proof (prepared_patch _ _ _ _ _ _ Hprep H3 _ Hc0) as P.
      destruct Hprep as (Ha & _).
      destruct (dict_get_dict _ _ _ _ Ha) as [kvs ->].
      destruct (dict_get_total kvs "regex" (JBool false)) as [regex0 Hr0].
      split; [|split].
      * intros find Hf Htf. rewrite P. do 2 run_bind. now rewrite Htf.
      * intros find bytes Hf Htf Hb Hv. rewrite P. do 2 run_bind.
        rewrite Htf. cbn [negb].
        now rewrite (bind_raise _ _ _ _ _ (Hbad _ Hb Hv)).
      * intros find text regex content Hf Hne Hr Hc Ht.
        rewrite Hc in Hc0. injection Hc0 as <-.
        rewrite Hr in Hr0. injection Hr0 as <-.
        assert (Htf : truthy (JString find) = true).
        { simpl. destruct (String.eqb_spec find ""); [contradiction|reflexivity]. }
        assert (Hread : read_or_empty target fs1 = (Ret text, fs1)).
        { apply read_or_empty_text. unfold text_read. rewrite Hfs1. exact Ht. }
        assert (Q : apply_change (JObject kvs) fs =
                    (if truthy regex then
                       match re_subn (JString find) content text with
                       | Raise (ReError msg) =>
                           pure (false, [Lit "regex invalide: "; Exc (ReError msg)])
                       | Raise e => raise e
                       | Ret (new_text, n) =>
                           if (n =? 0)%nat
                           then pure (false, [Lit "rien trouvé pour regex dans "; Val pth])
                           else
                             write_text target new_text;;
                             pure (true, [Lit "[patch_block/regex x"; Num n; Lit "] "; Val pth])
                       end
                     else
                       if negb (contains find text)
                       then pure (false, [Lit "bloc 'find' introuvable dans "; Val pth])
                       else
                         data ← lift (as_str content "replace() argument 2 must be str");
                         write_text target (replace_first find data text);;
                         pure (true, [Lit "[patch_block] "; Val pth])) fs1).
        { rewrite P. do 2 run_bind. rewrite Htf. cbn [negb]. run_bind.
          destruct (truthy regex); [reflexivity|].
          cbn [as_str]. now rewrite (bind_lift _ _ _ _ eq_refl). }
        split; [|split].
        -- intros Htr Hout. now rewrite Q, Htr, Hout.
        -- intros Htr msg Hcomp. rewrite Q, Htr. unfold re_subn.
           cbn [as_str]. cbn [mbind result_bind]. now rewrite Hcomp.
        -- intros Htr p repl expand Hcomp -> Htpl Hnone. rewrite Q, Htr.
           unfold re_subn. cbn [as_str]. cbn [mbind result_bind].
           now rewrite Hcomp, Htpl, Hnone.
Qed.

(** *** The parser *)

Lemma from_open_cut text rest :
  from_open text = Some rest ->
  exists pre, text = pre +:+ String "{" rest /\ from_open pre = None.
Proof.
  revert rest. induction text as [|c text IH]; intros rest; [discriminate|].
  cbn [from_open]. destruct (Ascii.eqb_spec c "{") as [->|Hne].
  - intros [= ->]. now exists "".
  - intros H. destruct (IH _ H) as (pre & -> & Hpre).
    exists (String c pre). split; [reflexivity|].
    cbn [from_open]. destruct (Ascii.eqb_spec c "{"); [contradiction|exact Hpre].
Qed.

Lemma upto_close_cut text body :
  upto_close text = Some body ->
  exists post,
    text = body +:+ post /\ upto_close post = None /\
    endswith_char "}" body = true.
Proof.
  revert body. induction text as [|c text IH]; intros body; [discriminate|].
  cbn [upto_close]. destruct (upto_close text) as [t|] eqn:E.
  - intros [= <-]. destruct (IH _ eq_refl) as (post & -> & Hpost & Hend).
    exists post. repeat split; trivial.
    cbn [endswith_char]. destruct t; [discriminate|exact Hend].
  - destruct (Ascii.eqb_spec c "}") as [->|Hne]; [|discriminate].
    intros [= <-]. exists text. repeat split; trivial.
Qed.

(** The candidates of the parser: none, or the one span that starts at
    the first opening brace of the text and stops at its last closing
    brace. *)
Lemma findall_braces_spec text :
  findall_braces text = [] \/
  exists pre body post,
    findall_braces text = [String "{" body] /\
    text = pre +:+ String "{" body +:+ post /\
    from_open pre = None /\ upto_close post = None /\
    endswith_char "}" body = true.
Proof.
  unfold findall_braces. destruct (from_open text) as [rest|] eqn:E; [|now left].
  destruct (upto_close rest) as [body|] eqn:E'; [|now left].
  right. destruct (from_open_cut _ _ E) as (pre & -> & Hpre).
  destruct (upto_close_cut _ _ E') as (post & -> & Hpost & Hend).
  exists pre, body, post. repeat split; trivial.
Qed.


(** Whatever the parser returns was decoded from the one span between the
    first opening brace and the last closing brace, or from the whole text
    without its outer white space. *)
Lemma parse_first_json_block_source text v :
  parse_first_json_block text = Ret v ->
  (exists span, findall_braces text = [span] /\ json_loads span = Some v) \/
  json_loads (strip text) = Some v.
Proof.
  unfold parse_first_json_block, findall_braces.
  destruct (from_open text) as [rest|]; cbn [first_decodable].
  - destruct (upto_close rest) as [body|]; cbn [first_decodable].
    + destruct (json_loads (String "{" body)) as [v'|] eqn:E.
      * intros [= <-]. left. eauto.
      * destruct (_ && _); [|discriminate].
        destruct (json_loads (strip text)); [|discriminate].
        intros [= <-]. now right.
    + destruct (_ && _); [|discriminate].
      destruct (json_loads (strip text)); [|discriminate].
      intros [= <-]. now right.
  - destruct (_ && _); [|discriminate].
    destruct (json_loads (strip text)); [|discriminate].
    intros [= <-]. now right.
Qed.

Lemma occurs_from_open (s : string) : occurs "{" s = false -> from_open s = None.
Proof.
  induction s as [|c s IH]; [reflexivity|].
  cbn [occurs from_open]. destruct (Ascii.eqb c "{"); [discriminate|exact IH].
Qed.

Lemma occurs_upto_close (s : string) : occurs "}" s = false -> upto_close s = None.
Proof.
  induction s as [|c s IH]; [reflexivity|].
  cbn [occurs upto_close]. destruct (Ascii.eqb c "}"); [discriminate|].
  intros H. now rewrite (IH H).
Qed.

Lemma from_open_app_none (a b : string) :
  from_open (a +:+ b) = None -> from_open a = None /\ from_open b = None.
Proof.
  induction a as [|c a IH]; [now split|]. simpl.
  destruct (Ascii.eqb c "{"); [discriminate|exact IH].
Qed.

Lemma is_space_no_brace (c : ascii) :
  is_space c = true -> Ascii.eqb c "{" = false /\ Ascii.eqb c "}" = false.
Proof.
  destruct c as [[] [] [] [] [] [] [] []]; intros H;
    try discriminate H; split; reflexivity.
Qed.

Lemma space2_no_brace (c d : ascii) :
  space2 c d = true -> brace_free (String c (String d "")).
Proof.
  unfold space2. intros H. apply andb_true_iff in H as [Hc Hd].
  apply Ascii.eqb_eq in Hc as ->.
  destruct d as [[] [] [] [] [] [] [] []]; try discriminate Hd;
    split; reflexivity.
Qed.

Lemma space3_no_brace (c d e : ascii) :
  space3 c d e = true -> brace_free (String c (String d (String e ""))).
Proof.
  intros H.
  destruct c as [[] [] [] [] [] [] [] []]; try discriminate H;
    destruct d as [[] [] [] [] [] [] [] []]; try discriminate H;
    destruct e as [[] [] [] [] [] [] [] []]; try discriminate H;
    split; reflexivity.
Qed.

Lemma append_cons (c : ascii) (a b : string) :
  String c a +:+ b = String c (a +:+ b).
Proof. reflexivity. Qed.

Lemma brace_free_app (a b : string) :
  brace_free a -> brace_free b -> brace_free (a +:+ b).
Proof.
  unfold brace_free. induction a as [|c a IH]; [now intros _|].
  rewrite append_cons. cbn [occurs]. intros [H1 H2] Hb.
  apply orb_false_iff in H1 as [-> H1]. apply orb_false_iff in H2 as [-> H2].
  now apply IH.
Qed.

(** What [lstrip] drops and what [rstrip] drops holds no brace. *)
Lemma lstrip_cut_upto (n : nat) :
  forall s : string, (String.length s <= n)%nat ->
  exists pre : string, s = pre +:+ lstrip s /\ brace_free pre.
Proof.
  induction n as [|n IH]; intros s Hn.
  { destruct s; [|simpl in Hn; lia]. exists "". now split. }
  destruct s as [|c s1]; [exists ""; now split|]. cbn [lstrip].
  destruct (is_space c) eqn:H1.
  { destruct (IH s1) as (pre & Hpre & Hfree); [simpl in Hn; lia|].
    exists (String c pre). split; [now rewrite append_cons, <- Hpre|].
    destruct (is_space_no_brace _ H1) as [Ho Hc]. destruct Hfree as [F1 F2].
    split; cbn [occurs]; [now rewrite Ho|now rewrite Hc]. }
  destruct s1 as [|d s2]; [exists ""; now split|].
  destruct (space2 c d) eqn:H2.
  { destruct (IH s2) as (pre & Hpre & Hfree); [simpl in Hn; lia|].
    exists (String c (String d pre)).
    split; [now rewrite !append_cons, <- Hpre|].
    change (String c (String d pre)) with (String c (String d "") +:+ pre).
    apply brace_free_app; [now apply space2_no_brace|exact Hfree]. }
  destruct s2 as [|e s3]; [exists ""; now split|].
  destruct (space3 c d e) eqn:H3; [|exists ""; now split].
  destruct (IH s3) as (pre & Hpre & Hfree); [simpl in Hn; lia|].
  exists (String c (String d (String e pre))).
  split; [now rewrite !append_cons, <- Hpre|].
  change (String c (String d (String e pre)))
    with (String c (String d (String e "")) +:+ pre).
  apply brace_free_app; [now apply space3_no_brace|exact Hfree].
Qed.

Lemma lstrip_cut (s : string) :
  exists pre : string, s = pre +:+ lstrip s /\ brace_free pre.
Proof. exact (lstrip_cut_upto _ s (le_n _)). Qed.

Lemma append_empty_r (s : string) : s +:+ "" = s.
Proof.
  induction s as [|c s IH]; [reflexivity|]. now rewrite append_cons, IH.
Qed.

Lemma rstrip_cut (s : string) :
  exists post : string, s = rstrip s +:+ post /\ brace_free post.
Proof.
  induction s as [|c s IH]; [exists ""; now split|]. cbn [rstrip].
  destruct (blank (String c s)) eqn:Hb.
  - exists (String c s). split; [reflexivity|].
    destruct (lstrip_cut (String c s)) as (pre & Hpre & Hfree).
    unfold blank in Hb. apply String.eqb_eq in Hb.
    rewrite Hb, append_empty_r in Hpre. now rewrite Hpre.
  - destruct IH as (post & Hpost & Hfree). exists post.
    split; [now rewrite append_cons, <- Hpost|exact Hfree].
Qed.

Lemma from_open_lstrip text : from_open text = None -> from_open (lstrip text) = None.
Proof.
  destruct (lstrip_cut text) as (pre & Hpre & _). intros H.
  rewrite Hpre in H. now apply from_open_app_none in H.
Qed.

Lemma from_open_rstrip text : from_open text = None -> from_open (rstrip text) = None.
Proof.
  destruct (rstrip_cut text) as (post & Hpost & _). intros H.
  rewrite Hpost in H. now apply from_open_app_none in H.
Qed.

Lemma startswith_open text : from_open text = None -> startswith "{" text = false.
Proof.
  destruct text as [|c text]; [reflexivity|].
  cbn [from_open startswith].
  destruct (Ascii.eqb_spec c "{") as [->|Hne]; [discriminate|].
  intros _. destruct (Ascii.eqb_spec "{" c) as [<-|_]; [contradiction|reflexivity].
Qed.

(** A text without an opening brace is never parsed. *)
Lemma parse_first_json_block_no_brace text :
  from_open text = None ->
  parse_first_json_block text = Raise (ValueError "Réponse sans JSON valide.").
Proof.
  intros H. unfold parse_first_json_block, findall_braces. rewrite H.
  cbn [first_decodable]. unfold strip.
  now rewrite (startswith_open _ (from_open_rstrip _ (from_open_lstrip _ H))).
Qed.

(** *** The score *)

(** C9, as the program has it. The score is the [int] of the field, read
    without any check of its range: an integer is taken as it is, and a
    value that [int] refuses raises an exception that nothing catches, which
    ends the run on the spot. *)
Theorem score_coerced_unchecked (m v : json) :
  dict_get m "score" (JInt 1) = Ret v ->
  (forall n, v = JInt n ->
     exists summary advice changes, fields m = Ret (n, summary, advice, changes)) /\
  (forall e, py_int v = Raise e ->
     fields m = Raise e /\
     (forall w n t st, ask_claude w t = Ret m ->
        loop w (S n) t st = (Crashed e, emit (Call Claude t) st)) /\
     (forall w n t st m' c, ask_claude w t = Ret m' -> fields m' = Ret c ->
        ask_codex w t = Ret m ->
        exists st', loop w (S n) t st = (Crashed e, st') /\ disk st' = disk st)).
Proof.
  intros Hv. destruct (dict_get_dict _ _ _ _ Hv) as [kvs ->]. split.
  - intros n ->. unfold fields. rewrite Hv. cbn. eauto.
  - intros e He.
    assert (Hf : fields (JObject kvs) = Raise e).
    { unfold fields. rewrite Hv. cbn [mbind result_bind]. now rewrite He. }
    split; [exact Hf|]. split.
    + intros w n t st Hm. cbn [loop]. now rewrite Hm, Hf.
    + intros w n t st m' c Hm' Hc Hm. cbn [loop]. rewrite Hm', Hc.
      destruct c as [[[cs csum] cadv] cchg]. rewrite Hm, Hf.
      eexists. split; reflexivity.
Qed.

(** ** Further properties *)

(** *** What one change does to the disk *)

Lemma write_text_effect (p : path) (data : string) (fs fs' : filesystem)
    (r : result unit) :
  write_text p data fs = (r, fs') ->
  (exists d : string,
     fs' = <[p := File d]> fs /\ p <> [] /\
     (fs !! p = None \/ exists old, fs !! p = Some (File old)) /\
     ((r = Ret tt /\ d = data) \/ (r = Raise UnicodeEncodeError /\ d = ""))) \/
  (exists e, r = Raise e /\ fs' = fs).
Proof.
  assert (Hopen : forall (c : string) (q : path) (P : Prop),
            open_and_write (c :: q) data fs = (r, fs') -> P ->
            exists d : string,
              fs' = <[c :: q := File d]> fs /\ c :: q <> [] /\ P /\
              ((r = Ret tt /\ d = data) \/ (r = Raise UnicodeEncodeError /\ d = ""))).
  { intros c q P H HP. unfold open_and_write in H.
    destruct (utf8_valid data); injection H as <- <-;
      [exists data|exists ""]; repeat split; auto; discriminate. }
  unfold write_text. destruct p as [|c p].
  - cbn [kind]. intros [= <- <-]. right. eauto.
  - cbn [kind]. destruct (fs !! (c :: p)) as [[t| |t]|] eqn:E.
    + intros H. left. apply Hopen; eauto.
    + intros [= <- <-]. right. eauto.
    + intros [= <- <-]. right. eauto.
    + destruct (kind fs (parent (c :: p))) as [[t| |t]|];
        try (intros [= <- <-]; right; eauto; fail).
      intros H. left. apply Hopen; eauto.
Qed.

Lemma read_or_empty_pure (target : path) (fs fs' : filesystem)
    (r : result string) :
  read_or_empty target fs = (r, fs') -> fs' = fs.
Proof.
  unfold read_or_empty, get_fs, read_text, pure, mbind, io_bind.
  destruct (exists_ fs target); [|now intros [= _ <-]].
  destruct (kind fs target) as [[t| |t]|]; try (now intros [= _ <-]).
  destruct (utf8_valid t); now intros [= _ <-].
Qed.

Lemma safe_relpath_under (p : json) (fs fs' : filesystem) (target : path) :
  safe_relpath p fs = (Ret target, fs') -> WORKSPACE_ROOT `prefix_of` target.
Proof.
  unfold safe_relpath. destruct p; try discriminate.
  destruct (resolve fs WORKSPACE_ROOT s) as [q|]; [|discriminate].
  unfold in_parents.
  destruct (bool_decide (WORKSPACE_ROOT `prefix_of` q)) eqn:Hp.
  - intros H. apply bool_decide_eq_true_1 in Hp.
    destruct (_ && _); [discriminate|]. now injection H as <- _.
  - destruct (bool_decide (q = WORKSPACE_ROOT)) eqn:He.
    + apply bool_decide_eq_true_1 in He as ->. cbn. now intros [= <- _].
    + cbn. discriminate.
Qed.

(** The things a change can do: nothing; create the directories above its
    target; create them and write the target. The target is the workspace
    root or below it. The target is written with a text when the change
    reports a success, and left empty when the text to write cannot be
    encoded; it is not touched otherwise. *)
Lemma apply_change_effect (change : json) (fs fs' : filesystem)
    (r : result (bool * fstring)) :
  apply_change change fs = (r, fs') ->
  (fs' = fs /\ forall msg, r <> Ret (true, msg)) \/
  exists (target : path) rm (fs1 : filesystem),
    WORKSPACE_ROOT `prefix_of` target /\
    mkdir_parents (parent target) fs = (rm, fs1) /\
    ((fs' = fs1 /\ forall msg, r <> Ret (true, msg)) \/
     (exists data : string,
        target <> [] /\
        (fs1 !! target = None \/ exists old, fs1 !! target = Some (File old)) /\
        fs' = <[target := File data]> fs1 /\
        ((exists msg, r = Ret (true, msg)) \/
         (r = Raise UnicodeEncodeError /\ data = "")))).
Proof.
  unfold apply_change.
  destruct (dict_get change "action" JNull) as [action|e] eqn:Ea;
    [|intros [= <- <-]; left; split; [reflexivity|discriminate]].
  rewrite (bind_lift _ _ _ _ eq_refl).
  destruct (dict_get_dict _ _ _ _ Ea) as [kvs ->].
  cbn [dict_get]. do 2 rewrite (bind_lift _ _ _ _ eq_refl).
  set (pth := default JNull (assoc "path" kvs)).
  set (content := default (JString "") (assoc "content" kvs)).
  destruct (negb (truthy action) || negb (truthy pth)).
  { intros [= <- <-]. left. split; [reflexivity|discriminate]. }
  destruct (safe_relpath pth fs) as [[target|e] fs0] eqn:Es.
  2:{ rewrite (bind_raise _ _ _ _ _ Es). intros [= <- <-].
      left. split; [now apply safe_relpath_pure in Es|discriminate]. }
  pose proof (safe_relpath_pure _ _ _ _ Es) as ->.
  pose proof (safe_relpath_under _ _ _ _ Es) as Hunder.
  rewrite (bind_ret _ _ _ _ _ Es).
  destruct (mkdir_parents (parent target) fs) as [[[]|e] fs1] eqn:Em.
  2:{ rewrite (bind_raise _ _ _ _ _ Em). intros [= <- <-].
      right. exists target, (Raise e), fs1. repeat split; trivial.
      left. split; [reflexivity|discriminate]. }
  rewrite (bind_ret _ _ _ _ _ Em). intros H.
  right. exists target, (Ret tt), fs1. split; [exact Hunder|]. split; [exact Em|].
  set (outcome := fun (r0 : result (bool * fstring)) (fs0 : filesystem) =>
    (fs0 = fs1 /\ (forall msg', r0 <> Ret (true, msg'))) \/
    (exists data' : string,
       target <> [] /\
       (fs1 !! target = None \/ exists old, fs1 !! target = Some (File old)) /\
       fs0 = <[target := File data']> fs1 /\
       ((exists msg', r0 = Ret (true, msg')) \/
        (r0 = Raise UnicodeEncodeError /\ data' = "")))).
  change (outcome r fs').
  assert (Hw : forall (data : string) (msg : fstring)
                 (r0 : result (bool * fstring)) (fs0 : filesystem),
             (write_text target data ≫= (fun _ => pure (true, msg))) fs1 = (r0, fs0) ->
             outcome r0 fs0).
  { intros data msg r0 fs0. unfold mbind, io_bind.
    destruct (write_text target data fs1) as [rw fsw] eqn:Ew.
    destruct (write_text_effect _ _ _ _ _ Ew)
      as [(d & -> & Hne & Hold & [[-> ->]|[-> ->]])|(e & -> & ->)].
    - intros [= <- <-]. right. exists data. repeat split; eauto.
    - intros [= <- <-]. right. exists "". repeat split; eauto.
    - intros [= <- <-]. left. split; [reflexivity|discriminate]. }
  assert (Hfail : forall r0 : result (bool * fstring),
             (r0, fs1) = (r, fs') ->
             (forall msg, r0 <> Ret (true, msg)) ->
             outcome r fs').
  { intros r0 [= <- <-] Hr0. left. split; [reflexivity|exact Hr0]. }
  assert (Hraise : forall (A : Type) (e : exn) (k : A -> io (bool * fstring)),
             (lift (Raise e) ≫= k) fs1 = (Raise e, fs1)) by reflexivity.
  destruct (is_str action "replace").
  { destruct content; cbn [as_str] in H;
      first [ rewrite (bind_lift _ _ _ _ eq_refl) in H; now apply Hw in H
            | rewrite Hraise in H; (eapply Hfail; [exact H|discriminate]) ]. }
  destruct (is_str action "append").
  { unfold mbind at 1, io_bind at 1 in H.
    destruct (read_or_empty target fs1) as [[prev|e] fs2] eqn:Er;
      pose proof (read_or_empty_pure _ _ _ _ Er) as Hfs; subst fs2;
      [|(eapply Hfail; [exact H|discriminate])].
    destruct content; cbn [as_str] in H;
      first [ rewrite (bind_lift _ _ _ _ eq_refl) in H; now apply Hw in H
            | rewrite Hraise in H; (eapply Hfail; [exact H|discriminate]) ]. }
  destruct (is_str action "patch_block");
    [|unfold pure in H; (eapply Hfail; [exact H|discriminate])].
  do 2 rewrite (bind_lift _ _ _ _ eq_refl) in H.
  destruct (negb (truthy (default JNull (assoc "find" kvs))));
    [unfold pure in H; (eapply Hfail; [exact H|discriminate])|].
  unfold mbind at 1, io_bind at 1 in H.
  destruct (read_or_empty target fs1) as [[text|e] fs2] eqn:Er;
    pose proof (read_or_empty_pure _ _ _ _ Er) as Hfs; subst fs2;
    [|(eapply Hfail; [exact H|discriminate])].
  destruct (truthy (default (JBool false) (assoc "regex" kvs))).
  - destruct (re_subn _ content text) as [[new_text n]|e].
    + destruct (n =? 0)%nat;
        [unfold pure in H; (eapply Hfail; [exact H|discriminate])|].
      now apply Hw in H.
    + destruct e; unfold pure, raise in H;
        (eapply Hfail; [exact H|discriminate]).
  - destruct (default JNull (assoc "find" kvs)); cbn [as_str] in H;
      try (rewrite Hraise in H; (eapply Hfail; [exact H|discriminate])).
    rewrite (bind_lift _ _ _ _ eq_refl) in H.
    destruct (negb (contains s text));
      [unfold pure in H; (eapply Hfail; [exact H|discriminate])|].
    destruct content; cbn [as_str] in H;
      first [ rewrite (bind_lift _ _ _ _ eq_refl) in H; now apply Hw in H
            | rewrite Hraise in H; (eapply Hfail; [exact H|discriminate]) ].
Qed.

Lemma mkdir_only_new_dirs (p : path) (fs fs1 : filesystem) (r : result unit) :
  mkdir_parents p fs = (r, fs1) -> only_new_dirs fs fs1.
Proof.
  intros H q. destruct (mkdir_from_new _ _ _ _ _ q H) as [Heq|(Hn & Hd & _)];
    [now left|now right].
Qed.

(** X4. A change that does not report a success has written no text. The
    disk it leaves is the one it found, with at most new directories, but
    for one case: when the text to write cannot be encoded, the target, a
    file or a missing file at the workspace root or below it, has been
    opened before the write raises [UnicodeEncodeError], and is left an empty
    file. *)
Theorem failed_change_keeps_files (change : json) (fs fs' : filesystem)
    (r : result (bool * fstring)) :
  apply_change change fs = (r, fs') ->
  (forall msg, r <> Ret (true, msg)) ->
  only_new_dirs fs fs' \/
  (r = Raise UnicodeEncodeError /\
   exists (target : path) (fs1 : filesystem),
     WORKSPACE_ROOT `prefix_of` target /\
     only_new_dirs fs fs1 /\
     (fs1 !! target = None \/ exists old, fs1 !! target = Some (File old)) /\
     fs' = <[target := File ""]> fs1).
Proof.
  intros H Hr.
  destruct (apply_change_effect _ _ _ _ H)
    as [[-> _]|(target & rm & fs1 & Hunder & Hm &
                [[-> _]|(data & _ & Hold & -> & [[msg ->]|[-> ->]])])].
  - left. intros q. now left.
  - left. exact (mkdir_only_new_dirs _ _ _ _ Hm).
  - now destruct (Hr msg).
  - right. split; [reflexivity|]. exists target, fs1.
    repeat split; trivial. exact (mkdir_only_new_dirs _ _ _ _ Hm).
Qed.

Lemma rooted_not_nil (fs : filesystem) (q : path) :
  rooted fs -> fs !! q = None -> q `prefix_of` WORKSPACE_ROOT -> q = [].
Proof.
  intros Hroot Hn Hpre. destruct q as [|c q]; [reflexivity|].
  rewrite (Hroot _ Hpre) in Hn; discriminate.
Qed.

(** On a disk where the workspace root is a directory, a change leaves
    every path that is not strictly below the root as it was, and the root is
    still a directory afterwards. *)
Lemma apply_change_confined (change : json) (fs fs' : filesystem)
    (r : result (bool * fstring)) :
  rooted fs ->
  apply_change change fs = (r, fs') ->
  confined fs fs' /\ rooted fs'.
Proof.
  intros Hroot H.
  destruct (apply_change_effect _ _ _ _ H)
    as [[-> _]|(target & rm & fs1 & Hunder & Hm & Hcase)].
  { split; [intros q _; reflexivity|exact Hroot]. }
  assert (Hmk : forall q : path,
            ~ (WORKSPACE_ROOT `prefix_of` q /\ q <> WORKSPACE_ROOT) ->
            fs1 !! q = fs !! q).
  { intros q Hout.
    destruct (mkdir_from_new _ _ _ _ _ q Hm) as [Heq|(Hn & _ & Hlen & Hpre)];
      [exact Heq|].
    exfalso. apply Hout. rewrite app_nil_l in Hpre.
    assert (Hq : q `prefix_of` target)
      by (etransitivity; [exact Hpre|apply parent_prefix]).
    assert (Hne : q <> []) by (intros ->; simpl in Hlen; lia).
    destruct (prefix_weak_total _ _ _ Hq Hunder) as [Hqr|Hrq].
    - now destruct (Hne (rooted_not_nil _ _ Hroot Hn Hqr)).
    - split; [exact Hrq|]. intros ->.
      now destruct (Hne (rooted_not_nil _ _ Hroot Hn (reflexivity _))). }
  assert (Hroot1 : rooted fs1).
  { intros q Hq Hne. eapply mkdir_from_keeps; [exact Hm|]. now apply Hroot. }
  destruct Hcase as [[-> _]|(data & Hne & Hold & -> & _)].
  { split; assumption. }
  assert (Hnot : ~ target `prefix_of` WORKSPACE_ROOT).
  { intros Hpre. rewrite (Hroot1 _ Hpre Hne) in Hold.
    destruct Hold as [?|[old ?]]; discriminate. }
  split.
  - intros q Hout. rewrite lookup_insert_ne; [now apply Hmk|].
    intros <-. apply Hout. split; [exact Hunder|].
    intros ->. now apply Hnot.
  - intros q Hq Hqne. rewrite lookup_insert_ne; [now apply Hroot1|].
    intros <-. now apply Hnot.
Qed.

(** *** Links and resolution *)

Lemma walk_ext (fs fs' : filesystem) :
  same_links fs fs' ->
  forall k rest (resolved : path), walk fs' k resolved rest = walk fs k resolved rest.
Proof.
  intros Hl. induction k as [|k IHk];
    (induction rest as [|c rest IH]; intros resolved;
     [now rewrite !walk_nil|]);
    rewrite !walk_cons;
    (destruct (_ || _); [apply IH|]);
    (destruct (String.eqb c ".."); [apply IH|]);
    destruct (fs !! (resolved ++ [c])) as [[t| |t]|] eqn:E;
    try (apply Hl in E; rewrite E; first [reflexivity|apply IHk]);
    (destruct (fs' !! (resolved ++ [c])) as [[t'| |t']|] eqn:E';
     try apply IH; apply Hl in E'; congruence).
Qed.

Lemma same_links_new_dirs (fs fs' : filesystem) :
  only_new_dirs fs fs' -> same_links fs fs'.
Proof.
  intros H p t. destruct (H p) as [->|[Hn Hd]]; [reflexivity|].
  rewrite Hn, Hd. split; discriminate.
Qed.

Lemma apply_change_same_links (change : json) (fs fs' : filesystem)
    (r : result (bool * fstring)) :
  apply_change change fs = (r, fs') -> same_links fs fs'.
Proof.
  intros H.
  destruct (apply_change_effect _ _ _ _ H)
    as [[-> _]|(target & rm & fs1 & _ & Hm & Hcase)]; [easy|].
  pose proof (same_links_new_dirs _ _ (mkdir_only_new_dirs _ _ _ _ Hm)) as H1.
  destruct Hcase as [[-> _]|(data & _ & Hold & -> & _)]; [exact H1|].
  intros p t. rewrite (H1 p t).
  destruct (decide (p = target)) as [->|Hne].
  - rewrite lookup_insert_eq.
    destruct Hold as [->|[old ->]]; split; discriminate.
  - now rewrite lookup_insert_ne.
Qed.

Lemma resolve_ext (fs fs' : filesystem) (base : path) (s : string) :
  same_links fs fs' -> resolve fs' base s = resolve fs base s.
Proof.
  intros Hl. unfold resolve.
  destruct (has_nul s); [reflexivity|]. now apply walk_ext.
Qed.

(** X6. No change creates, removes or retargets a symbolic link, so every
    path resolves after a change as it did before it, and the guard gives
    the same answer. *)
Theorem change_keeps_links (change : json) (fs fs' : filesystem)
    (r : result (bool * fstring)) :
  apply_change change fs = (r, fs') ->
  same_links fs fs' /\
  (forall (base : path) (s : string), resolve fs' base s = resolve fs base s) /\
  (forall p : json, (safe_relpath p fs').1 = (safe_relpath p fs).1).
Proof.
  intros H. pose proof (apply_change_same_links _ _ _ _ H) as Hl.
  split; [exact Hl|]. split.
  - intros base s. now apply resolve_ext.
  - intros p. unfold safe_relpath. destruct p; try reflexivity.
    rewrite (resolve_ext _ _ _ _ Hl).
    destruct (resolve fs WORKSPACE_ROOT s); [|reflexivity].
    now destruct (_ && _).
Qed.

(** *** Replace and append *)

(** X1. A replace, when the guard has accepted the path, the directories
    above the target exist or have been created, and the target is a file
    or is missing. With a content that can be encoded it reports its
    success and the target holds exactly the content; with a content that
    cannot (a lone surrogate) it raises and the target is left an empty
    file. Nothing else changes on the disk the creation of the directories
    left. *)
Theorem replace_sets_content
    (change pth : json) (content old : string) (target : path)
    (fs fs1 : filesystem) :
  dict_get change "action" JNull = Ret (JString "replace") ->
  dict_get change "path" JNull = Ret pth -> truthy pth = true ->
  dict_get change "content" (JString "") = Ret (JString content) ->
  safe_relpath pth fs = (Ret target, fs) ->
  mkdir_parents (parent target) fs = (Ret tt, fs1) ->
  file_text fs target = Some old ->
  exists fs' : filesystem,
    (forall q : path, q <> target -> fs' !! q = fs1 !! q) /\
    if utf8_valid content
    then apply_change change fs = (Ret (true, [Lit "[replace] "; Val pth]), fs') /\
         fs' !! target = Some (File content)
    else apply_change change fs = (Raise UnicodeEncodeError, fs') /\
         fs' !! target = Some (File "").
Proof.
  intros Ha Hp Htp Hc Hs Hm Ht.
  destruct (utf8_valid content) eqn:Hv.
  - exists (<[target := File content]> fs1). split.
    + intros q Hq. now rewrite lookup_insert_ne.
    + split; [exact (replace_writes _ _ _ _ _ _ _ Ha Hp Htp Hc Hs Hm Ht Hv)|].
      apply lookup_insert_eq.
  - exists (<[target := File ""]> fs1). split.
    + intros q Hq. now rewrite lookup_insert_ne.
    + split; [exact (replace_unencodable _ _ _ _ _ _ _ Ha Hp Htp Hc Hs Hm Ht Hv)|].
      apply lookup_insert_eq.
Qed.

(** X3. An append, when the guard has accepted the path, the directories
    above the target exist or have been created, the target reads as text (a
    file that holds UTF-8, or a missing file, which reads as nothing) and the
    content can be encoded: it reports its success and the target holds the
    text that was read, line ends read as line feeds, followed by the
    content. *)
Theorem append_extends_content
    (change pth : json) (content old : string) (target : path)
    (fs fs1 : filesystem) :
  dict_get change "action" JNull = Ret (JString "append") ->
  dict_get change "path" JNull = Ret pth -> truthy pth = true ->
  dict_get change "content" (JString "") = Ret (JString content) ->
  utf8_valid content = true ->
  safe_relpath pth fs = (Ret target, fs) ->
  mkdir_parents (parent target) fs = (Ret tt, fs1) ->
  text_read fs target = Some old ->
  apply_change change fs =
    (Ret (true, [Lit "[append] "; Val pth]),
     <[target := File (old +:+ content)]> fs1).
Proof.
  intros Ha Hp Htp Hc Hv Hs Hm Ht.
  rewrite (apply_change_prelude _ _ _ _ _ _ _ Ha eq_refl Hp Htp Hc Hs Hm).
  change (is_str (JString "append") "replace") with false.
  change (is_str (JString "append") "append") with true. cbv iota.
  assert (Hread : read_or_empty target fs1 = (Ret old, fs1)).
  { apply read_or_empty_text. now rewrite (text_read_after_mkdir _ _ _ _ Hm). }
  rewrite (bind_ret _ _ _ _ _ Hread).
  cbn [as_str]. rewrite (bind_lift _ _ _ _ eq_refl).
  destruct (text_read_file_text _ _ _ Ht) as [stored Hstored].
  assert (Hall : utf8_valid (old +:+ content) = true).
  { apply utf8_valid_app; [exact (text_read_valid _ _ _ Ht)|exact Hv]. }
  rewrite (bind_ret _ _ _ _ _
             (write_text_after_mkdir _ _ _ (old +:+ content) _ Hm Hstored Hall)).
  reflexivity.
Qed.

Lemma mkdir_from_existing (todo : path) : forall (done : path) (fs : filesystem),
  (forall pre : path, pre `prefix_of` todo -> pre <> [] ->
     fs !! (done ++ pre) = Some Dir) ->
  mkdir_from done todo fs = (Ret tt, fs).
Proof.
  induction todo as [|c todo IH]; intros done fs H; [reflexivity|].
  cbn [mkdir_from]. rewrite (H [c]); [|now exists todo|discriminate].
  apply IH. intros pre Hpre Hne. rewrite <- app_assoc. apply H.
  - now apply prefix_cons.
  - discriminate.
Qed.

Lemma safe_relpath_ext (p : json) (fs fs' : filesystem) :
  (forall (base : path) (s : string), resolve fs' base s = resolve fs base s) ->
  (safe_relpath p fs').1 = (safe_relpath p fs).1.
Proof.
  intros H. unfold safe_relpath. destruct p; try reflexivity.
  rewrite H. destruct (resolve fs WORKSPACE_ROOT s); [|reflexivity].
  now destruct (_ && _).
Qed.

(** X2. A replace applied a second time, on the disk the first one left,
    has the same outcome and leaves that disk as it is: the same success
    when the content can be encoded, the same error, on a target that stays
    empty, when it cannot. *)
Theorem replace_twice
    (change pth : json) (content old : string) (target : path)
    (fs fs1 : filesystem) :
  dict_get change "action" JNull = Ret (JString "replace") ->
  dict_get change "path" JNull = Ret pth -> truthy pth = true ->
  dict_get change "content" (JString "") = Ret (JString content) ->
  safe_relpath pth fs = (Ret target, fs) ->
  mkdir_parents (parent target) fs = (Ret tt, fs1) ->
  file_text fs target = Some old ->
  exists (r : result (bool * fstring)) (fs2 : filesystem),
    apply_change change fs = (r, fs2) /\
    apply_change change fs2 = (r, fs2) /\
    r = if utf8_valid content then Ret (true, [Lit "[replace] "; Val pth])
        else Raise UnicodeEncodeError.
Proof.
  intros Ha Hp Htp Hc Hs Hm Ht.
  assert (Hne : target <> []) by (intros ->; discriminate).
  assert (Hagain : forall (r : result (bool * fstring)) (data : string),
            apply_change change fs = (r, <[target := File data]> fs1) ->
            let fs2 := <[target := File data]> fs1 in
            safe_relpath pth fs2 = (Ret target, fs2) /\
            mkdir_parents (parent target) fs2 = (Ret tt, fs2) /\
            file_text fs2 target = Some data).
  { intros r data H1 fs2. repeat split.
    - apply safe_relpath_run.
      rewrite (safe_relpath_ext _ _ _
                 (fun base s => resolve_ext _ _ base s
                                  (apply_change_same_links _ _ _ _ H1))).
      now rewrite Hs.
    - apply mkdir_from_existing. intros pre Hpre Hpne. rewrite app_nil_l.
      unfold fs2. rewrite lookup_insert_ne.
      + exact (mkdir_from_dirs _ [] _ _ pre Hm Hpre Hpne).
      + intros <-. apply prefix_length in Hpre. rewrite length_parent in Hpre.
        destruct target; [contradiction|]. simpl in Hpre. lia.
    - unfold file_text, kind, fs2. destruct target; [contradiction|].
      now rewrite lookup_insert_eq. }
  destruct (utf8_valid content) eqn:Hv.
  - pose proof (replace_writes _ _ _ _ _ _ _ Ha Hp Htp Hc Hs Hm Ht Hv) as H1.
    destruct (Hagain _ _ H1) as (Hs2 & Hm2 & Ht2).
    eexists _, _. split; [exact H1|]. split; [|reflexivity].
    rewrite (replace_writes _ _ _ _ _ _ _ Ha Hp Htp Hc Hs2 Hm2 Ht2 Hv).
    now rewrite insert_insert_eq.
  - pose proof (replace_unencodable _ _ _ _ _ _ _ Ha Hp Htp Hc Hs Hm Ht Hv) as H1.
    destruct (Hagain _ _ H1) as (Hs2 & Hm2 & Ht2).
    eexists _, _. split; [exact H1|]. split; [|reflexivity].
    rewrite (replace_unencodable _ _ _ _ _ _ _ Ha Hp Htp Hc Hs2 Hm2 Ht2 Hv).
    now rewrite insert_insert_eq.
Qed.
(** *** The batch, again *)

Lemma confined_refl (fs : filesystem) : confined fs fs.
Proof. intros q _. reflexivity. Qed.

Lemma confined_trans (fs1 fs2 fs3 : filesystem) :
  confined fs1 fs2 -> confined fs2 fs3 -> confined fs1 fs3.
Proof. intros H12 H23 q Hq. now rewrite (H23 q Hq), (H12 q Hq). Qed.

Lemma attempt_confined (ch : json) (fs fs' : filesystem) (r : result fstring) :
  rooted fs -> attempt ch fs = (r, fs') -> confined fs fs' /\ rooted fs'.
Proof.
  intros Hroot. unfold attempt.
  destruct (apply_change ch fs) as [[[ok msg]|e] fs1] eqn:E;
    intros [= _ <-]; exact (apply_change_confined _ _ _ _ Hroot E).
Qed.

Lemma attempts_confined (chs : list json) :
  forall (fs fs' : filesystem) (r : result (list fstring)),
  rooted fs -> attempts chs fs = (r, fs') -> confined fs fs' /\ rooted fs'.
Proof.
  induction chs as [|ch chs IH]; intros fs fs' r Hroot.
  - intros [= _ <-]. split; [apply confined_refl|exact Hroot].
  - cbn [attempts]. destruct (attempt_total ch fs) as (line & fs1 & H1).
    rewrite (bind_ret _ _ _ _ _ H1).
    destruct (attempt_confined _ _ _ _ Hroot H1) as [Hc1 Hr1].
    destruct (attempts_total chs fs1) as (logs & fs2 & H2 & _).
    rewrite (bind_ret _ _ _ _ _ H2). intros [= _ <-].
    destruct (IH _ _ _ Hr1 H2) as [Hc2 Hr2].
    split; [exact (confined_trans _ _ _ Hc1 Hc2)|exact Hr2].
Qed.

Lemma apply_changes_confined (changes : json) (fs fs' : filesystem)
    (r : result (list fstring)) :
  rooted fs -> apply_changes changes fs = (r, fs') ->
  confined fs fs' /\ rooted fs'.
Proof.
  intros Hroot. unfold apply_changes.
  destruct (py_iter (py_or changes (JArray []))) as [chs|e] eqn:E.
  - rewrite (bind_lift _ _ _ _ eq_refl). now apply attempts_confined.
  - intros [= _ <-]. split; [apply confined_refl|exact Hroot].
Qed.

Lemma same_links_trans (fs1 fs2 fs3 : filesystem) :
  same_links fs1 fs2 -> same_links fs2 fs3 -> same_links fs1 fs3.
Proof. intros H12 H23 p t. now rewrite (H12 p t), (H23 p t). Qed.

Lemma attempts_same_links (chs : list json) :
  forall (fs fs' : filesystem) (r : result (list fstring)),
  attempts chs fs = (r, fs') -> same_links fs fs'.
Proof.
  induction chs as [|ch chs IH]; intros fs fs' r.
  - intros [= _ <-]. now intros p t.
  - cbn [attempts]. rewrite (bind_ret _ _ _ _ _ (attempt_line ch fs)).
    destruct (attempts_total chs (apply_change ch fs).2) as (logs & fs2 & H2 & _).
    rewrite (bind_ret _ _ _ _ _ H2). intros [= _ <-].
    eapply same_links_trans; [|exact (IH _ _ _ H2)].
    exact (apply_change_same_links _ _ _ _ (surjective_pairing _)).
Qed.

Lemma apply_changes_same_links (changes : json) (fs fs' : filesystem)
    (r : result (list fstring)) :
  apply_changes changes fs = (r, fs') -> same_links fs fs'.
Proof.
  unfold apply_changes.
  destruct (py_iter (py_or changes (JArray []))) as [chs|e] eqn:E.
  - rewrite (bind_lift _ _ _ _ eq_refl). apply attempts_same_links.
  - intros [= _ <-]. now intros p t.
Qed.

Lemma no_links_under_same (fs fs' : filesystem) :
  same_links fs fs' -> no_links_under fs -> no_links_under fs'.
Proof. intros Hl H p t Hp E. apply (H p t Hp). now apply Hl. Qed.

(** X5. On a disk where the workspace root and the directories above it
    are directories and no symbolic link lies at the root or below it, a
    batch leaves every path that is not strictly below the root as it was,
    whatever the value it is given and whatever its changes hold, succeed or
    not. The root is a directory afterwards, no link has appeared, and a file
    whose content has changed is below the root. *)
Theorem batch_confined (changes : json) (fs fs' : filesystem)
    (r : result (list fstring)) :
  rooted fs -> no_links_under fs ->
  apply_changes changes fs = (r, fs') ->
  confined fs fs' /\ rooted fs' /\ no_links_under fs' /\
  forall (q : path) (text : string),
    fs' !! q = Some (File text) -> fs !! q <> Some (File text) ->
    WORKSPACE_ROOT `prefix_of` q /\ q <> WORKSPACE_ROOT.
Proof.
  intros Hroot Hlinks H.
  destruct (apply_changes_confined _ _ _ _ Hroot H) as [Hc Hr].
  split; [exact Hc|]. split; [exact Hr|].
  split; [exact (no_links_under_same _ _ (apply_changes_same_links _ _ _ _ H) Hlinks)|].
  intros q text Hq Hold.
  destruct (decide (WORKSPACE_ROOT `prefix_of` q)) as [Hp|Hp].
  - split; [exact Hp|]. intros ->.
    destruct (decide (WORKSPACE_ROOT = [])) as [E|E].
    + apply Hold. rewrite <- Hq. symmetry. apply Hc. intros [_ Hne].
      now apply Hne.
    + rewrite (Hr _ (reflexivity _) E) in Hq. discriminate.
  - exfalso. apply Hold. rewrite <- Hq. symmetry. apply Hc. now intros [? _].
Qed.

Lemma attempts_app (l1 : list json) :
  forall (l2 : list json) (fs fs1 fs2 : filesystem) (logs1 logs2 : list fstring),
  attempts l1 fs = (Ret logs1, fs1) ->
  attempts l2 fs1 = (Ret logs2, fs2) ->
  attempts (l1 ++ l2) fs = (Ret (logs1 ++ logs2), fs2).
Proof.
  induction l1 as [|ch l1 IH]; intros l2 fs fs1 fs2 logs1 logs2.
  - intros [= <- <-] H2. exact H2.
  - cbn [attempts app]. destruct (attempt_total ch fs) as (line & fs0 & H0).
    rewrite !(bind_ret _ _ _ _ _ H0).
    destruct (attempts_total l1 fs0) as (logs & fs0' & H1 & _).
    rewrite (bind_ret _ _ _ _ _ H1). intros [= <- <-] H2.
    rewrite (bind_ret _ _ _ _ _ (IH _ _ _ _ _ _ H1 H2)). reflexivity.
Qed.

(** X7. A batch is the succession of its parts: the lines of a list of
    changes followed by another are the lines of the first list, on the disk
    it finds, followed by the lines of the second, on the disk the first one
    leaves; no outcome in the first part keeps the second from running. *)
Theorem batch_composes (l1 l2 : list json) (fs : filesystem) :
  exists (logs1 logs2 : list fstring) (fs1 fs2 : filesystem),
    apply_changes (JArray l1) fs = (Ret logs1, fs1) /\
    apply_changes (JArray l2) fs1 = (Ret logs2, fs2) /\
    apply_changes (JArray (l1 ++ l2)) fs = (Ret (logs1 ++ logs2), fs2) /\
    length logs1 = length l1 /\ length logs2 = length l2.
Proof.
  destruct (attempts_total l1 fs) as (logs1 & fs1 & H1 & Hlen1).
  destruct (attempts_total l2 fs1) as (logs2 & fs2 & H2 & Hlen2).
  exists logs1, logs2, fs1, fs2. rewrite !apply_changes_list.
  repeat split; trivial. exact (attempts_app _ _ _ _ _ _ _ H1 H2).
Qed.

(** X9. Items that are not objects are not changes: each of them is
    logged as a failure and the disk is not touched. So it is for a batch
    given as a string, which is run character by character. *)
Theorem non_objects_are_logged (changes : json) (items : list json)
    (fs : filesystem) :
  py_iter (py_or changes (JArray [])) = Ret items ->
  Forall (fun ch => forall kvs, ch <> JObject kvs) items ->
  apply_changes changes fs =
    (Ret (replicate (length items)
            (failure_line (AttributeError "object has no attribute 'get'"))),
     fs).
Proof.
  intros Hit Hall. unfold apply_changes. rewrite (bind_lift _ _ _ _ Hit).
  clear Hit. induction Hall as [|ch items Hch _ IH]; [reflexivity|].
  assert (H1 : attempt ch fs =
               (Ret (failure_line (AttributeError "object has no attribute 'get'")), fs)).
  { unfold attempt, apply_change.
    destruct ch; try reflexivity. now destruct (Hch kvs). }
  cbn [attempts]. rewrite (bind_ret _ _ _ _ _ H1), (bind_ret _ _ _ _ _ IH).
  reflexivity.
Qed.

(** X17. A batch that is not a collection: null, a boolean or a number.
    When the value is falsy (null, false, zero) it stands for the empty
    batch; otherwise it cannot be iterated, and [apply_changes] itself
    raises, before any change and without touching the disk. *)
Theorem scalar_batch (changes : json) (fs : filesystem) :
  (forall s, changes <> JString s) ->
  (forall l, changes <> JArray l) ->
  (forall kvs, changes <> JObject kvs) ->
  apply_changes changes fs =
    (if truthy changes then Raise (TypeError "object is not iterable")
     else Ret [], fs).
Proof.
  intros Hs Hl Ho. unfold apply_changes, py_or.
  destruct (truthy changes) eqn:Ht; [|reflexivity].
  destruct changes as [|b|n|f|s|l|kvs];
    try reflexivity; try discriminate Ht.
  - now destruct (Hs s).
  - now destruct (Hl l).
  - now destruct (Ho kvs).
Qed.

(** *** The run, whatever the backends answer *)

Ltac calls_fact :=
  repeat first
    [ rewrite calls_emit
    | rewrite calls_record_turn
    | progress change (trace (set_c_changes ?v ?s)) with (trace s)
    | progress change (trace (set_d_changes ?v ?s)) with (trace s)
    | progress change (trace (set_disk ?v ?s)) with (trace s) ];
  simpl; lia.

(** A turn that is not completed ends the loop: the first backend has been
    called, the second at most once, and nothing is written. *)
Lemma loop_stops (w : world) (n t : nat) (st : state) :
  exchange w t = None ->
  exists (ex : loop_exit) (st' : state),
    loop w (S n) t st = (ex, st') /\ ex <> Committed /\ disk st' = disk st /\
    calls Claude (trace st') = S (calls Claude (trace st)) /\
    (calls Codex (trace st') = calls Codex (trace st) \/
     calls Codex (trace st') = S (calls Codex (trace st))).
Proof.
  unfold exchange. intros H. cbn [loop].
  destruct (ask_claude w t) as [cj|e].
  2:{ eexists _, _. split; [reflexivity|]. repeat apply conj;
        [discriminate|reflexivity|calls_fact|left; calls_fact]. }
  destruct (fields cj) as [[[[cs csum] cadv] cchg]|e].
  2:{ eexists _, _. split; [reflexivity|]. repeat apply conj;
        [discriminate|reflexivity|calls_fact|left; calls_fact]. }
  destruct (ask_codex w t) as [dj|e].
  2:{ eexists _, _. split; [reflexivity|]. repeat apply conj;
        [discriminate|reflexivity|calls_fact|right; calls_fact]. }
  destruct (fields dj) as [[[[ds dsum] dadv] dchg]|e]; [discriminate|].
  eexists _, _. split; [reflexivity|]. repeat apply conj;
    [discriminate|reflexivity|calls_fact|right; calls_fact].
Qed.

(** The loop, from any turn and any state: how many calls it makes, and
    the one way in which it writes. *)
Lemma loop_inv (w : world) (n : nat) :
  forall (t : nat) (st : state) (ex : loop_exit) (st' : state),
  loop w n t st = (ex, st') ->
  (exists a b : nat,
     calls Claude (trace st') = (calls Claude (trace st) + a)%nat /\
     calls Codex (trace st') = (calls Codex (trace st) + b)%nat /\
     (a <= n)%nat /\ (b <= a)%nat /\ (a <= S b)%nat) /\
  (disk st' = disk st \/
   exists (i : nat) x,
     (i < n)%nat /\ exchange w (t + i) = Some x /\ double5 x = true /\
     ex <> LoopEnd /\
     disk st' =
       (apply_changes (py_or (changes_of x.2) (changes_of x.1)) (disk st)).2).
Proof.
  induction n as [|n IH]; intros t st ex st'.
  - cbn [loop]. intros [= <- <-]. split; [exists 0%nat, 0%nat; lia|now left].
  - destruct (exchange w t) as [x|] eqn:Hx.
    + rewrite (loop_turn _ _ _ _ _ Hx). destruct (double5 x) eqn:Hd.
      * cbv zeta. change (disk (emit ?ev ?s)) with (disk s).
        rewrite disk_record_turn.
        destruct (apply_changes _ (disk st)) as [[logs|e] fs'] eqn:Ea;
          intros [= <- <-];
          (split;
           [exists 1%nat, 1%nat; repeat apply conj; try lia; calls_fact
           |right; exists 0%nat, x; rewrite Nat.add_0_r;
            repeat apply conj;
            [lia|exact Hx|exact Hd|discriminate
            |cbn [emit set_disk disk]; now rewrite Ea]]).
      * intros H. destruct (IH _ _ _ _ H) as [(a & b & Ha & Hb & Hb1 & Hb2 & Hb3) Hdisk].
        rewrite calls_record_turn in Ha, Hb. rewrite disk_record_turn in Hdisk.
        split; [exists (S a), (S b); lia|].
        destruct Hdisk as [Hs|(i & x' & Hi & Hx' & Hd' & Hne & Hw)]; [now left|].
        right. exists (S i), x'.
        replace (t + S i)%nat with (S t + i)%nat by lia.
        repeat apply conj; trivial. lia.
    + destruct (loop_stops w n t st Hx) as (ex0 & st0 & Hl & _ & Hd & Hc & Hcx).
      rewrite Hl. intros [= <- <-].
      split; [|now left].
      destruct Hcx as [Hcx|Hcx]; [exists 1%nat, 0%nat|exists 1%nat, 1%nat]; lia.
Qed.

(** The end without agreement writes at most one batch, and only after the
    answer [o]. *)
Lemma finish_disk (w : world) (st : state) (en : ending) (st' : state) :
  finish w st = (en, st') ->
  disk st' = disk st \/
  (read_answer w = "o" /\
   exists cand : json, disk st' = (apply_changes cand (disk st)).2).
Proof.
  unfold finish. cbv zeta.
  destruct (if truthy last_codex then _ else _) as [cand|e];
    [|intros [= _ <-]; now left].
  destruct (if negb (truthy cand) then _ else _) as [cand'|e];
    [|intros [= _ <-]; now left].
  destruct (truthy cand'); [|intros [= _ <-]; now left].
  destruct (String.eqb_spec (read_answer w) "o") as [Ho|Ho];
    [|intros [= _ <-]; now left].
  cbn [emit disk].
  destruct (apply_changes cand' (disk st)) as [[logs|e] fs'] eqn:Ea;
    intros [= _ <-]; right; (split; [exact Ho|]); exists cand';
    cbn [emit set_disk disk]; now rewrite Ea.
Qed.

Lemma finish_calls (w : world) (st : state) (who : speaker) :
  calls who (trace (finish w st).2) = calls who (trace st).
Proof.
  destruct (finish_spec w st) as (en & st' & Hf & Hc & _).
  rewrite Hf. apply Hc.
Qed.

(** A run writes at most one batch. *)
Lemma main_disk (w : world) (fs : filesystem) :
  disk (main w fs).2 = fs \/
  exists cand : json,
    disk (main w fs).2 = (apply_changes cand fs).2 /\
    ((exists (t : nat) x,
        (t < TURN_LIMIT)%nat /\ exchange w t = Some x /\ double5 x = true /\
        cand = py_or (changes_of x.2) (changes_of x.1)) \/
     read_answer w = "o").
Proof.
  unfold main. destruct (negb (exists_ fs WORKSPACE_ROOT)); [now left|].
  destruct (negb (truthy (JString (user_question w)))); [now left|].
  destruct (loop w TURN_LIMIT 0 (emit (Say OutStart) (initial fs)))
    as [ex st'] eqn:El.
  destruct (loop_inv _ _ _ _ _ _ El) as [_ Hd].
  change (disk (emit (Say OutStart) (initial fs))) with fs in Hd.
  assert (Hcommit :
    ex <> LoopEnd ->
    disk st' = fs \/
    exists cand : json,
      disk st' = (apply_changes cand fs).2 /\
      ((exists (t : nat) x,
          (t < TURN_LIMIT)%nat /\ exchange w t = Some x /\ double5 x = true /\
          cand = py_or (changes_of x.2) (changes_of x.1)) \/
       read_answer w = "o")).
  { clear El. intros _.
    destruct Hd as [Hs|(i & x & Hi & Hx & Hd5 & _ & Hw)]; [left; exact Hs|].
    right. eexists. split; [exact Hw|]. left. exists i, x.
    repeat apply conj; trivial. }
  clear El. destruct ex as [| |e]; cbn [snd].
  - apply Hcommit. discriminate.
  - destruct Hd as [Hs|(i & x & _ & _ & _ & Hne & _)];
      [|exfalso; apply Hne; reflexivity].
    destruct (finish w st') as [en st''] eqn:Ef. cbn [snd].
    destruct (finish_disk _ _ _ _ Ef) as [Hs'|(Ho & cand & Hw)].
    + left. rewrite Hs'. exact Hs.
    + right. exists cand. rewrite Hs in Hw. split; [exact Hw|right; exact Ho].
  - apply Hcommit. discriminate.
Qed.

(** X8. However the backends answer, and however the run ends, no backend
    is called more than TURN_LIMIT times, the second is never called more
    often than the first, and the first at most once more than the
    second. *)
Theorem run_call_bounds (w : world) (fs : filesystem) :
  let tr := trace (main w fs).2 in
  (calls Claude tr <= TURN_LIMIT)%nat /\
  (calls Codex tr <= calls Claude tr)%nat /\
  (calls Claude tr <= S (calls Codex tr))%nat.
Proof.
  cbv zeta. unfold main.
  assert (H0 : forall who ev, calls who (trace (emit (Say ev) (initial fs))) = 0%nat).
  { intros who ev. rewrite calls_emit. now destruct who. }
  destruct (negb (exists_ fs WORKSPACE_ROOT)); [cbn [snd]; rewrite !H0; lia|].
  destruct (negb (truthy (JString (user_question w))));
    [cbn [snd]; rewrite !H0; lia|].
  destruct (loop w TURN_LIMIT 0 (emit (Say OutStart) (initial fs)))
    as [ex st'] eqn:El.
  destruct (loop_inv _ _ _ _ _ _ El) as [(a & b & Ha & Hb & H1 & H2 & H3) _].
  rewrite H0 in Ha, Hb.
  clear El. destruct ex as [| |e]; cbn [snd]; rewrite ?finish_calls; lia.
Qed.

(** X10. A run changes the disk in one way only: it applies one batch to
    the disk it found, either the changes of a turn on which both scores are
    5, those of the second backend or else of the first, or a batch offered
    at the end and accepted with the answer [o]. *)
Theorem run_writes_one_batch (w : world) (fs : filesystem) :
  disk (main w fs).2 = fs \/
  exists cand : json,
    disk (main w fs).2 = (apply_changes cand fs).2 /\
    ((exists (t : nat) x,
        (t < TURN_LIMIT)%nat /\ exchange w t = Some x /\
        score_of x.1 = 5 /\ score_of x.2 = 5 /\
        cand = if truthy (changes_of x.2) then changes_of x.2
               else changes_of x.1) \/
     read_answer w = "o").
Proof.
  destruct (main_disk w fs) as [Hs|(cand & Hw & Hwhy)]; [now left|].
  right. exists cand. split; [exact Hw|].
  destruct Hwhy as [(t & x & Ht & Hx & Hd & Hc)|Ho]; [left|now right].
  exists t, x. unfold double5 in Hd.
  apply andb_true_iff in Hd as [H1 H2].
  apply Z.eqb_eq in H1, H2. now repeat split.
Qed.

(** X11. On a disk where the workspace root and the directories above it
    are directories and no symbolic link lies at the root or below it, a
    whole run, whatever the backends and the user answer, leaves every path
    that is not strictly below the root as it was; the root is a directory
    afterwards and no link has appeared. *)
Theorem run_confined (w : world) (fs : filesystem) :
  rooted fs -> no_links_under fs ->
  confined fs (disk (main w fs).2) /\ rooted (disk (main w fs).2) /\
  no_links_under (disk (main w fs).2).
Proof.
  intros Hroot Hlinks.
  destruct (main_disk w fs) as [Hs|(cand & Hw & _)]; rewrite ?Hs, ?Hw.
  - split; [apply confined_refl|]. split; assumption.
  - destruct (apply_changes cand fs) as [r fs'] eqn:Ea. cbn [snd].
    destruct (apply_changes_confined _ _ _ _ Hroot Ea) as [Hc Hr].
    split; [exact Hc|]. split; [exact Hr|].
    exact (no_links_under_same _ _ (apply_changes_same_links _ _ _ _ Ea) Hlinks).
Qed.

(** X12. A call that fails on the first turn ends the run with an
    exception: after the message of the failure and the message of the
    limit, the end of [main] reads [d_changes], which no turn has bound.
    Nothing is offered, nothing is asked and nothing is written. *)
Theorem first_turn_failure_crashes (w : world) (fs : filesystem)
    (who : speaker) (e : exn) :
  exists_ fs WORKSPACE_ROOT = true -> user_question w <> "" ->
  fails w 0 who e ->
  exists st : state,
    main w fs = (Uncaught (UnboundLocalError "d_changes"), st) /\
    disk st = fs /\
    Say (OutCallError who e) ∈ trace st /\
    Say OutLimit ∈ trace st /\
    (Prompt ∉ trace st) /\
    (Say OutNothingProposed ∉ trace st).
Proof.
  intros Hr Hq Hfail. rewrite (main_enters _ _ Hr Hq).
  unfold TURN_LIMIT. cbn [loop].
  destruct who; cbn [fails] in Hfail.
  - rewrite Hfail. eexists. split; [reflexivity|].
    cbn [emit initial set_disk set_c_changes disk trace app].
    repeat apply conj; [reflexivity|..];
      rewrite ?elem_of_cons, ?elem_of_nil; intuition discriminate.
  - destruct Hfail as (m & c & Hm & Hc & He). rewrite Hm, Hc.
    destruct c as [[[cs csum] cadv] cchg]. rewrite He.
    eexists. split; [reflexivity|].
    cbn [emit initial set_disk set_c_changes disk trace app].
    repeat apply conj; [reflexivity|..];
      rewrite ?elem_of_cons, ?elem_of_nil; intuition discriminate.
Qed.

(** X13. When a call fails on a later turn, the changes offered at the end
    are those the second backend gave on the turn before, when it gave any:
    also when it is the second backend that fails and the first has just
    answered with other changes. They are shown, the question is asked, and
    the answer [o] applies them. *)
Theorem failure_offers_earlier_review (w : world) (fs : filesystem) (k : nat)
    (x : (Z * json * json * json) * (Z * json * json * json))
    (who : speaker) (e : exn) :
  exists_ fs WORKSPACE_ROOT = true -> user_question w <> "" ->
  (S k < TURN_LIMIT)%nat ->
  (forall i, (i < S k)%nat -> quiet w i) ->
  exchange w k = Some x ->
  truthy (changes_of x.2) = true ->
  fails w (S k) who e ->
  exists (en : ending) (st : state),
    main w fs = (en, st) /\
    Say (OutPreview (changes_of x.2)) ∈ trace st /\
    Prompt ∈ trace st /\
    (read_answer w <> "o" -> en = Returned /\ disk st = fs) /\
    (read_answer w = "o" -> disk st = (apply_changes (changes_of x.2) fs).2).
Proof.
  intros Hr Hq Hk Hquiet Hx Ht Hfail.
  rewrite (main_enters _ _ Hr Hq).
  replace TURN_LIMIT with (S k + S (TURN_LIMIT - S (S k)))%nat by lia.
  rewrite loop_quiet by (intros i Hi; now apply Hquiet).
  set (st0 := emit (Say OutStart) (initial fs)).
  destruct (replay_last w k 0 st0 x Hquiet Hx) as [Ec Ed].
  set (st1 := replay w (S k) 0 st0) in *.
  assert (Hd1 : disk st1 = fs) by (unfold st1; now rewrite replay_disk).
  assert (Hend : forall st2 : state,
            disk st2 = fs -> d_changes st2 = Some (changes_of x.2) ->
            (exists c : json, c_changes st2 = Some c) ->
            exists (en : ending) (st : state),
              finish w st2 = (en, st) /\
              Say (OutPreview (changes_of x.2)) ∈ trace st /\
              Prompt ∈ trace st /\
              (read_answer w <> "o" -> en = Returned /\ disk st = fs) /\
              (read_answer w = "o" ->
               disk st = (apply_changes (changes_of x.2) fs).2)).
  { intros st2 Hd2 Hdc [c Hcc].
    destruct (finish_spec w st2) as (en & st & Hf & _ & _ & _ & Hno & _ & Hcand).
    specialize (Hcand _ _ Hcc Hdc). cbv zeta in Hcand.
    unfold py_or in Hcand. rewrite Ht in Hcand.
    destruct Hcand as (Hshow & _ & Hret & Happly).
    rewrite Hd2 in Hno, Happly.
    exists en, st. split; [exact Hf|].
    destruct (Hshow Ht) as [Hs1 Hs2].
    repeat apply conj; trivial.
    - intros Hn. split; [now apply Hret|now apply Hno].
    - intros Ho. now apply Happly. }
  cbn [loop Nat.add]. destruct who; cbn [fails] in Hfail.
  - rewrite Hfail. apply Hend; [exact Hd1|exact Ed|eexists; exact Ec].
  - destruct Hfail as (m & c & Hm & Hc & He). rewrite Hm, Hc.
    destruct c as [[[cs csum] cadv] cchg]. rewrite He.
    apply Hend; [exact Hd1|exact Ed|eexists; reflexivity].
Qed.

(** *** The parser, again *)

Lemma from_open_app (pre rest : string) :
  from_open pre = None -> from_open (pre +:+ String "{" rest) = Some rest.
Proof.
  induction pre as [|c pre IH]; [reflexivity|].
  simpl. destruct (Ascii.eqb c "{"); [discriminate|exact IH].
Qed.

Lemma upto_close_app (body post : string) :
  upto_close post = None ->
  upto_close (body +:+ String "}" post) = Some (body +:+ "}").
Proof.
  intros H. induction body as [|c body IH].
  - simpl. now rewrite H.
  - simpl. now rewrite IH.
Qed.

Lemma lstrip_open (s r : string) :
  lstrip s = String "{" r -> from_open s = Some r.
Proof.
  destruct (lstrip_cut s) as (pre & Hpre & [Hfree _]). intros H.
  rewrite H in Hpre. rewrite Hpre.
  exact (from_open_app _ _ (occurs_from_open _ Hfree)).
Qed.

Lemma rstrip_head (s : string) c (t : string) :
  rstrip s = String c t -> exists s' : string, s = String c s'.
Proof.
  destruct (rstrip_cut s) as (post & Hpost & _). intros H.
  rewrite H in Hpost. rewrite Hpost, append_cons. eauto.
Qed.

Lemma endswith_char_cut (c : ascii) (s : string) :
  endswith_char c s = true -> exists body : string, s = body +:+ String c "".
Proof.
  induction s as [|a s IH]; [discriminate|]. cbn [endswith_char].
  destruct s as [|b s].
  - intros ->%Ascii.eqb_eq. now exists "".
  - intros H. destruct (IH H) as [body Hbody]. exists (String a body).
    now rewrite append_cons, <- Hbody.
Qed.

Lemma rstrip_close (s : string) :
  endswith_char "}" (rstrip s) = true -> upto_close s = Some (rstrip s).
Proof.
  destruct (rstrip_cut s) as (post & Hpost & [_ Hfree]). intros H.
  destruct (endswith_char_cut _ _ H) as [body Hbody].
  rewrite Hpost at 1. rewrite Hbody, append_assoc.
  change ("}" +:+ post) with (String "}" post).
  exact (upto_close_app _ _ (occurs_upto_close _ Hfree)).
Qed.

(** When the second attempt of the parser is made, the stripped text is
    the span the first attempt has tried. *)
Lemma strict_is_span (text : string) :
  startswith "{" (strip text) && endswith_char "}" (strip text) = true ->
  findall_braces text = [strip text].
Proof.
  intros H. apply andb_true_iff in H as [Hs He]. unfold strip in *.
  pose proof (rstrip_close _ He) as Hc.
  destruct (rstrip (lstrip text)) as [|c t] eqn:E; [discriminate|].
  cbn [startswith] in Hs. apply andb_true_iff in Hs as [Hs _].
  apply Ascii.eqb_eq in Hs as <-.
  destruct (rstrip_head _ _ _ E) as [r Hr].
  unfold findall_braces. rewrite (lstrip_open _ _ Hr).
  rewrite Hr in Hc. cbn [upto_close] in Hc.
  destruct (upto_close r) as [t'|]; [|discriminate].
  now injection Hc as ->.
Qed.

Lemma span_is_strict (text span : string) :
  findall_braces text = [span] ->
  startswith "{" span && endswith_char "}" span = true.
Proof.
  intros H. destruct (findall_braces_spec text) as [E|(pre & body & post & E & _ & _ & _ & Hend)];
    rewrite E in H; [discriminate|].
  injection H as <-. destruct body; [discriminate|exact Hend].
Qed.

(** The parser, by cases on the one span it tries. *)
Lemma parse_first_json_block_cases (text : string) :
  parse_first_json_block text =
  match findall_braces text with
  | span :: _ =>
      match json_loads span with
      | Some v => Ret v
      | None =>
          if String.eqb span (strip text) then Raise JSONDecodeError
          else Raise (ValueError "Réponse sans JSON valide.")
      end
  | [] => Raise (ValueError "Réponse sans JSON valide.")
  end.
Proof.
  unfold parse_first_json_block.
  destruct (startswith "{" (strip text) && endswith_char "}" (strip text)) eqn:Hs.
  - rewrite (strict_is_span _ Hs). cbn [first_decodable].
    rewrite String.eqb_refl. now destruct (json_loads (strip text)).
  - destruct (findall_braces_spec text)
      as [E|(pre & body & post & E & _)].
    + now rewrite E.
    + pose proof (span_is_strict _ _ E) as Hspan. rewrite E.
      cbn [first_decodable]. destruct (json_loads (String "{" body)); [reflexivity|].
      destruct (String.eqb_spec (String "{" body) (strip text)) as [Heq|_];
        [|reflexivity].
      rewrite Heq in Hspan. congruence.
Qed.

(** X14. The parser returns a value exactly when the one span from the
    first opening brace of the text to its last closing brace decodes, and
    it returns what the span decodes to. The second attempt, on the stripped
    text, returns nothing: it is made on the span that has just failed, and
    raises the error of the decoder. *)
Theorem parser_returns_the_span (text : string) :
  (forall v : json,
     parse_first_json_block text = Ret v <->
     exists span : string,
       findall_braces text = [span] /\ json_loads span = Some v) /\
  (parse_first_json_block text = Raise JSONDecodeError <->
     findall_braces text = [strip text] /\ json_loads (strip text) = None) /\
  (forall e : exn,
     parse_first_json_block text = Raise e ->
     e = JSONDecodeError \/ e = ValueError "Réponse sans JSON valide.").
Proof.
  rewrite parse_first_json_block_cases.
  destruct (findall_braces_spec text) as [E|(pre & body & post & E & _)];
    rewrite E.
  - split; [|split].
    + intros v. split; [discriminate|]. intros (span & Hnil & _). discriminate Hnil.
    + split; [discriminate|]. intros [Hnil _]. discriminate Hnil.
    + intros e [= <-]. now right.
  - destruct (json_loads (String "{" body)) as [v0|] eqn:Ej.
    + split; [|split].
      * intros v. split.
        -- intros [= <-]. eauto.
        -- intros (span & [= <-] & Hv). congruence.
      * split; [discriminate|]. intros [[= Heq] Hn]. congruence.
      * discriminate.
    + destruct (String.eqb_spec (String "{" body) (strip text)) as [Heq|Hne].
      * split; [|split].
        -- intros v. split; [discriminate|]. intros (span & [= <-] & Hv). congruence.
        -- split; [|reflexivity]. intros _. rewrite <- Heq. now split.
        -- intros e [= <-]. now left.
      * split; [|split].
        -- intros v. split; [discriminate|]. intros (span & [= <-] & Hv). congruence.
        -- split; [discriminate|]. intros [[= Heq] _]. contradiction.
        -- intros e [= <-]. now right.
Qed.

(** X15. An object with prose around it is found when the prose holds no
    brace: with no opening brace before the object and no closing brace
    after it, the parser returns what the object decodes to, and fails when
    the object does not decode. *)
Theorem parser_accepts_wrapped_object (pre body post : string) :
  occurs "{" pre = false -> occurs "}" post = false ->
  let object := "{" +:+ body +:+ "}" in
  findall_braces (pre +:+ object +:+ post) = [object] /\
  (forall v : json,
     json_loads object = Some v ->
     parse_first_json_block (pre +:+ object +:+ post) = Ret v) /\
  (json_loads object = None ->
   exists e : exn, parse_first_json_block (pre +:+ object +:+ post) = Raise e).
Proof.
  intros Hpre Hpost object.
  assert (Hf : findall_braces (pre +:+ object +:+ post) = [object]).
  { unfold findall_braces, object.
    change (("{" +:+ body +:+ "}") +:+ post)
      with (String "{" ((body +:+ "}") +:+ post)).
    rewrite (from_open_app _ _ (occurs_from_open _ Hpre)).
    rewrite append_assoc. change ("}" +:+ post) with (String "}" post).
    now rewrite (upto_close_app _ _ (occurs_upto_close _ Hpost)). }
  split; [exact Hf|].
  rewrite parse_first_json_block_cases, Hf. split.
  - now intros v ->.
  - intros ->. destruct (String.eqb _ _); eauto.
Qed.

(** *** The guard, on ordinary paths *)




End Bridge.

(** ** Concrete runs *)

Lemma apply_change_mkdir_before_validation_witness :
  let change := Demo.op "rename" "a/b/c.txt" "" in
  is_dir Demo.fs ["work"; "a"; "b"] = false /\
  exists fs1,
    apply_change LiteralRe.lib Demo.root change Demo.fs =
      (Ret (false, [Lit "action inconnue: "; Val (JString "rename")]), fs1) /\
    is_dir fs1 ["work"; "a"; "b"] = true.
Proof.
  intros change. split; [vm_compute; reflexivity|].
  exists (mkdir_parents ["work"; "a"; "b"] Demo.fs).2.
  assert (Hs : safe_relpath Demo.root (JString "a/b/c.txt") Demo.fs
               = (Ret ["work"; "a"; "b"; "c.txt"], Demo.fs))
    by (apply safe_relpath_run; vm_compute; reflexivity).
  assert (Hm : mkdir_parents (parent ["work"; "a"; "b"; "c.txt"]) Demo.fs
               = (Ret tt, (mkdir_parents ["work"; "a"; "b"] Demo.fs).2))
    by (apply (io_run (mkdir_parents ["work"; "a"; "b"])); vm_compute; reflexivity).
  destruct (apply_change_mkdir_before_validation LiteralRe.lib Demo.root
              change (JString "rename") (JString "a/b/c.txt") _ _ _
              eq_refl eq_refl eq_refl eq_refl Hs Hm) as (Hd & Hu & _).
  split; [|exact Hd].
  apply Hu; reflexivity.
Defined.

(** C1, the claim as it is written fails: the error of the path guard
    leaves [apply_change] as an exception, not as a pair. *)
Lemma apply_change_raises_on_escape :
  (apply_change LiteralRe.lib Demo.root
     (Demo.op "replace" "../notes.txt" "hello") Demo.fs).1
  = Raise (ValueError "Chemin hors workspace_root: /notes.txt").
Proof. vm_compute. reflexivity. Qed.

(** A batch of three: a path that leaves the workspace, an unknown action,
    an append. The first raises in [apply_change] and is logged, the second
    is returned as a failure, and the third is applied all the same. *)
Lemma apply_changes_never_raises_witness :
  let chs := [Demo.op "replace" "../notes.txt" "hello";
              Demo.op "rename" "f.txt" "";
              Demo.op "append" "f.txt" "!"] in
  exists logs fs',
    apply_changes LiteralRe.lib Demo.root (JArray chs) Demo.fs = (Ret logs, fs') /\
    logs = [failure_line (ValueError "Chemin hors workspace_root: /notes.txt");
            [Lit "⚠️"; Lit " "; Lit "action inconnue: "; Val (JString "rename")];
            [Lit "✅"; Lit " "; Lit "[append] "; Val (JString "f.txt")]] /\
    fs' !! ["work"; "f.txt"] = Some (File "x y x!").
Proof.
  intros chs.
  destruct (proj1 (apply_changes_never_raises LiteralRe.lib Demo.root chs Demo.fs))
    as (logs & fs' & H & _).
  exists logs, fs'. split; [exact H|].
  pose proof (f_equal fst H) as H1. pose proof (f_equal snd H) as H2.
  cbn [fst snd] in H1, H2. split.
  - vm_compute in H1. now injection H1 as <-.
  - rewrite <- H2. vm_compute. reflexivity.
Defined.

(** A path that climbs out, an absolute path, and a link of the workspace
    that leads out of it. *)
Lemma path_escape_rejected_witness :
  let rejected (s : string) (p : path) :=
    let err := ValueError ("Chemin hors workspace_root: " +:+ path_str p) in
    apply_change LiteralRe.lib Demo.root (Demo.op "replace" s "hello") Demo.fs
      = (Raise err, Demo.fs) /\
    apply_changes LiteralRe.lib Demo.root
      (JArray [Demo.op "replace" s "hello"]) Demo.fs
      = (Ret [failure_line err], Demo.fs) in
  rejected "../notes.txt" ["notes.txt"] /\
  rejected "/etc/passwd" ["etc"; "passwd"] /\
  rejected "out/passwd" ["etc"; "passwd"].
Proof.
  intros rejected. unfold rejected. split; [|split].
  - apply (path_escape_rejected LiteralRe.lib Demo.root
             (Demo.op "replace" "../notes.txt" "hello") (JString "replace")
             "../notes.txt" ["notes.txt"] Demo.fs);
      [ reflexivity | reflexivity | reflexivity | discriminate
      | vm_compute; reflexivity | discriminate
      | intros [k Hk]; discriminate Hk ].
  - apply (path_escape_rejected LiteralRe.lib Demo.root
             (Demo.op "replace" "/etc/passwd" "hello") (JString "replace")
             "/etc/passwd" ["etc"; "passwd"] Demo.fs);
      [ reflexivity | reflexivity | reflexivity | discriminate
      | vm_compute; reflexivity | discriminate
      | intros [k Hk]; discriminate Hk ].
  - apply (path_escape_rejected LiteralRe.lib Demo.root
             (Demo.op "replace" "out/passwd" "hello") (JString "replace")
             "out/passwd" ["etc"; "passwd"] Demo.fs);
      [ reflexivity | reflexivity | reflexivity | discriminate
      | vm_compute; reflexivity | discriminate
      | intros [k Hk]; discriminate Hk ].
Defined.


Lemma double5_commits_witness :
  exists logs st,
    main Json.loads Int.of_str LiteralRe.lib Demo.root Demo.agree Demo.fs = (Returned, st) /\
    logs = [[Lit "✅"; Lit " "; Lit "[replace] "; Val (JString "notes.txt")]] /\
    calls Claude (trace st) = 1%nat /\ calls Codex (trace st) = 1%nat /\
    disk st !! ["work"; "notes.txt"] = Some (File "hello").
Proof.
  pose (hello := JArray [Demo.op "replace" "notes.txt" "hello"]).
  destruct (double5_commits Json.loads Int.of_str LiteralRe.lib Demo.root Demo.agree Demo.fs 0
              ((5, JString "ok", JString "", JArray []),
               (5, JString "ok", JString "", hello)))
    as (logs & st & Hm & Ha & Hc & Hd & _ & Hfile).
  - vm_compute. reflexivity.
  - discriminate.
  - unfold TURN_LIMIT. lia.
  - intros i Hi. lia.
  - vm_compute. reflexivity.
  - reflexivity.
  - reflexivity.
  - eexists. reflexivity.
  - eexists. reflexivity.
  - exists logs, st. repeat apply conj; trivial.
    + apply (f_equal fst) in Ha. vm_compute in Ha. now injection Ha as <-.
    + apply (Hfile ["work"; "notes.txt"] (mkdir_parents ["work"] Demo.fs).2 "").
      * reflexivity.
      * apply safe_relpath_run. vm_compute. reflexivity.
      * apply (io_run (mkdir_parents ["work"])). vm_compute. reflexivity.
      * vm_compute. reflexivity.
Defined.

Lemma exhausted_needs_confirmation_witness :
  exists st,
    main Json.loads Int.of_str LiteralRe.lib Demo.root (Demo.never (Some "n")) Demo.fs
      = (Returned, st) /\
    calls Claude (trace st) = 5%nat /\ calls Codex (trace st) = 5%nat /\
    Say OutLimit ∈ trace st /\ Prompt ∈ trace st /\
    disk st = Demo.fs.
Proof.
  pose (x := ((3, JString "not sure", JString "", JArray []),
              (3, JString "a note", JString "keep it",
               JArray [Demo.op "replace" "notes.txt" "hello"]))).
  destruct (exhausted_needs_confirmation Json.loads Int.of_str LiteralRe.lib Demo.root
              (Demo.never (Some "n")) Demo.fs x)
    as (ending & st & Hm & Hc & Hd & Hl & Hp & Hn & _).
  - vm_compute. reflexivity.
  - discriminate.
  - intros i _. exists x. split; vm_compute; reflexivity.
  - vm_compute. reflexivity.
  - destruct Hn as [-> Hdisk]; [vm_compute; discriminate|].
    exists st. repeat apply conj; trivial. now apply Hp.
Defined.

(** C4, the claim as it is written fails: the second backend fails on the
    second turn, the changes the first one proposed on that turn are offered
    and, on the answer [o], written. *)
Lemma broken_run_writes :
  let run := main Json.loads Int.of_str LiteralRe.lib Demo.root Demo.broken Demo.fs in
  ask_codex Json.loads Demo.broken 1 = Raise (BackendError "rate limit") /\
  Demo.fs !! ["work"; "notes.txt"] = None /\
  disk run.2 !! ["work"; "notes.txt"] = Some (File "hello").
Proof. vm_compute. repeat split. Qed.

Lemma failed_call_stops_loop_witness :
  let e := ValueError "Réponse sans JSON valide." in
  exists ending st,
    main Json.loads Int.of_str LiteralRe.lib Demo.root Demo.mute Demo.fs = (ending, st) /\
    Say (OutCallError Claude e) ∈ trace st /\
    calls Claude (trace st) = 1%nat /\ calls Codex (trace st) = 0%nat /\
    disk st = Demo.fs.
Proof.
  intros e.
  destruct (failed_call_stops_loop Json.loads Int.of_str LiteralRe.lib Demo.root
              Demo.mute Demo.fs 0 Claude e)
    as (ending & st & Hm & He & Hc & Hd & _ & H0).
  - vm_compute. reflexivity.
  - discriminate.
  - unfold TURN_LIMIT. lia.
  - intros i Hi. lia.
  - vm_compute. reflexivity.
  - exists ending, st. repeat apply conj; trivial. now apply H0.
Defined.

(** C5, on a reply whose prose holds braces: the object that follows the
    prose decodes on its own, the one candidate the parser tries runs from
    the first brace of the prose to the end of the object, and the parser
    fails. *)
Theorem parse_misses_embedded_block :
  let reply := Json.text "Voici {ma} relecture: {'score': 5}" in
  Json.loads (Json.text "{'score': 5}") = Some (JObject [("score", JInt 5)]) /\
  findall_braces reply = [Json.text "{ma} relecture: {'score': 5}"] /\
  parse_first_json_block Json.loads reply
    = Raise (ValueError "Réponse sans JSON valide.").
Proof. vm_compute. repeat split. Qed.

(** C6, on a content that holds a backslash: the two characters [\n] of
    the content are read as a template, and each match gives way to one
    line feed instead of them. *)
Theorem regex_patch_rewrites_content :
  let nl := String "010" "" in
  let run := apply_change LiteralRe.lib Demo.root
               (Demo.patch "f.txt" "x" "\n" true) Demo.fs in
  Demo.fs !! ["work"; "f.txt"] = Some (File "x y x") /\
  run.1 = Ret (true, [Lit "[patch_block/regex x"; Num 2; Lit "] ";
                      Val (JString "f.txt")]) /\
  run.2 !! ["work"; "f.txt"] = Some (File (nl +:+ " y " +:+ nl)) /\
  File (nl +:+ " y " +:+ nl) <> File "\n y \n".
Proof. vm_compute. repeat split. discriminate. Qed.

(** C9, the claim as it is written fails: a score of 7 is read as 7 and
    the message is accepted. *)
Lemma score_out_of_range_accepted :
  (parse_first_json_block Json.loads (Json.text "{'score': 7, 'summary': 'sure'}")
     ≫= fields Int.of_str)
  = Ret (7, JString "sure", JString "", JArray []) /\
  ~ (1 <= 7 <= 5).
Proof. split; [vm_compute; reflexivity|lia]. Qed.

Lemma score_coerced_unchecked_witness :
  (exists summary advice changes,
     fields Int.of_str (JObject [("score", JInt 7)])
     = Ret (7, summary, advice, changes)) /\
  fields Int.of_str (JObject [("score", JString "high")])
    = Raise (ValueError "invalid literal for int() with base 10").
Proof.
  split.
  - exact (proj1 (score_coerced_unchecked Json.loads Int.of_str LiteralRe.lib Demo.root
                    (JObject [("score", JInt 7)]) (JInt 7) eq_refl) 7 eq_refl).
  - exact (proj1 (proj2 (score_coerced_unchecked Json.loads Int.of_str LiteralRe.lib Demo.root
                    (JObject [("score", JString "high")]) (JString "high") eq_refl)
                    _ eq_refl)).
Defined.

(** ** Concrete runs for the further properties *)

Lemma demo_rooted : rooted Demo.root Demo.fs.
Proof.
  intros q [k Hk] Hne. unfold Demo.root in Hk.
  destruct q as [|a [|b q]]; [contradiction| |discriminate Hk].
  injection Hk as <- _. vm_compute. reflexivity.
Qed.

Lemma plain_rooted : rooted Demo.root Scenes.plain.
Proof.
  intros q [k Hk] Hne. unfold Demo.root in Hk.
  destruct q as [|a [|b q]]; [contradiction| |discriminate Hk].
  injection Hk as <- _. vm_compute. reflexivity.
Qed.

Lemma plain_no_links : no_links_under Demo.root Scenes.plain.
Proof.
  intros p t _ H. unfold Scenes.plain in H.
  apply lookup_insert_Some in H as [[_ H]|[_ H]]; [discriminate|].
  apply lookup_singleton_Some in H as [_ H]. discriminate.
Qed.

Lemma demo_guard :
  safe_relpath Demo.root (JString "f.txt") Demo.fs = (Ret ["work"; "f.txt"], Demo.fs).
Proof. apply safe_relpath_run. vm_compute. reflexivity. Qed.

Lemma demo_mkdir :
  mkdir_parents (parent ["work"; "f.txt"]) Demo.fs
  = (Ret tt, (mkdir_parents ["work"] Demo.fs).2).
Proof. apply (io_run (mkdir_parents ["work"])). vm_compute. reflexivity. Qed.

Lemma demo_file : file_text Demo.fs ["work"; "f.txt"] = Some "x y x".
Proof. vm_compute. reflexivity. Qed.

(** A content that can be encoded, and one that holds a lone surrogate. *)
Lemma replace_sets_content_witness :
  (exists fs' : filesystem,
     apply_change LiteralRe.lib Demo.root (Demo.op "replace" "f.txt" "new") Demo.fs
     = (Ret (true, [Lit "[replace] "; Val (JString "f.txt")]), fs') /\
     fs' !! ["work"; "f.txt"] = Some (File "new")) /\
  (exists fs' : filesystem,
     apply_change LiteralRe.lib Demo.root
       (Demo.op "replace" "f.txt" Scenes.surrogate) Demo.fs
     = (Raise UnicodeEncodeError, fs') /\
     fs' !! ["work"; "f.txt"] = Some (File "")).
Proof.
  split.
  - destruct (replace_sets_content LiteralRe.lib Demo.root
                (Demo.op "replace" "f.txt" "new") (JString "f.txt") "new" "x y x"
                ["work"; "f.txt"] Demo.fs _
                eq_refl eq_refl eq_refl eq_refl demo_guard demo_mkdir demo_file)
      as (fs' & _ & H).
    change (utf8_valid "new") with true in H. cbv iota in H.
    exists fs'. exact H.
  - destruct (replace_sets_content LiteralRe.lib Demo.root
                (Demo.op "replace" "f.txt" Scenes.surrogate) (JString "f.txt")
                Scenes.surrogate "x y x"
                ["work"; "f.txt"] Demo.fs _
                eq_refl eq_refl eq_refl eq_refl demo_guard demo_mkdir demo_file)
      as (fs' & _ & H).
    change (utf8_valid Scenes.surrogate) with false in H. cbv iota in H.
    exists fs'. exact H.
Defined.

Lemma replace_twice_witness :
  exists fs2 : filesystem,
    apply_change LiteralRe.lib Demo.root (Demo.op "replace" "f.txt" "new") Demo.fs
      = (Ret (true, [Lit "[replace] "; Val (JString "f.txt")]), fs2) /\
    apply_change LiteralRe.lib Demo.root (Demo.op "replace" "f.txt" "new") fs2
      = (Ret (true, [Lit "[replace] "; Val (JString "f.txt")]), fs2).
Proof.
  destruct (replace_twice LiteralRe.lib Demo.root
              (Demo.op "replace" "f.txt" "new") (JString "f.txt") "new" "x y x"
              ["work"; "f.txt"] Demo.fs _
              eq_refl eq_refl eq_refl eq_refl demo_guard demo_mkdir demo_file)
    as (r & fs2 & H1 & H2 & Hr).
  change (utf8_valid "new") with true in Hr. cbv iota in Hr. subst r.
  exists fs2. split; [exact H1|exact H2].
Defined.

(** An append to a file whose lines end with a carriage return and a line
    feed: what is read has line feeds, and that is what is written back. *)
Lemma append_extends_content_witness :
  apply_change LiteralRe.lib Demo.root (Demo.op "append" "dos.txt" "!") Scenes.dos
  = (Ret (true, [Lit "[append] "; Val (JString "dos.txt")]),
     <[ ["work"; "dos.txt"]
        := File ("x y" +:+ Scenes.lf +:+ "x" +:+ Scenes.lf +:+ "!") ]>
       (mkdir_parents ["work"] Scenes.dos).2).
Proof.
  refine (append_extends_content LiteralRe.lib Demo.root
            (Demo.op "append" "dos.txt" "!") (JString "dos.txt") "!"
            ("x y" +:+ Scenes.lf +:+ "x" +:+ Scenes.lf)
            ["work"; "dos.txt"] Scenes.dos _
            eq_refl eq_refl eq_refl eq_refl eq_refl _ _ _).
  - apply safe_relpath_run. vm_compute. reflexivity.
  - apply (io_run (mkdir_parents ["work"])). vm_compute. reflexivity.
  - vm_compute. reflexivity.
Defined.

(** An unknown action below a directory that does not exist: the
    directory is made, and no file is written. A replace whose content holds
    a lone surrogate: the file is left empty. *)
Lemma failed_change_keeps_files_witness :
  let run := apply_change LiteralRe.lib Demo.root
               (Demo.op "rename" "a/b.txt" "") Demo.fs in
  let bad := apply_change LiteralRe.lib Demo.root
               (Demo.op "replace" "f.txt" Scenes.surrogate) Demo.fs in
  (run.1 = Ret (false, [Lit "action inconnue: "; Val (JString "rename")]) /\
   run.2 !! ["work"; "a"] = Some Dir /\
   only_new_dirs Demo.fs run.2) /\
  (bad.1 = Raise UnicodeEncodeError /\
   exists (target : path) (fs1 : filesystem),
     only_new_dirs Demo.fs fs1 /\ bad.2 = <[target := File ""]> fs1).
Proof.
  intros run bad. split.
  - split; [vm_compute; reflexivity|].
    split; [vm_compute; reflexivity|].
    destruct (failed_change_keeps_files LiteralRe.lib Demo.root
                (Demo.op "rename" "a/b.txt" "") Demo.fs run.2 run.1
                (surjective_pairing run)) as [H|[Hr _]].
    + intros msg. vm_compute. discriminate.
    + exact H.
    + vm_compute in Hr. discriminate Hr.
  - split; [vm_compute; reflexivity|].
    destruct (failed_change_keeps_files LiteralRe.lib Demo.root
                (Demo.op "replace" "f.txt" Scenes.surrogate) Demo.fs bad.2 bad.1
                (surjective_pairing bad))
      as [H|(_ & target & fs1 & _ & Hnew & _ & Hbad)].
    + intros msg. vm_compute. discriminate.
    + exfalso. destruct (H ["work"; "f.txt"]) as [E|[E _]];
        vm_compute in E; discriminate E.
    + exists target, fs1. split; [exact Hnew|exact Hbad].
Defined.

(** A batch of one change that climbs out of the workspace and one that
    stays in it, on a disk without links. *)
Lemma batch_confined_witness :
  let run := apply_changes LiteralRe.lib Demo.root
               (JArray [Demo.op "replace" "../notes.txt" "hello";
                        Demo.op "replace" "notes.txt" "hello"]) Scenes.plain in
  run.2 !! ["notes.txt"] = None /\
  run.2 !! ["work"; "notes.txt"] = Some (File "hello") /\
  confined Demo.root Scenes.plain run.2.
Proof.
  intros run. split; [vm_compute; reflexivity|].
  split; [vm_compute; reflexivity|].
  exact (proj1 (batch_confined LiteralRe.lib Demo.root _ Scenes.plain run.2 run.1
                  plain_rooted plain_no_links (surjective_pairing run))).
Defined.

(** The link of the workspace is still there after a change. *)
Lemma change_keeps_links_witness :
  let run := apply_change LiteralRe.lib Demo.root
               (Demo.op "replace" "notes.txt" "hello") Demo.fs in
  run.2 !! ["work"; "out"] = Some (Symlink "/etc") /\
  resolve run.2 Demo.root "out/passwd" = Ret ["etc"; "passwd"].
Proof.
  intros run.
  destruct (change_keeps_links LiteralRe.lib Demo.root
              (Demo.op "replace" "notes.txt" "hello") Demo.fs run.2 run.1
              (surjective_pairing run)) as (Hl & Hr & _).
  split.
  - apply Hl. vm_compute. reflexivity.
  - rewrite Hr. vm_compute. reflexivity.
Defined.

(** A batch given as a string is run character by character. *)
Lemma non_objects_are_logged_witness :
  let line := failure_line (AttributeError "object has no attribute 'get'") in
  apply_changes LiteralRe.lib Demo.root (JString "ab") Demo.fs
  = (Ret [line; line], Demo.fs).
Proof.
  intros line.
  apply (non_objects_are_logged LiteralRe.lib Demo.root (JString "ab")
           [JString "a"; JString "b"] Demo.fs eq_refl).
  constructor; [discriminate|]. constructor; [discriminate|]. constructor.
Defined.

Lemma run_confined_witness :
  let run := main Json.loads Int.of_str LiteralRe.lib Demo.root Demo.agree
               Scenes.plain in
  disk run.2 !! ["work"; "notes.txt"] = Some (File "hello") /\
  confined Demo.root Scenes.plain (disk run.2).
Proof.
  intros run. split; [vm_compute; reflexivity|].
  exact (proj1 (run_confined Json.loads Int.of_str LiteralRe.lib Demo.root
                  Demo.agree Scenes.plain plain_rooted plain_no_links)).
Defined.

(** The first backend answers the first turn with prose: the run ends on
    the unbound variable. *)
Lemma first_turn_failure_crashes_witness :
  exists st : state,
    main Json.loads Int.of_str LiteralRe.lib Demo.root Demo.mute Demo.fs
      = (Uncaught (UnboundLocalError "d_changes"), st) /\
    disk st = Demo.fs.
Proof.
  destruct (first_turn_failure_crashes Json.loads Int.of_str LiteralRe.lib
              Demo.root Demo.mute Demo.fs Claude
              (ValueError "Réponse sans JSON valide."))
    as (st & Hm & Hd & _).
  - vm_compute. reflexivity.
  - discriminate.
  - vm_compute. reflexivity.
  - exists st. split; [exact Hm|exact Hd].
Defined.

(** The second backend fails on the second turn, after the first has
    answered without changes: the change the second proposed on the first
    turn is offered and, on the answer [o], written. *)
Lemma failure_offers_earlier_review_witness :
  exists (en : ending) (st : state),
    main Json.loads Int.of_str LiteralRe.lib Demo.root
      (Scenes.stale (Some "o")) Demo.fs = (en, st) /\
    Prompt ∈ trace st /\
    disk st !! ["work"; "notes.txt"] = Some (File "hello").
Proof.
  pose (x := ((3, JString "not sure", JString "", JArray []),
              (3, JString "a note", JString "keep it",
               JArray [Demo.op "replace" "notes.txt" "hello"]))).
  destruct (failure_offers_earlier_review Json.loads Int.of_str LiteralRe.lib
              Demo.root (Scenes.stale (Some "o")) Demo.fs 0 x Codex
              (BackendError "rate limit"))
    as (en & st & Hm & _ & Hp & _ & Ho).
  - vm_compute. reflexivity.
  - discriminate.
  - unfold TURN_LIMIT. lia.
  - intros i Hi. assert (i = 0%nat) as -> by lia.
    exists x. split; vm_compute; reflexivity.
  - vm_compute. reflexivity.
  - reflexivity.
  - exists (JObject [("score", JInt 3); ("summary", JString "not sure");
                     ("advice", JString ""); ("changes", JArray [])]),
           (3, JString "not sure", JString "", JArray []).
    repeat split; vm_compute; reflexivity.
  - exists en, st. split; [exact Hm|]. split; [exact Hp|].
    rewrite Ho by (vm_compute; reflexivity). vm_compute. reflexivity.
Defined.

Lemma parser_accepts_wrapped_object_witness :
  let object := "{" +:+ Json.text "'score': 5" +:+ "}" in
  parse_first_json_block Json.loads ("Voici: " +:+ object +:+ " Fin.")
  = Ret (JObject [("score", JInt 5)]).
Proof.
  intros object.
  destruct (parser_accepts_wrapped_object Json.loads
              "Voici: " (Json.text "'score': 5") " Fin." eq_refl eq_refl)
    as (_ & H & _).
  apply H. vm_compute. reflexivity.
Defined.


Lemma scalar_batch_witness :
  apply_changes LiteralRe.lib Demo.root (JInt 3) Demo.fs
  = (Raise (TypeError "object is not iterable"), Demo.fs).
Proof.
  apply (scalar_batch LiteralRe.lib Demo.root (JInt 3) Demo.fs); discriminate.
Defined.
